(** * Hyperstack image builder: orchestration core

    A shallow embedding of the Go sources [main.go], [internal/client/hyperstack.go]
    and [internal/ssh/client.go].  Every call that leaves the process (clock,
    HTTP transport, local file system, SSH transport) is an oracle over an
    abstract world; a run returns its value, the world it leaves behind and the
    chronological list of the calls it made together with their results. *)

From stdpp Require Import base tactics option list strings pretty gmap.

(** ** Data model ([internal/types]) *)

(** Go [error] values are modelled by their [Error()] text. *)
Definition Err : Type := string.

Record Config := mkConfig {
  Region : string;
  ImageName : string;
  ImageVersion : string;
  BaseImageName : string;
  VMName : string;
  FlavorName : string;
  KeypairName : string;
  PrivateKeyPath : string;
  EnvironmentName : string;
  Tags : list string
}.

Definition with_VMName (name : string) (c : Config) : Config :=
  {| Region := Region c; ImageName := ImageName c; ImageVersion := ImageVersion c;
     BaseImageName := BaseImageName c; VMName := name; FlavorName := FlavorName c;
     KeypairName := KeypairName c; PrivateKeyPath := PrivateKeyPath c;
     EnvironmentName := EnvironmentName c; Tags := Tags c |}.

Record SecurityRule := mkSecurityRule {
  Direction : string;
  Protocol : string;
  EtherType : string;
  RemoteIPPrefix : string;
  PortRangeMin : option Z;
  PortRangeMax : option Z
}.

Record VMCreateRequest := mkVMCreateRequest {
  vmreq_Name : string;
  vmreq_ImageName : string;
  vmreq_FlavorName : string;
  vmreq_KeyName : string;
  vmreq_EnvironmentName : string;
  vmreq_Count : Z;
  vmreq_Labels : list string;
  vmreq_AssignFloatingIP : bool;
  vmreq_EnablePortRandomization : option bool;
  vmreq_SecurityRules : list SecurityRule
}.

Record VMFlavor := mkVMFlavor { flavor_ID : Z; flavor_Name : string }.
Record VMImage := mkVMImage { vmimage_ID : Z; vmimage_Name : string }.

Record VMInstance := mkVMInstance {
  vm_ID : Z;
  vm_Name : string;
  vm_Status : string;
  vm_FixedIP : string;
  vm_FloatingIP : string;
  vm_FloatingIPStatus : string;
  vm_Flavor : VMFlavor;
  vm_Image : VMImage
}.

Record VMCreateResponse := mkVMCreateResponse { Instances : list VMInstance }.
Record VMCreateData := mkVMCreateData { data_Instances : list VMInstance }.
Record VMDetailData := mkVMDetailData { data_Instance : VMInstance }.

Record SnapshotCreateRequest := mkSnapshotCreateRequest {
  snapreq_Name : string;
  snapreq_Description : string
}.

Record Snapshot := mkSnapshot {
  snap_ID : Z;
  snap_Name : string;
  snap_Description : string;
  snap_VMID : Z;
  snap_RegionID : Z;
  snap_Status : string;
  snap_IsImage : bool;
  snap_Size : Z;
  snap_HasFloatingIP : bool;
  snap_CreatedAt : string;
  snap_UpdatedAt : string
}.

Record SnapshotCreateResponse := mkSnapshotCreateResponse {
  screate_Status : bool;
  screate_Message : string;
  screate_Snapshot : Snapshot
}.

Record SnapshotDetailResponse := mkSnapshotDetailResponse {
  sdetail_Status : Z;
  sdetail_Message : string;
  sdetail_Snapshot : Snapshot
}.

Record ImageLabel := mkImageLabel { label_ID : Z; label_Label : string }.

Record Image := mkImage {
  image_ID : Z;
  image_Name : string;
  image_RegionName : string;
  image_Type : string;
  image_Version : string;
  image_Size : Z;
  image_IsPublic : bool;
  image_Labels : list ImageLabel
}.

Record ImageDetailData := mkImageDetailData {
  idetail_Status : bool;
  idetail_Message : string;
  idetail_Image : Image
}.

Record ImageCreateRequest := mkImageCreateRequest {
  imgreq_Name : string;
  imgreq_Labels : list string
}.

(** The status/message wrapper decoded first by [parseAPIResponse]. *)
Record APIWrapper := mkAPIWrapper { api_Status : bool; api_Message : string }.

(** ** The outside world *)

(** The value handed to [json.Marshal] by [makeRequest]. *)
Inductive ReqBody :=
| BodyVMCreate (r : VMCreateRequest)
| BodySnapshotCreate (r : SnapshotCreateRequest)
| BodyImageCreate (r : ImageCreateRequest).

Record Request := mkRequest {
  req_method : string;
  req_url : string;
  req_api_key : string;
  req_body : option ReqBody
}.

(** An HTTP response: status code, the bytes [io.ReadAll] yields and the
    error it may yield with them. *)
Record Response := mkResponse {
  StatusCode : Z;
  Body : string;
  BodyReadErr : option Err
}.

(** Result of [os.Stat] as the callers look at it: no error, an error for
    which [os.IsNotExist] holds, or any other error. *)
Inductive StatResult :=
| StatOK
| StatNotExist (e : Err)
| StatOtherErr (e : Err).

Definition Conn : Type := nat.
Definition Session : Type := nat.

(** The part of [ssh.ClientConfig] the code sets: user, key signer and
    dial timeout in seconds (host keys are not verified). *)
Record ClientConfig := mkClientConfig {
  User : string;
  Signer : string;
  Timeout : Z
}.

Inductive Event :=
| EvNow (t : Z)
| EvHttp (req : Request) (res : Err + Response)
| EvSleep (seconds : Z)
| EvStat (path : string) (res : StatResult)
| EvOpen (path : string) (res : option Err)
| EvFileStat (path : string) (res : Err + Z)
| EvHomeDir (res : Err + string)
| EvReadFile (path : string) (res : Err + string)
| EvDial (addr : string) (res : Err + Conn)
| EvNewSession (c : Conn) (res : Err + Session)
| EvRun (s : Session) (cmd : string) (res : option Err)
| EvConnClose (c : Conn) (res : option Err)
| EvWarn (msg : string).

(** Calls that go over the network (HTTP API or SSH transport). *)
Definition is_remote (e : Event) : bool :=
  match e with
  | EvHttp _ _ | EvDial _ _ | EvNewSession _ _ | EvRun _ _ _ | EvConnClose _ _ => true
  | _ => false
  end.

(** The oracles.  Library code that is not part of the repository
    ([path/filepath], [encoding/json], [x/crypto/ssh] key parsing) is taken
    as pure functions of the same interface. *)
Class Sys (W : Type) := {
  sys_now : W → Z * W;
  sys_sleep : Z → W → W;
  sys_http : Request → W → (Err + Response) * W;
  sys_stat : string → W → StatResult * W;
  sys_open : string → W → option Err * W;
  sys_fstat : string → W → (Err + Z) * W;
  sys_homeDir : W → (Err + string) * W;
  sys_readFile : string → W → (Err + string) * W;
  sys_dial : string → ClientConfig → W → (Err + Conn) * W;
  sys_newSession : Conn → W → (Err + Session) * W;
  sys_run : Session → string → W → option Err * W;
  sys_connClose : Conn → W → option Err * W;
  pathJoin : string → string → string;
  pathDir : string → string;
  pathBase : string → string;
  parsePrivateKey : string → Err + string;
  unmarshalWrapper : string → Err + APIWrapper;
  unmarshalVMCreateData : string → Err + VMCreateData;
  unmarshalVMDetailData : string → Err + VMDetailData;
  unmarshalImageDetailData : string → Err + ImageDetailData;
  decodeSnapshotCreateResponse : Response → Err + SnapshotCreateResponse;
  decodeSnapshotDetailResponse : Response → Err + SnapshotDetailResponse
}.

(** ** The run monad: world passing with a call log *)

Record Out (W A : Type) := mkOut { val : A; post : W; evs : list Event }.
Arguments mkOut {W A} _ _ _.
Arguments val {W A} _.
Arguments post {W A} _.
Arguments evs {W A} _.

Definition M (W A : Type) : Type := W → Out W A.

Definition ret {W A} (a : A) : M W A := λ w, mkOut a w [].

Definition bind {W A B} (m : M W A) (k : A → M W B) : M W B :=
  λ w, let o := m w in
       let o' := k (val o) (post o) in
       mkOut (val o') (post o') (evs o ++ evs o').

Notation "x <- m ;; k" := (bind m (λ x, k))
  (at level 100, m at next level, right associativity).
Notation "m ;;; k" := (bind m (λ _, k))
  (at level 100, right associativity).

(** One oracle call, logged with its result. *)
Definition call {W A} (f : W → A * W) (ev : A → Event) : M W A :=
  λ w, let r := f w in mkOut r.1 r.2 [ev r.1].

Definition emit {W} (e : Event) : M W unit := λ w, mkOut tt w [e].

(** ** The API client ([internal/client/hyperstack.go]) *)

Module client.

Definition HyperstackAPIBase : string := "https://infrahub-api.nexgencloud.com/v1".

Record HyperstackClient := mkHyperstackClient { APIKey : string }.

Definition New (apiKey : string) : HyperstackClient := mkHyperstackClient apiKey.

Section Client.
Context {W : Type} `{Sys W}.

Definition makeRequest (c : HyperstackClient) (method endpoint : string)
    (body : option ReqBody) : M W (Err + Response) :=
  let req := mkRequest method (HyperstackAPIBase +:+ endpoint) (APIKey c) body in
  call (sys_http req) (EvHttp req).

Definition parseAPIResponse {T : Type} (unmarshal : string → Err + T)
    (resp : Response) : Err + T :=
  if bool_decide (StatusCode resp ≠ 200%Z) && bool_decide (StatusCode resp ≠ 201%Z) then
    inl ("API request failed: status " +:+ pretty (StatusCode resp)
         +:+ ", body: " +:+ Body resp)
  else
    match BodyReadErr resp with
    | Some e => inl ("failed to read response body: " +:+ e)
    | None =>
      match unmarshalWrapper (Body resp) with
      | inl e => inl ("failed to parse API response wrapper: " +:+ e)
      | inr apiResp =>
        if negb (api_Status apiResp) then
          inl ("API returned error: " +:+ api_Message apiResp)
        else
          match unmarshal (Body resp) with
          | inl e => inl ("failed to parse response data: " +:+ e)
          | inr t => inr t
          end
      end
    end.

Definition sshRule : SecurityRule :=
  {| Direction := "ingress"; Protocol := "tcp"; EtherType := "IPv4";
     RemoteIPPrefix := "0.0.0.0/0";
     PortRangeMin := Some 22%Z; PortRangeMax := Some 22%Z |}.

Definition vmReq (config : Config) : VMCreateRequest :=
  {| vmreq_Name := VMName config;
     vmreq_ImageName := BaseImageName config;
     vmreq_FlavorName := FlavorName config;
     vmreq_KeyName := KeypairName config;
     vmreq_EnvironmentName := EnvironmentName config;
     vmreq_Count := 1%Z;
     vmreq_Labels := Tags config;
     vmreq_AssignFloatingIP := true;
     vmreq_EnablePortRandomization := None;
     vmreq_SecurityRules := [sshRule] |}.

Definition CreateVM (c : HyperstackClient) (config : Config)
    : M W (Err + VMCreateResponse) :=
  r <- makeRequest c "POST" "/core/virtual-machines" (Some (BodyVMCreate (vmReq config))) ;;
  match r with
  | inl err => ret (inl ("failed to create VM: " +:+ err))
  | inr resp =>
    match parseAPIResponse unmarshalVMCreateData resp with
    | inl err => ret (inl err)
    | inr data => ret (inr (mkVMCreateResponse (data_Instances data)))
    end
  end.

(** The condition of the [if] in [WaitForVMReady]. *)
Definition vm_ready (vm : VMInstance) : bool :=
  bool_decide (vm_Status vm = "ACTIVE")
  && bool_decide (vm_FloatingIP vm ≠ "")
  && bool_decide (vm_FloatingIPStatus vm = "ATTACHED").

Definition vm_endpoint (vmID : Z) : string := "/core/virtual-machines/" +:+ pretty vmID.

(** [for i := 0; i < n; i++ { ... }] of [WaitForVMReady], with [n]
    iterations left. *)
Fixpoint WaitForVMReady_loop (n : nat) (c : HyperstackClient) (vmID : Z)
    : M W (Err + string) :=
  match n with
  | O => ret (inl "VM did not become ready with floating IP within timeout")
  | S n' =>
    r <- makeRequest c "GET" (vm_endpoint vmID) None ;;
    match r with
    | inl err => ret (inl err)
    | inr resp =>
      match parseAPIResponse unmarshalVMDetailData resp with
      | inl err => ret (inl err)
      | inr data =>
        let vm := data_Instance data in
        if vm_ready vm then ret (inr (vm_FloatingIP vm))
        else
          call (λ w, (tt, sys_sleep 10 w)) (λ _, EvSleep 10) ;;;
          WaitForVMReady_loop n' c vmID
      end
    end
  end.

Definition WaitForVMReady (c : HyperstackClient) (vmID : Z) : M W (Err + string) :=
  WaitForVMReady_loop 60 c vmID.

Definition GetVMDetails (c : HyperstackClient) (vmID : Z) : M W (Err + VMInstance) :=
  r <- makeRequest c "GET" (vm_endpoint vmID) None ;;
  match r with
  | inl err => ret (inl ("failed to get VM details: " +:+ err))
  | inr resp =>
    match parseAPIResponse unmarshalVMDetailData resp with
    | inl err => ret (inl err)
    | inr data => ret (inr (data_Instance data))
    end
  end.

Definition snapReq (vmID : Z) (snapshotName : string) : SnapshotCreateRequest :=
  {| snapreq_Name := snapshotName;
     snapreq_Description := "Snapshot of VM " +:+ pretty vmID +:+ " for image building" |}.

Definition CreateSnapshot (c : HyperstackClient) (vmID : Z) (snapshotName : string)
    : M W (Err + Snapshot) :=
  r <- makeRequest c "POST" (vm_endpoint vmID +:+ "/snapshots")
         (Some (BodySnapshotCreate (snapReq vmID snapshotName))) ;;
  match r with
  | inl err => ret (inl ("failed to create snapshot: " +:+ err))
  | inr resp =>
    if bool_decide (StatusCode resp ≠ 200%Z) && bool_decide (StatusCode resp ≠ 201%Z) then
      ret (inl ("failed to create snapshot: status " +:+ pretty (StatusCode resp)
                +:+ ", body: " +:+ Body resp))
    else
      match decodeSnapshotCreateResponse resp with
      | inl err => ret (inl ("failed to decode snapshot response: " +:+ err))
      | inr snapshotResp => ret (inr (screate_Snapshot snapshotResp))
      end
  end.

Definition snapshot_endpoint (snapshotID : Z) : string :=
  "/core/snapshots/" +:+ pretty snapshotID.

Definition snapshot_ready (s : Snapshot) : bool :=
  bool_decide (snap_Status s = "SUCCESS").

Fixpoint WaitForSnapshotReady_loop (n : nat) (c : HyperstackClient) (snapshotID : Z)
    : M W (option Err) :=
  match n with
  | O => ret (Some "snapshot did not become ready within timeout")
  | S n' =>
    r <- makeRequest c "GET" (snapshot_endpoint snapshotID) None ;;
    match r with
    | inl err => ret (Some err)
    | inr resp =>
      match decodeSnapshotDetailResponse resp with
      | inl err => ret (Some err)
      | inr snapshotResp =>
        if snapshot_ready (sdetail_Snapshot snapshotResp) then ret None
        else
          call (λ w, (tt, sys_sleep 10 w)) (λ _, EvSleep 10) ;;;
          WaitForSnapshotReady_loop n' c snapshotID
      end
    end
  end.

Definition WaitForSnapshotReady (c : HyperstackClient) (snapshotID : Z) : M W (option Err) :=
  WaitForSnapshotReady_loop 120 c snapshotID.

Definition imgReq (imageName : string) (labels : list string) : ImageCreateRequest :=
  {| imgreq_Name := imageName; imgreq_Labels := labels |}.

Definition CreateImageFromSnapshot (c : HyperstackClient) (snapshotID : Z)
    (imageName : string) (labels : list string) : M W (Err + Image) :=
  r <- makeRequest c "POST" (snapshot_endpoint snapshotID +:+ "/image")
         (Some (BodyImageCreate (imgReq imageName labels))) ;;
  match r with
  | inl err => ret (inl ("failed to create image: " +:+ err))
  | inr resp =>
    match parseAPIResponse unmarshalImageDetailData resp with
    | inl err => ret (inl err)
    | inr imageResp => ret (inr (idetail_Image imageResp))
    end
  end.

Definition DeleteVM (c : HyperstackClient) (vmID : Z) : M W (option Err) :=
  r <- makeRequest c "DELETE" (vm_endpoint vmID) None ;;
  match r with
  | inl err => ret (Some err)
  | inr resp =>
    if bool_decide (StatusCode resp ≠ 204%Z) && bool_decide (StatusCode resp ≠ 200%Z) then
      ret (Some ("failed to delete VM: status " +:+ pretty (StatusCode resp)
                 +:+ ", body: " +:+ Body resp))
    else ret None
  end.

End Client.

End client.

(** ** The remote session ([internal/ssh/client.go]) *)

Module ssh.

(** [client] is [None] for Go's nil [*ssh.Client]. *)
Record Client := mkClient {
  config : ClientConfig;
  client : option Conn
}.

Section Session.
Context {W : Type} `{Sys W}.

Definition sleep (seconds : Z) : M W unit :=
  call (λ w, (tt, sys_sleep seconds w)) (λ _, EvSleep seconds).

Definition New (privateKeyPath username : string) : M W (Err + Client) :=
  p <- (if String.prefix "~" privateKeyPath then
          r <- call sys_homeDir EvHomeDir ;;
          match r with
          | inl err => ret (inl ("failed to get home directory: " +:+ err))
          | inr homeDir =>
            ret (inr (pathJoin homeDir
                        (String.substring 1 (String.length privateKeyPath - 1)
                                          privateKeyPath)))
          end
        else ret (inr privateKeyPath)) ;;
  match p with
  | inl err => ret (inl err)
  | inr privateKeyPath =>
    r <- call (sys_readFile privateKeyPath) (EvReadFile privateKeyPath) ;;
    match r with
    | inl err => ret (inl ("failed to read private key: " +:+ err))
    | inr key =>
      match parsePrivateKey key with
      | inl err => ret (inl ("failed to parse private key: " +:+ err))
      | inr signer =>
        ret (inr {| config := {| User := username; Signer := signer; Timeout := 30 |};
                    client := None |})
      end
    end
  end.

(** The retry loop of [Connect] with [n] attempts left; [err] is the
    error of the previous attempt.  [ssh.Dial] returns a nil client with
    every error, and the loop stores what it returns in [c.client]. *)
Fixpoint Connect_loop (n : nat) (c : Client) (host : string) (err : option Err)
    : M W (Client * option Err) :=
  match n with
  | O => ret (c, Some ("failed to connect after 30 attempts: "
                       +:+ default "%!w(<nil>)" err))
  | S n' =>
    r <- call (sys_dial (host +:+ ":22") (config c)) (EvDial (host +:+ ":22")) ;;
    match r with
    | inr conn => ret ({| config := config c; client := Some conn |}, None)
    | inl e =>
      sleep 10 ;;;
      Connect_loop n' {| config := config c; client := None |} host (Some e)
    end
  end.

Definition Connect (c : Client) (host : string) : M W (Client * option Err) :=
  Connect_loop 30 c host None.

Definition Close (c : Client) : M W (option Err) :=
  match client c with
  | Some conn => call (sys_connClose conn) (EvConnClose conn)
  | None => ret None
  end.

(** The goroutine that feeds the SCP header, the file bytes and the
    terminating zero byte into the session runs concurrently with
    [session.Run]; its effect is part of what [sys_run] answers. *)
Definition CopyFile (c : Client) (localPath remotePath : string) : M W (option Err) :=
  match client c with
  | None => ret (Some "SSH connection not established")
  | Some conn =>
    r <- call (sys_open localPath) (EvOpen localPath) ;;
    match r with
    | Some err => ret (Some ("failed to open local file: " +:+ err))
    | None =>
      r <- call (sys_fstat localPath) (EvFileStat localPath) ;;
      match r with
      | inl err => ret (Some ("failed to stat local file: " +:+ err))
      | inr _ =>
        r <- call (sys_newSession conn) (EvNewSession conn) ;;
        match r with
        | inl err => ret (Some ("failed to create session: " +:+ err))
        | inr session =>
          let cmd := "scp -t " +:+ remotePath in
          r <- call (sys_run session cmd) (EvRun session cmd) ;;
          match r with
          | Some err => ret (Some ("failed to execute SCP: " +:+ err))
          | None => ret None
          end
        end
      end
    end
  end.

Definition ExecuteCommand (c : Client) (command : string) : M W (option Err) :=
  match client c with
  | None => ret (Some "SSH connection not established")
  | Some conn =>
    r <- call (sys_newSession conn) (EvNewSession conn) ;;
    match r with
    | inl err => ret (Some ("failed to create session: " +:+ err))
    | inr session =>
      r <- call (sys_run session command) (EvRun session command) ;;
      match r with
      | Some err => ret (Some ("command failed: " +:+ err))
      | None => ret None
      end
    end
  end.

Definition ExecuteScript (c : Client) (scriptPath : string) : M W (option Err) :=
  r <- ExecuteCommand c ("chmod +x " +:+ scriptPath) ;;
  match r with
  | Some err => ret (Some ("failed to make script executable: " +:+ err))
  | None =>
    r <- ExecuteCommand c scriptPath ;;
    match r with
    | Some err => ret (Some ("failed to execute script: " +:+ err))
    | None => ret None
    end
  end.

End Session.

End ssh.

(** ** Provisioning pipeline and orchestrator ([main.go]) *)

Record FileDeployment := mkFileDeployment {
  LocalPath : string;
  RemotePath : string
}.

Definition provisioningScripts : list string :=
  ["cleanup-nvidia-cuda.sh"; "install-drivers.sh"; "install-nvidia-container-toolkit.sh"].

Definition fileDeployments : list FileDeployment :=
  [ {| LocalPath := "runsc.toml"; RemotePath := "/etc/containerd/runsc.toml" |} ].

(** How the process ends: [main] returns, or [log.Fatal]/[log.Fatalf]
    prints the message and exits with status 1 on the spot. *)
Inductive Exit :=
| ExitOK
| ExitFatal (msg : string).

Definition platformLabels : list string :=
  [ "kubernetes.io/os=linux";
    "kubernetes.io/arch=amd64";
    "nvidia.com/gpu=true";
    "nvidia.com/cuda=true";
    "container.runtime=docker";
    "image.type=kubernetes-node" ].

Section Pipeline.
Context {W : Type} `{Sys W}.

(** [for _, x := range xs { body }] where the body may [return err]. *)
Fixpoint for_range {A : Type} (body : A → M W (option Err)) (xs : list A)
    : M W (option Err) :=
  match xs with
  | [] => ret None
  | x :: rest =>
    r <- body x ;;
    match r with
    | Some err => ret (Some err)
    | None => for_range body rest
    end
  end.

(** Body of the loop of [executeScripts]. *)
Definition executeScripts_body (sshClient : ssh.Client)
    (scriptDir remoteScriptDir script : string) : M W (option Err) :=
  let localPath := pathJoin scriptDir script in
  let remotePath := pathJoin remoteScriptDir script in
  st <- call (sys_stat localPath) (EvStat localPath) ;;
  match st with
  | StatNotExist _ => ret (Some ("local script not found: " +:+ localPath))
  | _ =>
    r <- ssh.CopyFile sshClient localPath remotePath ;;
    match r with
    | Some err => ret (Some ("failed to copy script " +:+ script +:+ ": " +:+ err))
    | None =>
      r <- ssh.ExecuteScript sshClient remotePath ;;
      match r with
      | Some err => ret (Some ("failed to execute script " +:+ script +:+ ": " +:+ err))
      | None => ret None
      end
    end
  end.

Definition executeScripts (sshClient : ssh.Client) (scripts : list string)
    (scriptDir remoteScriptDir : string) : M W (option Err) :=
  r <- ssh.ExecuteCommand sshClient ("mkdir -p " +:+ remoteScriptDir) ;;
  match r with
  | Some err => ret (Some ("failed to create remote script directory: " +:+ err))
  | None => for_range (executeScripts_body sshClient scriptDir remoteScriptDir) scripts
  end.

(** Body of the loop of [deployFiles]. *)
Definition deployFiles_body (sshClient : ssh.Client) (filesDir : string)
    (deployment : FileDeployment) : M W (option Err) :=
  let localPath := pathJoin filesDir (LocalPath deployment) in
  st <- call (sys_stat localPath) (EvStat localPath) ;;
  match st with
  | StatNotExist _ => ret (Some ("local file not found: " +:+ localPath))
  | _ =>
    let remoteDir := pathDir (RemotePath deployment) in
    r <- ssh.ExecuteCommand sshClient ("sudo mkdir -p " +:+ remoteDir) ;;
    match r with
    | Some err =>
      ret (Some ("failed to create remote directory " +:+ remoteDir +:+ ": " +:+ err))
    | None =>
      let tempPath := "/tmp/" +:+ pathBase (LocalPath deployment) in
      r <- ssh.CopyFile sshClient localPath tempPath ;;
      match r with
      | Some err =>
        ret (Some ("failed to copy file " +:+ LocalPath deployment +:+ ": " +:+ err))
      | None =>
        r <- ssh.ExecuteCommand sshClient
               ("sudo mv " +:+ tempPath +:+ " " +:+ RemotePath deployment) ;;
        match r with
        | Some err =>
          ret (Some ("failed to move file to " +:+ RemotePath deployment +:+ ": " +:+ err))
        | None => ret None
        end
      end
    end
  end.

Definition deployFiles (sshClient : ssh.Client) (deployments : list FileDeployment)
    (filesDir : string) : M W (option Err) :=
  for_range (deployFiles_body sshClient filesDir) deployments.

Definition scriptDir : string := "../../scripts".
Definition filesDir : string := "../../files".
Definition remoteScriptDir : string := "/tmp/provisioning-scripts".

(** [executeProvisioningScripts], with the two package-level lists it
    reads as arguments.  The deferred [sshClient.Close()] runs on every
    return after a successful [Connect]; its result is dropped. *)
Definition executeProvisioningScripts_with (scripts : list string)
    (deployments : list FileDeployment) (vmIP privateKeyPath : string)
    : M W (option Err) :=
  r <- ssh.New privateKeyPath "ubuntu" ;;
  match r with
  | inl err => ret (Some ("failed to create SSH client: " +:+ err))
  | inr sshClient =>
    r <- ssh.Connect sshClient vmIP ;;
    let sshClient := r.1 in
    match r.2 with
    | Some err => ret (Some ("failed to connect to VM: " +:+ err))
    | None =>
      r <- executeScripts sshClient scripts scriptDir remoteScriptDir ;;
      match r with
      | Some err =>
        ssh.Close sshClient ;;; ret (Some ("failed to execute scripts: " +:+ err))
      | None =>
        r <- deployFiles sshClient deployments filesDir ;;
        match r with
        | Some err =>
          ssh.Close sshClient ;;; ret (Some ("failed to deploy files: " +:+ err))
        | None =>
          r <- ssh.ExecuteCommand sshClient ("rm -rf " +:+ remoteScriptDir) ;;
          match r with
          | Some err => emit (EvWarn ("Warning: failed to clean up remote scripts: " +:+ err))
          | None => ret tt
          end ;;;
          ssh.Close sshClient ;;;
          ret None
        end
      end
    end
  end.

Definition executeProvisioningScripts (vmIP privateKeyPath : string) : M W (option Err) :=
  executeProvisioningScripts_with provisioningScripts fileDeployments vmIP privateKeyPath.

(** [main] from the point where the configuration is loaded and the API
    key is read (line 210 on).  Progress logging is left out; warnings
    are events and a fatal log ends the run with its message. *)
Definition main (apiKey : string) (cfg : Config) : M W Exit :=
  let hyperstackClient := client.New apiKey in
  let originalVMName := VMName cfg in
  now <- call sys_now EvNow ;;
  let cfg := with_VMName (VMName cfg +:+ "-" +:+ pretty now) cfg in
  r <- client.CreateVM hyperstackClient cfg ;;
  match r with
  | inl err => ret (ExitFatal ("Failed to create VM: " +:+ err))
  | inr vmResp =>
    let cfg := with_VMName originalVMName cfg in
    match Instances vmResp with
    | [] => ret (ExitFatal "No instances created")
    | vm :: _ =>
      r <- client.WaitForVMReady hyperstackClient (vm_ID vm) ;;
      match r with
      | inl err => ret (ExitFatal ("VM failed to become ready: " +:+ err))
      | inr vmIP =>
        r <- client.GetVMDetails hyperstackClient (vm_ID vm) ;;
        match r with
        | inl err => ret (ExitFatal ("Failed to get VM details: " +:+ err))
        | inr vmDetails =>
          r <- executeProvisioningScripts vmIP (PrivateKeyPath cfg) ;;
          match r with
          | Some err => ret (ExitFatal ("Provisioning failed: " +:+ err))
          | None =>
            now <- call sys_now EvNow ;;
            let snapshotName := VMName cfg +:+ "-snapshot-" +:+ pretty now in
            r <- client.CreateSnapshot hyperstackClient (vm_ID vm) snapshotName ;;
            match r with
            | inl err => ret (ExitFatal ("Failed to create snapshot: " +:+ err))
            | inr snapshot =>
              r <- client.WaitForSnapshotReady hyperstackClient (snap_ID snapshot) ;;
              match r with
              | Some err => ret (ExitFatal ("Snapshot failed to become ready: " +:+ err))
              | None =>
                let imageName := ImageName cfg +:+ "_" +:+ ImageVersion cfg in
                let imageLabels := [] ++ Tags cfg in
                let imageLabels := imageLabels ++ platformLabels in
                r <- client.CreateImageFromSnapshot hyperstackClient (snap_ID snapshot)
                       imageName imageLabels ;;
                match r with
                | inl err => ret (ExitFatal ("Failed to create image: " +:+ err))
                | inr image =>
                  r <- client.DeleteVM hyperstackClient (vm_ID vm) ;;
                  match r with
                  | Some err => emit (EvWarn ("Warning: Failed to delete VM: " +:+ err))
                  | None => ret tt
                  end ;;;
                  ret ExitOK
                end
              end
            end
          end
        end
      end
    end
  end.

End Pipeline.

(** ** Go slices over a store of backing arrays

    Lines 269-279 of [main.go] build the label list with two [append]
    calls.  What [append] may overwrite depends on which backing array a
    slice shares, so slices are modelled as Go has them: a window
    (offset, length, capacity) onto an array in a store. *)

Module goslice.

Record Slice := mkSlice {
  ptr : nat;
  off : nat;
  len : nat;
  cap : nat
}.

Abbreviation Heap := (gmap nat (list string)).

(** The elements [s[0], ..., s[len-1]]. *)
Definition read (h : Heap) (s : Slice) : list string :=
  take (len s) (drop (off s) (default [] (h !! ptr s))).

(** A slice lies inside its backing array. *)
Definition valid (h : Heap) (s : Slice) : Prop :=
  len s ≤ cap s ∧
  (cap s = 0 ∨ ∃ arr, h !! ptr s = Some arr ∧ off s + cap s ≤ length arr).

(** [append(s, xs...)]: with room in the backing array the new elements
    are written in place behind [s]; otherwise a fresh array is allocated
    whose capacity, at least the length needed, is chosen by the runtime
    ([grow], given the old capacity and the length needed). *)
Definition append (grow : nat → nat → nat) (h : Heap) (s : Slice) (xs : list string)
    : Heap * Slice :=
  let n := len s + length xs in
  if decide (n ≤ cap s) then
    (alter (list_inserts (off s + len s) xs) (ptr s) h,
     mkSlice (ptr s) (off s) n (cap s))
  else
    let c := n `max` grow (cap s) n in
    let p := fresh (dom h) in
    (<[p := read h s ++ xs ++ replicate (c - n) ""]> h, mkSlice p 0 n c).

(** [[]string{}]: length and capacity zero; its pointer is never followed. *)
Definition empty_literal : Slice := mkSlice 0 0 0 0.

(** [imageLabels := append([]string{}, cfg.Tags...)] followed by
    [imageLabels = append(imageLabels, <the six labels>)]. *)
Definition build_imageLabels (grow : nat → nat → nat) (h : Heap) (tags : Slice)
    : Heap * Slice :=
  let r := append grow h empty_literal (read h tags) in
  append grow r.1 r.2 platformLabels.

End goslice.

(** ** Vocabulary of the statements *)

Section Observations.
Context {W : Type} `{Sys W}.

Definition is_http (e : Event) : bool :=
  match e with EvHttp _ _ => true | _ => false end.

(** Number of API requests in a call log. *)
Definition http_count (l : list Event) : nat := length (filter (λ e, is_http e = true) l).

(** One status read of the instance, as an iteration of
    [WaitForVMReady] performs it: the request, then [parseAPIResponse]. *)
Definition poll_vm (c : client.HyperstackClient) (vmID : Z) : M W (Err + VMInstance) :=
  r <- client.makeRequest c "GET" (client.vm_endpoint vmID) None ;;
  ret (match r with
       | inl err => inl err
       | inr resp =>
         match client.parseAPIResponse unmarshalVMDetailData resp with
         | inl err => inl err
         | inr data => inr (data_Instance data)
         end
       end).

(** What [n] successive status reads, ten seconds apart, observe. *)
Fixpoint vm_polls (n : nat) (c : client.HyperstackClient) (vmID : Z) (w : W)
    : list (Err + VMInstance) :=
  match n with
  | O => []
  | S n' =>
    let o := poll_vm c vmID w in
    val o :: vm_polls n' c vmID (sys_sleep 10 (post o))
  end.

Definition poll_snapshot (c : client.HyperstackClient) (snapshotID : Z)
    : M W (Err + Snapshot) :=
  r <- client.makeRequest c "GET" (client.snapshot_endpoint snapshotID) None ;;
  ret (match r with
       | inl err => inl err
       | inr resp =>
         match decodeSnapshotDetailResponse resp with
         | inl err => inl err
         | inr snapshotResp => inr (sdetail_Snapshot snapshotResp)
         end
       end).

Fixpoint snapshot_polls (n : nat) (c : client.HyperstackClient) (snapshotID : Z) (w : W)
    : list (Err + Snapshot) :=
  match n with
  | O => []
  | S n' =>
    let o := poll_snapshot c snapshotID w in
    val o :: snapshot_polls n' c snapshotID (sys_sleep 10 (post o))
  end.

(** A read that returned a state on which the predicate is false. *)
Definition pending {A : Type} (ready : A → bool) (r : Err + A) : Prop :=
  ∃ a, r = inr a ∧ ready a = false.

(** *** Loops over steps *)

(** The call log of running every element's body in order, whatever the
    bodies return. *)
Fixpoint each {A : Type} (body : A → M W (option Err)) (xs : list A) (w : W)
    : list Event :=
  match xs with
  | [] => []
  | x :: rest => let o := body x w in evs o ++ each body rest (post o)
  end.

(** What every body returns when all of them are run in order. *)
Fixpoint outcomes {A : Type} (body : A → M W (option Err)) (xs : list A) (w : W)
    : list (option Err) :=
  match xs with
  | [] => []
  | x :: rest => let o := body x w in val o :: outcomes body rest (post o)
  end.

(** The world after running the bodies of [xs] in order. *)
Fixpoint after {A : Type} (body : A → M W (option Err)) (xs : list A) (w : W) : W :=
  match xs with
  | [] => w
  | x :: rest => after body rest (post (body x w))
  end.

(** The errors a script step can return; each carries the script's name
    or its local path. *)
Definition script_error (scriptDir script : string) (e : Err) : Prop :=
  e = "local script not found: " +:+ pathJoin scriptDir script
  ∨ (∃ cause, e = "failed to copy script " +:+ script +:+ ": " +:+ cause)
  ∨ (∃ cause, e = "failed to execute script " +:+ script +:+ ": " +:+ cause).

(** The errors a file deployment can return; each carries the
    deployment's local path, its destination, or the directory of its
    destination. *)
Definition deploy_error (filesDir : string) (d : FileDeployment) (e : Err) : Prop :=
  e = "local file not found: " +:+ pathJoin filesDir (LocalPath d)
  ∨ (∃ cause, e = "failed to create remote directory " +:+ pathDir (RemotePath d)
                  +:+ ": " +:+ cause)
  ∨ (∃ cause, e = "failed to copy file " +:+ LocalPath d +:+ ": " +:+ cause)
  ∨ (∃ cause, e = "failed to move file to " +:+ RemotePath d +:+ ": " +:+ cause).

(** The deployment of index [k] is the first to fail, with error [e]. *)
Definition first_failed_deployment (c : ssh.Client) (filesDir : string)
    (deployments : list FileDeployment) (w : W) (k : nat) (e : Err) : Prop :=
  outcomes (deployFiles_body c filesDir) deployments w !! k = Some (Some e)
  ∧ Forall (eq None) (take k (outcomes (deployFiles_body c filesDir) deployments w)).

(** The returned error identifies the failing step: the same error is not
    returned for the failure of two different steps of the list. *)
Definition error_identifies_deployment (c : ssh.Client) (filesDir : string)
    (deployments : list FileDeployment) (w1 w2 : W) : Prop :=
  ∀ k1 k2 e,
    first_failed_deployment c filesDir deployments w1 k1 e →
    first_failed_deployment c filesDir deployments w2 k2 e →
    deployments !! k1 = deployments !! k2.

(** [CopyFile] on a connected client starts by opening the local file:
    an upload of [localPath] was attempted when the log has that call. *)
Definition upload_attempted (localPath : string) (l : list Event) : Prop :=
  ∃ r, EvOpen localPath r ∈ l.

(** The reading of the pre-check under which every stat failure other
    than "does not exist" lets the step go on to its upload. *)
Definition other_stat_failure_reaches_upload (c : ssh.Client) (filesDir : string)
    (d : FileDeployment) (w : W) : Prop :=
  let localPath := pathJoin filesDir (LocalPath d) in
  (∃ e0, (sys_stat localPath w).1 = StatOtherErr e0) →
  upload_attempted localPath (evs (deployFiles_body c filesDir d w)).

(** *** Sessions *)

(** A client whose connection was never established: fresh from [New],
    or returned by a [Connect] that gave up. *)
Inductive never_established : ssh.Client → Prop :=
| ne_new privateKeyPath username w c :
    val (ssh.New privateKeyPath username w) = inr c →
    never_established c
| ne_connect c host w c' err :
    never_established c →
    val (ssh.Connect c host w) = (c', Some err) →
    never_established c'.

(** *** The requests of a build *)

Definition create_request (apiKey : string) (cfg : Config) (t0 : Z) : Request :=
  mkRequest "POST" (client.HyperstackAPIBase +:+ "/core/virtual-machines") apiKey
    (Some (BodyVMCreate (client.vmReq (with_VMName (VMName cfg +:+ "-" +:+ pretty t0) cfg)))).

Definition snapshot_request (apiKey : string) (cfg : Config) (vmID t1 : Z) : Request :=
  mkRequest "POST" (client.HyperstackAPIBase +:+ client.vm_endpoint vmID +:+ "/snapshots")
    apiKey
    (Some (BodySnapshotCreate
             (client.snapReq vmID (VMName cfg +:+ "-snapshot-" +:+ pretty t1)))).

Definition image_request (apiKey : string) (cfg : Config) (snapshotID : Z) : Request :=
  mkRequest "POST"
    (client.HyperstackAPIBase +:+ client.snapshot_endpoint snapshotID +:+ "/image") apiKey
    (Some (BodyImageCreate
             (client.imgReq (ImageName cfg +:+ "_" +:+ ImageVersion cfg)
                            (Tags cfg ++ platformLabels)))).

Definition delete_request (apiKey : string) (vmID : Z) : Request :=
  mkRequest "DELETE" (client.HyperstackAPIBase +:+ client.vm_endpoint vmID) apiKey None.

(** The instance handle [main] takes from the answer to the creation
    request, if there is one. *)
Definition created (r : Err + Response) : option VMInstance :=
  match r with
  | inl _ => None
  | inr resp =>
    match client.parseAPIResponse unmarshalVMCreateData resp with
    | inl _ => None
    | inr data => head (data_Instances data)
    end
  end.

(** The snapshot handle [CreateSnapshot] takes from an answer. *)
Definition snapshotted (r : Err + Response) : option Snapshot :=
  match r with
  | inl _ => None
  | inr resp =>
    if bool_decide (StatusCode resp ≠ 200%Z) && bool_decide (StatusCode resp ≠ 201%Z)
    then None
    else match decodeSnapshotCreateResponse resp with
         | inl _ => None
         | inr snapshotResp => Some (screate_Snapshot snapshotResp)
         end
  end.

(** The image [CreateImageFromSnapshot] takes from an answer. *)
Definition imaged (r : Err + Response) : option Image :=
  match r with
  | inl _ => None
  | inr resp =>
    match client.parseAPIResponse unmarshalImageDetailData resp with
    | inl _ => None
    | inr imageResp => Some (idetail_Image imageResp)
    end
  end.

(** The error [DeleteVM] makes of an answer, if any. *)
Definition delete_error (r : Err + Response) : option Err :=
  match r with
  | inl err => Some err
  | inr resp =>
    if bool_decide (StatusCode resp ≠ 204%Z) && bool_decide (StatusCode resp ≠ 200%Z)
    then Some ("failed to delete VM: status " +:+ pretty (StatusCode resp)
               +:+ ", body: " +:+ Body resp)
    else None
  end.

Definition delete_warning (r : Err + Response) : list Event :=
  match delete_error r with
  | Some err => [EvWarn ("Warning: Failed to delete VM: " +:+ err)]
  | None => []
  end.

Definition is_delete (e : Event) : bool :=
  match e with
  | EvHttp req _ => bool_decide (req_method req = "DELETE")
  | _ => false
  end.

(** Number of deletion requests in a call log. *)
Definition delete_count (l : list Event) : nat :=
  length (filter (λ e, is_delete e = true) l).

(** The answer to some request of the log gave [main] an instance handle. *)
Definition instance_created (l : list Event) : Prop :=
  ∃ req body r vm,
    EvHttp req r ∈ l ∧ req_body req = Some (BodyVMCreate body) ∧ created r = Some vm.

(** Deletion is requested exactly once in every build that created an
    instance. *)
Definition deletes_once_after_creation (apiKey : string) (cfg : Config) (w : W) : Prop :=
  instance_created (evs (main apiKey cfg w)) →
  delete_count (evs (main apiKey cfg w)) = 1.

(** Calls that neither read the clock nor send anything but a [GET]
    without a body. *)
Definition quiet (e : Event) : Prop :=
  match e with
  | EvNow _ => False
  | EvHttp req _ => req_method req = "GET" ∧ req_body req = None
  | _ => True
  end.

(** The shapes a build's call log can take, by the point where it ends. *)
Inductive MainTrace (apiKey : string) (cfg : Config) : Exit → list Event → Prop :=
| MT_before_snapshot t0 r0 q msg :
    Forall quiet q →
    MainTrace apiKey cfg (ExitFatal msg)
      (EvNow t0 :: EvHttp (create_request apiKey cfg t0) r0 :: q)
| MT_snapshot t0 r0 vm q1 t1 r1 q2 msg :
    created r0 = Some vm → Forall quiet q1 → Forall quiet q2 →
    MainTrace apiKey cfg (ExitFatal msg)
      (EvNow t0 :: EvHttp (create_request apiKey cfg t0) r0 :: q1
       ++ EvNow t1 :: EvHttp (snapshot_request apiKey cfg (vm_ID vm) t1) r1 :: q2)
| MT_image t0 r0 vm q1 t1 r1 snapshot q2 r2 msg :
    created r0 = Some vm → Forall quiet q1 → Forall quiet q2 →
    snapshotted r1 = Some snapshot → imaged r2 = None →
    MainTrace apiKey cfg (ExitFatal msg)
      (EvNow t0 :: EvHttp (create_request apiKey cfg t0) r0 :: q1
       ++ EvNow t1 :: EvHttp (snapshot_request apiKey cfg (vm_ID vm) t1) r1 :: q2
       ++ [EvHttp (image_request apiKey cfg (snap_ID snapshot)) r2])
| MT_done t0 r0 vm q1 t1 r1 snapshot q2 r2 image r3 :
    created r0 = Some vm → Forall quiet q1 → Forall quiet q2 →
    snapshotted r1 = Some snapshot → imaged r2 = Some image →
    MainTrace apiKey cfg ExitOK
      (EvNow t0 :: EvHttp (create_request apiKey cfg t0) r0 :: q1
       ++ EvNow t1 :: EvHttp (snapshot_request apiKey cfg (vm_ID vm) t1) r1 :: q2
       ++ EvHttp (image_request apiKey cfg (snap_ID snapshot)) r2
       :: EvHttp (delete_request apiKey (vm_ID vm)) r3 :: delete_warning r3).

(** A computation all of whose calls are quiet, from every world. *)
Definition Quiet {A : Type} (m : M W A) : Prop := ∀ w, Forall quiet (evs (m w)).

End Observations.

(** ** A concrete world

    A scripted instance of the oracles, used to run the definitions on
    explicit inputs.  The API answers the successive requests from a queue;
    response bodies are written with single quotes and decoded by table. *)

Module scenario.

Record World := mkWorld {
  clock : Z;
  replies : list (Err + Response);
  fallback : Err + Response;
  stat_of : string → StatResult;
  open_of : string → option Err;
  dial_of : string → Err + Conn;
  run_of : string → option Err
}.

Definition tick (seconds : Z) (w : World) : World :=
  mkWorld (clock w + seconds) (replies w) (fallback w) (stat_of w) (open_of w) (dial_of w)
          (run_of w).

(** The next answer of the queue, or [fallback] once the queue is empty. *)
Definition next_reply (w : World) : (Err + Response) * World :=
  match replies w with
  | [] => (fallback w, w)
  | r :: rest =>
    (r, mkWorld (clock w) rest (fallback w) (stat_of w) (open_of w) (dial_of w) (run_of w))
  end.

(** Directory and last element of a slash-separated path; agrees with
    [filepath.Dir] and [filepath.Base] on clean paths without a trailing
    slash. *)
Fixpoint split_last (s : string) : option (string * string) :=
  match s with
  | EmptyString => None
  | String c r =>
    match split_last r with
    | Some (d, b) => Some (String c d, b)
    | None => if bool_decide (String c EmptyString = "/") then Some (EmptyString, r) else None
    end
  end.

Definition dir (s : string) : string :=
  match split_last s with
  | Some (EmptyString, _) => "/"
  | Some (d, _) => d
  | None => "."
  end.

Definition base (s : string) : string :=
  match split_last s with
  | Some (_, b) => b
  | None => s
  end.

Definition join (a b : string) : string :=
  if String.prefix "/" b then a +:+ b else a +:+ "/" +:+ b.

Definition vm0 (status ip ipstatus : string) : VMInstance :=
  {| vm_ID := 7; vm_Name := "vm1-1700000000"; vm_Status := status; vm_FixedIP := "10.0.0.5";
     vm_FloatingIP := ip; vm_FloatingIPStatus := ipstatus;
     vm_Flavor := mkVMFlavor 1 "n1-A100x1"; vm_Image := mkVMImage 2 "ubuntu" |}.

Definition snap0 (status : string) : Snapshot :=
  {| snap_ID := 9; snap_Name := "vm1-snapshot-1700000100"; snap_Description := "";
     snap_VMID := 7; snap_RegionID := 2; snap_Status := status; snap_IsImage := false;
     snap_Size := 0; snap_HasFloatingIP := true; snap_CreatedAt := ""; snap_UpdatedAt := "" |}.

Definition image0 : Image :=
  {| image_ID := 11; image_Name := "kubernetes_gpu_cuda_1.0"; image_RegionName := "CANADA-1";
     image_Type := "custom"; image_Version := ""; image_Size := 0; image_IsPublic := false;
     image_Labels := [] |}.

Definition body_created : string := "{'status': true, 'instances': [{'id': 7}]}".
Definition body_building : string := "{'status': true, 'instance': {'status': 'BUILD'}}".
Definition body_active : string :=
  "{'status': true, 'instance': {'status': 'ACTIVE', 'floating_ip': '203.0.113.9', 'floating_ip_status': 'ATTACHED'}}".
Definition body_snapshot : string := "{'status': true, 'snapshot': {'id': 9}}".
Definition body_refused : string := "{'status': false, 'message': 'quota exceeded'}".
Definition body_snap_pending : string := "{'snapshot': {'id': 9, 'status': 'CREATING'}}".
Definition body_snap_success : string := "{'snapshot': {'id': 9, 'status': 'SUCCESS'}}".
Definition body_image : string := "{'status': true, 'image': {'id': 11}}".
Definition body_server_error : string := "{'message': 'internal error'}".

Definition wrapper_of (body : string) : Err + APIWrapper :=
  if bool_decide (body ∈ [body_created; body_building; body_active; body_snapshot; body_image])
  then inr (mkAPIWrapper true "")
  else if bool_decide (body = body_refused) then inr (mkAPIWrapper false "quota exceeded")
  else if bool_decide (body ∈ [body_snap_pending; body_snap_success]) then
    inr (mkAPIWrapper false "")
  else if bool_decide (body = body_server_error) then inr (mkAPIWrapper false "internal error")
  else inl "invalid character".

Definition vmcreate_of (body : string) : Err + VMCreateData :=
  if bool_decide (body = body_created) then inr (mkVMCreateData [vm0 "CREATING" "" ""])
  else inr (mkVMCreateData []).

Definition vmdetail_of (body : string) : Err + VMDetailData :=
  if bool_decide (body = body_building) then inr (mkVMDetailData (vm0 "BUILD" "" ""))
  else if bool_decide (body = body_active) then
    inr (mkVMDetailData (vm0 "ACTIVE" "203.0.113.9" "ATTACHED"))
  else inr (mkVMDetailData (vm0 "" "" "")).

Definition imagedetail_of (body : string) : Err + ImageDetailData :=
  if bool_decide (body = body_image) then inr (mkImageDetailData true "" image0)
  else inl "invalid character".

Definition snapcreate_of (r : Response) : Err + SnapshotCreateResponse :=
  if bool_decide (Body r = body_snapshot) then inr (mkSnapshotCreateResponse true "" (snap0 "CREATING"))
  else if bool_decide (Body r = body_refused) then
    inr (mkSnapshotCreateResponse false "quota exceeded"
           (mkSnapshot 0 "" "" 0 0 "" false 0 false "" ""))
  else inl "invalid character".

Definition snapdetail_of (r : Response) : Err + SnapshotDetailResponse :=
  if bool_decide (Body r = body_snap_pending) then
    inr (mkSnapshotDetailResponse 0 "" (snap0 "CREATING"))
  else if bool_decide (Body r = body_snap_success) then
    inr (mkSnapshotDetailResponse 0 "" (snap0 "SUCCESS"))
  else if bool_decide (Body r = body_server_error) then
    inr (mkSnapshotDetailResponse 0 "internal error"
           (mkSnapshot 0 "" "" 0 0 "" false 0 false "" ""))
  else inl "invalid character".

#[export] Instance world_sys : Sys World := {|
  sys_now := λ w, (clock w, w);
  sys_sleep := tick;
  sys_http := λ _ w, next_reply w;
  sys_stat := λ path w, (stat_of w path, w);
  sys_open := λ path w, (open_of w path, w);
  sys_fstat := λ _ w, (inr 1024%Z, w);
  sys_homeDir := λ w, (inr "/home/builder", w);
  sys_readFile := λ _ w, (inr "PRIVATE KEY", w);
  sys_dial := λ addr _ w, (dial_of w addr, w);
  sys_newSession := λ _ w, (inr 0, w);
  sys_run := λ _ cmd w, (run_of w cmd, w);
  sys_connClose := λ _ w, (None, w);
  pathJoin := join;
  pathDir := dir;
  pathBase := base;
  parsePrivateKey := λ key, inr key;
  unmarshalWrapper := wrapper_of;
  unmarshalVMCreateData := vmcreate_of;
  unmarshalVMDetailData := vmdetail_of;
  unmarshalImageDetailData := imagedetail_of;
  decodeSnapshotCreateResponse := snapcreate_of;
  decodeSnapshotDetailResponse := snapdetail_of
|}.

Definition ok (body : string) : Err + Response := inr (mkResponse 200 body None).

Definition cfg0 : Config :=
  {| Region := "CANADA-1"; ImageName := "kubernetes_gpu_cuda"; ImageVersion := "1.0";
     BaseImageName := "Ubuntu Server 22.04 LTS R535 CUDA 12.2 with Docker";
     VMName := "vm1"; FlavorName := "n1-A100x1"; KeypairName := "builder";
     PrivateKeyPath := "~/.ssh/id_rsa"; EnvironmentName := "default-CANADA-1";
     Tags := ["k8s"] |}.

(** Everything succeeds: the instance is ready at the third poll, the
    snapshot at the second, deletion answers 204. *)
Definition w_good : World :=
  {| clock := 1700000000;
     replies := [ ok body_created; ok body_building; ok body_building; ok body_active;
                  ok body_active; ok body_snapshot; ok body_snap_pending;
                  ok body_snap_success; ok body_image; inr (mkResponse 204 "" None) ];
     fallback := inl "connection refused";
     stat_of := λ _, StatOK;
     open_of := λ _, None;
     dial_of := λ _, inr 1;
     run_of := λ _, None |}.

(** As [w_good], but the second script exits non-zero on the host. *)
Definition w_script_fails : World :=
  {| clock := 1700000000;
     replies := replies w_good;
     fallback := inl "connection refused";
     stat_of := λ _, StatOK;
     open_of := λ _, None;
     dial_of := λ _, inr 1;
     run_of := λ cmd,
       if bool_decide (cmd = "/tmp/provisioning-scripts/install-drivers.sh")
       then Some "Process exited with status 1" else None |}.

(** As [w_good], but deleting the instance answers 500. *)
Definition w_delete_fails : World :=
  {| clock := 1700000000;
     replies := [ ok body_created; ok body_building; ok body_building; ok body_active;
                  ok body_active; ok body_snapshot; ok body_snap_pending;
                  ok body_snap_success; ok body_image;
                  inr (mkResponse 500 body_server_error None) ];
     fallback := inl "connection refused";
     stat_of := λ _, StatOK;
     open_of := λ _, None;
     dial_of := λ _, inr 1;
     run_of := λ _, None |}.

(** The API keeps answering that the instance is building, and that the
    snapshot is being created. *)
Definition w_never_ready : World :=
  {| clock := 1700000000;
     replies := [];
     fallback := ok body_building;
     stat_of := λ _, StatOK;
     open_of := λ _, None;
     dial_of := λ _, inr 1;
     run_of := λ _, None |}.

Definition w_snapshot_never_ready : World :=
  {| clock := 1700000000;
     replies := [];
     fallback := ok body_snap_pending;
     stat_of := λ _, StatOK;
     open_of := λ _, None;
     dial_of := λ _, inr 1;
     run_of := λ _, None |}.

(** The instance is ready at the third read. *)
Definition w_ready_third : World :=
  {| clock := 1700000000;
     replies := [ ok body_building; ok body_building; ok body_active ];
     fallback := inl "connection refused";
     stat_of := λ _, StatOK;
     open_of := λ _, None;
     dial_of := λ _, inr 1;
     run_of := λ _, None |}.

(** The snapshot is ready at the second read. *)
Definition w_snapshot_second : World :=
  {| clock := 1700000000;
     replies := [ ok body_snap_pending; ok body_snap_success ];
     fallback := inl "connection refused";
     stat_of := λ _, StatOK;
     open_of := λ _, None;
     dial_of := λ _, inr 1;
     run_of := λ _, None |}.

(** The second script is missing on the local disk. *)
Definition w_script_missing : World :=
  {| clock := 1700000000;
     replies := [];
     fallback := inl "connection refused";
     stat_of := λ path,
       if bool_decide (path = "../../scripts/install-drivers.sh")
       then StatNotExist "no such file or directory" else StatOK;
     open_of := λ _, None;
     dial_of := λ _, inr 1;
     run_of := λ _, None |}.

(** The configuration file to deploy is missing on the local disk. *)
Definition w_file_missing : World :=
  {| clock := 1700000000;
     replies := [];
     fallback := inl "connection refused";
     stat_of := λ path,
       if bool_decide (path = "../../files/runsc.toml")
       then StatNotExist "no such file or directory" else StatOK;
     open_of := λ _, None;
     dial_of := λ _, inr 1;
     run_of := λ _, None |}.

(** The local files cannot be examined, and the host refuses to create
    the destination directory. *)
Definition w_denied_mkdir_fails : World :=
  {| clock := 1700000000;
     replies := [];
     fallback := inl "connection refused";
     stat_of := λ _, StatOtherErr "permission denied";
     open_of := λ _, Some "permission denied";
     dial_of := λ _, inr 1;
     run_of := λ cmd,
       if bool_decide (cmd = "sudo mkdir -p /etc/containerd")
       then Some "Process exited with status 1" else None |}.

(** The local files cannot be examined nor opened; the host is fine. *)
Definition w_denied : World :=
  {| clock := 1700000000;
     replies := [];
     fallback := inl "connection refused";
     stat_of := λ _, StatOtherErr "permission denied";
     open_of := λ _, Some "permission denied";
     dial_of := λ _, inr 1;
     run_of := λ _, None |}.

(** The host never accepts a connection. *)
Definition w_unreachable : World :=
  {| clock := 1700000000;
     replies := [];
     fallback := inl "connection refused";
     stat_of := λ _, StatOK;
     open_of := λ _, None;
     dial_of := λ _, inl "dial tcp: connection refused";
     run_of := λ _, None |}.

(** The instance is ready at the first read. *)
Definition w_active : World :=
  {| clock := 1700000000;
     replies := [ ok body_active ];
     fallback := inl "connection refused";
     stat_of := λ _, StatOK;
     open_of := λ _, None;
     dial_of := λ _, inr 1;
     run_of := λ _, None |}.

(** The API answers 200 with a false flag to the next request. *)
Definition w_refused : World :=
  {| clock := 1700000000;
     replies := [ ok body_refused ];
     fallback := inl "connection refused";
     stat_of := λ _, StatOK;
     open_of := λ _, None;
     dial_of := λ _, inr 1;
     run_of := λ _, None |}.

(** The API answers 500 to every request. *)
Definition w_server_error : World :=
  {| clock := 1700000000;
     replies := [];
     fallback := inr (mkResponse 500 body_server_error None);
     stat_of := λ _, StatOK;
     open_of := λ _, None;
     dial_of := λ _, inr 1;
     run_of := λ _, None |}.

(** A store with one array of capacity three holding two tags, and the
    slice [cfg.Tags] onto it. *)
Definition heap0 : goslice.Heap := {[ 1 := ["k8s"; "gpu"; ""] ]}.
Definition tags0 : goslice.Slice := goslice.mkSlice 1 0 2 3.
Definition cfg_two_tags : Config :=
  {| Region := "CANADA-1"; ImageName := "kubernetes_gpu_cuda"; ImageVersion := "1.0";
     BaseImageName := "Ubuntu Server 22.04 LTS R535 CUDA 12.2 with Docker";
     VMName := "vm1"; FlavorName := "n1-A100x1"; KeypairName := "builder";
     PrivateKeyPath := "~/.ssh/id_rsa"; EnvironmentName := "default-CANADA-1";
     Tags := ["k8s"; "gpu"] |}.

(** A client connected over connection 1, and one just made by [New]. *)
Definition connected : ssh.Client :=
  ssh.mkClient (mkClientConfig "ubuntu" "PRIVATE KEY" 30) (Some 1).

Definition unconnected : ssh.Client :=
  ssh.mkClient (mkClientConfig "ubuntu" "PRIVATE KEY" 30) None.

Definition runsc : FileDeployment :=
  {| LocalPath := "runsc.toml"; RemotePath := "/etc/containerd/runsc.toml" |}.

(** The host refuses to create /etc/other. *)
Definition w_other_dir_refused : World :=
  {| clock := 1700000000;
     replies := [];
     fallback := inl "connection refused";
     stat_of := λ _, StatOK;
     open_of := λ _, None;
     dial_of := λ _, inr 1;
     run_of := λ cmd,
       if bool_decide (cmd = "sudo mkdir -p /etc/other")
       then Some "Process exited with status 1" else None |}.

(** The host refuses the final move of the second file. *)
Definition w_move_refused : World :=
  {| clock := 1700000000;
     replies := [];
     fallback := inl "connection refused";
     stat_of := λ _, StatOK;
     open_of := λ _, None;
     dial_of := λ _, inr 1;
     run_of := λ cmd,
       if bool_decide (cmd = "sudo mv /tmp/other.conf /etc/other/other.conf")
       then Some "Process exited with status 1" else None |}.

(** The file that the source lists commented out, and one for another
    directory. *)
Definition containerd_config : FileDeployment :=
  {| LocalPath := "containerd-hyperstack.toml";
     RemotePath := "/etc/containerd/config.toml.replacement" |}.

Definition other_conf : FileDeployment :=
  {| LocalPath := "other.conf"; RemotePath := "/etc/other/other.conf" |}.

(** A world in which the host accepts [mkdirs_left] more "sudo mkdir -p"
    commands and refuses those that follow; everything else is as in
    [inner]. *)
Record CountingWorld := mkCountingWorld {
  inner : World;
  mkdirs_left : nat
}.

Definition counting_run (cmd : string) (w : CountingWorld) : option Err * CountingWorld :=
  if String.prefix "sudo mkdir -p " cmd then
    match mkdirs_left w with
    | O => (Some "Process exited with status 1", w)
    | S n => (None, mkCountingWorld (inner w) n)
    end
  else (run_of (inner w) cmd, w).

Definition lift {A : Type} (f : World → A * World) (w : CountingWorld)
    : A * CountingWorld :=
  ((f (inner w)).1, mkCountingWorld (f (inner w)).2 (mkdirs_left w)).

Definition counting_sys : Sys CountingWorld := {|
  sys_now := lift sys_now;
  sys_sleep := λ s w, mkCountingWorld (sys_sleep s (inner w)) (mkdirs_left w);
  sys_http := λ req, lift (sys_http req);
  sys_stat := λ path, lift (sys_stat path);
  sys_open := λ path, lift (sys_open path);
  sys_fstat := λ path, lift (sys_fstat path);
  sys_homeDir := lift sys_homeDir;
  sys_readFile := λ path, lift (sys_readFile path);
  sys_dial := λ addr cfg, lift (sys_dial addr cfg);
  sys_newSession := λ conn, lift (sys_newSession conn);
  sys_run := λ _ cmd, counting_run cmd;
  sys_connClose := λ conn, lift (sys_connClose conn);
  pathJoin := join;
  pathDir := dir;
  pathBase := base;
  parsePrivateKey := λ key, inr key;
  unmarshalWrapper := wrapper_of;
  unmarshalVMCreateData := vmcreate_of;
  unmarshalVMDetailData := vmdetail_of;
  unmarshalImageDetailData := imagedetail_of;
  decodeSnapshotCreateResponse := snapcreate_of;
  decodeSnapshotDetailResponse := snapdetail_of
|}.

(** The first directory creation is refused; the first is accepted and
    the second refused. *)
Definition w_first_mkdir_refused : CountingWorld := mkCountingWorld w_good 0.
Definition w_second_mkdir_refused : CountingWorld := mkCountingWorld w_good 1.

End scenario.

(** ** Further vocabulary: sessions, pipeline and catalogue *)

Section MoreObservations.
Context {W : Type} `{Sys W}.

(** Every call of a computation satisfies [P], from every world. *)
Definition Always {A : Type} (P : Event → Prop) (m : M W A) : Prop :=
  ∀ w, Forall P (evs (m w)).

(** What [n] successive dials of [Connect], ten seconds apart, get. *)
Fixpoint dials (n : nat) (cfg : ClientConfig) (host : string) (w : W)
    : list (Err + Conn) :=
  match n with
  | O => []
  | S n' =>
    let r := sys_dial (host +:+ ":22") cfg w in
    r.1 :: dials n' cfg host (sys_sleep 10 r.2)
  end.

Definition is_dial (e : Event) : bool :=
  match e with EvDial _ _ => true | _ => false end.

Definition is_sleep (e : Event) : bool :=
  match e with EvSleep _ => true | _ => false end.

Definition is_close (e : Event) : bool :=
  match e with EvConnClose _ _ => true | _ => false end.

Definition count (f : Event → bool) (l : list Event) : nat :=
  length (filter (λ e, f e = true) l).

(** A dial that failed. *)
Definition refused (r : Err + Conn) : Prop := ∃ e, r = inl e.

(** The remote commands of a call log, in the order they were run. *)
Definition runs (l : list Event) : list string :=
  omap (λ e, match e with EvRun _ cmd _ => Some cmd | _ => None end) l.

Definition is_run (e : Event) : bool :=
  match e with EvRun _ _ _ => true | _ => false end.

(** A computation that runs the commands [cmds] in this order and stops at
    the first failure: whatever happens, the commands it ran are the first
    of [cmds], and when it returns no error it ran them all. *)
Definition RunsInOrder (m : M W (option Err)) (cmds : list string) : Prop :=
  ∀ w, runs (evs (m w)) `prefix_of` cmds
       ∧ (val (m w) = None → runs (evs (m w)) = cmds).

(** Commands of one script step and of one file deployment. *)
Definition script_commands (remoteScriptDir script : string) : list string :=
  let remotePath := pathJoin remoteScriptDir script in
  ["scp -t " +:+ remotePath; "chmod +x " +:+ remotePath; remotePath].

Definition deploy_commands (d : FileDeployment) : list string :=
  let tempPath := "/tmp/" +:+ pathBase (LocalPath d) in
  ["sudo mkdir -p " +:+ pathDir (RemotePath d);
   "scp -t " +:+ tempPath;
   "sudo mv " +:+ tempPath +:+ " " +:+ RemotePath d].

(** A call whose result is a failure that ends the pipeline step making it:
    a local source that does not exist, a file that cannot be opened or
    examined, a session that cannot be created, a command that fails. *)
Definition failed (e : Event) : bool :=
  match e with
  | EvStat _ (StatNotExist _) => true
  | EvOpen _ (Some _) => true
  | EvFileStat _ (inl _) => true
  | EvNewSession _ (inl _) => true
  | EvRun _ _ (Some _) => true
  | _ => false
  end.

(** The log of a computation that stops at the first failure: when it
    returns no error none of its calls failed; when it returns an error
    its last call failed and none before it did. *)
Definition stops_at_failure (v : option Err) (l : list Event) : Prop :=
  match v with
  | None => Forall (λ e, failed e = false) l
  | Some _ =>
    ∃ good e, l = good ++ [e] ∧ Forall (λ e, failed e = false) good ∧ failed e = true
  end.

Definition StopsAtFailure (m : M W (option Err)) : Prop :=
  ∀ w, stops_at_failure (val (m w)) (evs (m w)).

End MoreObservations.

(** ** More concrete worlds *)

Module scenario_more.
Import scenario.

(** Everything succeeds on the host except the final removal of the
    scratch directory. *)
Definition w_cleanup_fails : World :=
  {| clock := 1700000000;
     replies := [];
     fallback := inl "connection refused";
     stat_of := λ _, StatOK;
     open_of := λ _, None;
     dial_of := λ _, inr 1;
     run_of := λ cmd,
       if bool_decide (cmd = "rm -rf /tmp/provisioning-scripts")
       then Some "Process exited with status 1" else None |}.

(** The private key cannot be opened for upload. *)
Definition w_unreadable : World :=
  {| clock := 1700000000;
     replies := [];
     fallback := inl "connection refused";
     stat_of := λ _, StatOK;
     open_of := λ _, Some "permission denied";
     dial_of := λ _, inr 1;
     run_of := λ _, None |}.

End scenario_more.

(** * Statements and proofs *)

Section Facts.
Context {W : Type} `{Sys W}.

Lemma evs_bind {A B} (m : M W A) (k : A → M W B) w :
  evs (bind m k w) = evs (m w) ++ evs (k (val (m w)) (post (m w))).
Proof. reflexivity. Qed.

Lemma val_bind {A B} (m : M W A) (k : A → M W B) w :
  val (bind m k w) = val (k (val (m w)) (post (m w))).
Proof. reflexivity. Qed.

Lemma post_bind {A B} (m : M W A) (k : A → M W B) w :
  post (bind m k w) = post (k (val (m w)) (post (m w))).
Proof. reflexivity. Qed.

Lemma http_count_app l1 l2 : http_count (l1 ++ l2) = http_count l1 + http_count l2.
Proof. unfold http_count. by rewrite filter_app, length_app. Qed.

Lemma vm_ready_spec vm :
  client.vm_ready vm = true ↔
  vm_Status vm = "ACTIVE" ∧ vm_FloatingIP vm ≠ "" ∧ vm_FloatingIPStatus vm = "ATTACHED".
Proof.
  unfold client.vm_ready. rewrite !andb_true_iff, !bool_decide_eq_true. tauto.
Qed.

(** One iteration of the instance loop, by the result of its status read. *)
Lemma WaitForVMReady_loop_S n c vmID w :
  let p := poll_vm c vmID w in
  client.WaitForVMReady_loop (S n) c vmID w =
  match val p with
  | inl err => mkOut (inl err) (post p) (evs p)
  | inr vm =>
    if client.vm_ready vm then mkOut (inr (vm_FloatingIP vm)) (post p) (evs p)
    else
      let o := client.WaitForVMReady_loop n c vmID (sys_sleep 10 (post p)) in
      mkOut (val o) (post o) (evs p ++ EvSleep 10 :: evs o)
  end.
Proof.
  cbn. unfold poll_vm, bind, client.makeRequest, call, ret. cbn.
  destruct (sys_http _ w) as [[err|resp] w1]; cbn; [done|].
  destruct (client.parseAPIResponse _ resp) as [err|data]; cbn; [done|].
  destruct (client.vm_ready _); cbn; done.
Qed.

Lemma WaitForSnapshotReady_loop_S n c snapshotID w :
  let p := poll_snapshot c snapshotID w in
  client.WaitForSnapshotReady_loop (S n) c snapshotID w =
  match val p with
  | inl err => mkOut (Some err) (post p) (evs p)
  | inr s =>
    if client.snapshot_ready s then mkOut None (post p) (evs p)
    else
      let o := client.WaitForSnapshotReady_loop n c snapshotID (sys_sleep 10 (post p)) in
      mkOut (val o) (post o) (evs p ++ EvSleep 10 :: evs o)
  end.
Proof.
  cbn. unfold poll_snapshot, bind, client.makeRequest, call, ret. cbn.
  destruct (sys_http _ w) as [[err|resp] w1]; cbn; [done|].
  destruct (decodeSnapshotDetailResponse resp) as [err|data]; cbn; [done|].
  destruct (client.snapshot_ready _); cbn; done.
Qed.

Lemma poll_vm_http_count c vmID w : http_count (evs (poll_vm c vmID w)) = 1.
Proof. reflexivity. Qed.

Lemma poll_snapshot_http_count c snapshotID w :
  http_count (evs (poll_snapshot c snapshotID w)) = 1.
Proof. reflexivity. Qed.

Local Opaque poll_vm poll_snapshot.

(** The predicate holds on none of the [n] reads: timeout after [n] requests. *)
Lemma WaitForVMReady_loop_exhausted n c vmID w :
  Forall (pending client.vm_ready) (vm_polls n c vmID w) →
  val (client.WaitForVMReady_loop n c vmID w)
    = inl "VM did not become ready with floating IP within timeout"
  ∧ http_count (evs (client.WaitForVMReady_loop n c vmID w)) = n.
Proof.
  revert w. induction n as [|n IH]; intros w Hall; [done|].
  cbn [vm_polls] in Hall. apply Forall_cons in Hall as [(vm & Hv & Hr) Hall].
  rewrite WaitForVMReady_loop_S. cbn zeta. rewrite Hv, Hr. cbn [val evs].
  destruct (IH _ Hall) as [-> Hc]. split; [done|].
  rewrite http_count_app, poll_vm_http_count.
  change (EvSleep 10 :: ?l) with ([EvSleep 10] ++ l). rewrite http_count_app, Hc. done.
Qed.

(** The read of index [k] is the first on which the predicate holds:
    success there, after [k + 1] requests. *)
Lemma WaitForVMReady_loop_first n c vmID w k vm :
  vm_polls n c vmID w !! k = Some (inr vm) →
  client.vm_ready vm = true →
  Forall (pending client.vm_ready) (take k (vm_polls n c vmID w)) →
  val (client.WaitForVMReady_loop n c vmID w) = inr (vm_FloatingIP vm)
  ∧ http_count (evs (client.WaitForVMReady_loop n c vmID w)) = S k.
Proof.
  revert n w. induction k as [|k IH]; intros [|n] w Hk Hr Hall; try done.
  - cbn in Hk. rewrite WaitForVMReady_loop_S. cbn zeta.
    injection Hk as Hk. rewrite Hk, Hr. done.
  - cbn [vm_polls] in Hk, Hall. cbn [take] in Hall.
    apply Forall_cons in Hall as [(vm' & Hv & Hr') Hall].
    rewrite WaitForVMReady_loop_S. cbn zeta. rewrite Hv, Hr'. cbn [val evs].
    destruct (IH _ _ Hk Hr Hall) as [-> Hc]. split; [done|].
    rewrite http_count_app, poll_vm_http_count.
    change (EvSleep 10 :: ?l) with ([EvSleep 10] ++ l). rewrite http_count_app, Hc. done.
Qed.

Lemma WaitForSnapshotReady_loop_exhausted n c snapshotID w :
  Forall (pending client.snapshot_ready) (snapshot_polls n c snapshotID w) →
  val (client.WaitForSnapshotReady_loop n c snapshotID w)
    = Some "snapshot did not become ready within timeout"
  ∧ http_count (evs (client.WaitForSnapshotReady_loop n c snapshotID w)) = n.
Proof.
  revert w. induction n as [|n IH]; intros w Hall; [done|].
  cbn [snapshot_polls] in Hall. apply Forall_cons in Hall as [(s & Hv & Hr) Hall].
  rewrite WaitForSnapshotReady_loop_S. cbn zeta. rewrite Hv, Hr. cbn [val evs].
  destruct (IH _ Hall) as [-> Hc]. split; [done|].
  rewrite http_count_app, poll_snapshot_http_count.
  change (EvSleep 10 :: ?l) with ([EvSleep 10] ++ l). rewrite http_count_app, Hc. done.
Qed.

Lemma WaitForSnapshotReady_loop_first n c snapshotID w k s :
  snapshot_polls n c snapshotID w !! k = Some (inr s) →
  client.snapshot_ready s = true →
  Forall (pending client.snapshot_ready) (take k (snapshot_polls n c snapshotID w)) →
  val (client.WaitForSnapshotReady_loop n c snapshotID w) = None
  ∧ http_count (evs (client.WaitForSnapshotReady_loop n c snapshotID w)) = S k.
Proof.
  revert n w. induction k as [|k IH]; intros [|n] w Hk Hr Hall; try done.
  - cbn in Hk. rewrite WaitForSnapshotReady_loop_S. cbn zeta.
    injection Hk as Hk. rewrite Hk, Hr. done.
  - cbn [snapshot_polls] in Hk, Hall. cbn [take] in Hall.
    apply Forall_cons in Hall as [(s' & Hv & Hr') Hall].
    rewrite WaitForSnapshotReady_loop_S. cbn zeta. rewrite Hv, Hr'. cbn [val evs].
    destruct (IH _ _ Hk Hr Hall) as [-> Hc]. split; [done|].
    rewrite http_count_app, poll_snapshot_http_count.
    change (EvSleep 10 :: ?l) with ([EvSleep 10] ++ l). rewrite http_count_app, Hc. done.
Qed.

(** C3.  For an iteration of the instance-readiness loop whose status read
    returned the state [vm]: the loop returns success with the floating
    address on that very read (its call log is the read alone) if and only
    if the status is "ACTIVE", the floating address is not empty and the
    attachment state is "ATTACHED"; when one of the three fails, the loop
    sleeps ten seconds and goes on with the remaining iterations. *)
Theorem C3_instance_ready_iff n c vmID w vm :
  val (poll_vm c vmID w) = inr vm →
  let p := poll_vm c vmID w in
  let o := client.WaitForVMReady_loop (S n) c vmID w in
  let rest := client.WaitForVMReady_loop n c vmID (sys_sleep 10 (post p)) in
  let ready := vm_Status vm = "ACTIVE" ∧ vm_FloatingIP vm ≠ ""
               ∧ vm_FloatingIPStatus vm = "ATTACHED" in
  ((val o = inr (vm_FloatingIP vm) ∧ evs o = evs p ∧ post o = post p) ↔ ready)
  ∧ (¬ ready →
     val o = val rest ∧ post o = post rest ∧ evs o = evs p ++ EvSleep 10 :: evs rest).
Proof.
  intros Hv p o rest ready. subst o rest p. rewrite WaitForVMReady_loop_S. cbn zeta.
  rewrite Hv.
  pose proof (vm_ready_spec vm) as Hspec. fold ready in Hspec.
  destruct (client.vm_ready vm); cbn [val post evs].
  - split; [|intros Hn; destruct Hn; by apply Hspec].
    split; [intros _; by apply Hspec | done].
  - assert (¬ ready) as Hn by (intros Hr; apply Hspec in Hr; done).
    split; [|done]. split; [|done].
    intros (_ & He & _). exfalso.
    apply (f_equal length) in He. rewrite length_app in He. cbn in He. lia.
Qed.

Local Transparent poll_vm poll_snapshot.

(** *** Loops over steps *)

Lemma for_range_all {A} (body : A → M W (option Err)) xs w :
  Forall (eq None) (outcomes body xs w) →
  val (for_range body xs w) = None
  ∧ evs (for_range body xs w) = each body xs w
  ∧ post (for_range body xs w) = after body xs w.
Proof.
  revert w. induction xs as [|x xs IH]; intros w Hall; [done|].
  cbn [outcomes] in Hall. apply Forall_cons in Hall as [Hx Hall].
  cbn [for_range each after]. unfold bind. cbn zeta. rewrite <- Hx. cbn [val post evs].
  destruct (IH _ Hall) as (-> & -> & ->). done.
Qed.

Lemma for_range_first {A} (body : A → M W (option Err)) xs w k e :
  outcomes body xs w !! k = Some (Some e) →
  Forall (eq None) (take k (outcomes body xs w)) →
  val (for_range body xs w) = Some e
  ∧ evs (for_range body xs w) = each body (take (S k) xs) w
  ∧ post (for_range body xs w) = after body (take (S k) xs) w.
Proof.
  revert xs w. induction k as [|k IH]; intros [|x xs] w Hk Hall; try done.
  - cbn [outcomes] in Hk. injection Hk as Hk.
    cbn [for_range take each after]. unfold bind. cbn zeta. rewrite Hk. cbn.
    by rewrite !app_nil_r.
  - cbn [outcomes] in Hk, Hall. cbn [take] in Hall.
    apply Forall_cons in Hall as [Hx Hall].
    cbn [for_range take each after]. unfold bind. cbn zeta. rewrite <- Hx. cbn [val post evs].
    destruct (IH _ _ Hk Hall) as (-> & -> & ->). done.
Qed.

Lemma outcomes_lookup_lt {A} (body : A → M W (option Err)) xs w k r :
  outcomes body xs w !! k = Some r → ∃ x, xs !! k = Some x.
Proof.
  revert xs w. induction k as [|k IH]; intros [|x xs] w Hk; try done; [by eexists|].
  cbn [outcomes] in Hk. by apply (IH _ _ Hk).
Qed.

(** The outcome of index [k] is that of the body of the [k]-th element,
    run in the world the earlier bodies leave. *)
Lemma outcomes_lookup {A} (body : A → M W (option Err)) xs w k x :
  xs !! k = Some x →
  outcomes body xs w !! k = Some (val (body x (after body (take k xs) w))).
Proof.
  revert xs w. induction k as [|k IH]; intros [|y xs] w Hk; try done.
  - by injection Hk as ->.
  - cbn [outcomes take after]. by apply IH.
Qed.

Lemma each_snoc {A} (body : A → M W (option Err)) xs x w :
  each body (xs ++ [x]) w = each body xs w ++ evs (body x (after body xs w)).
Proof.
  revert w. induction xs as [|y xs IH]; intros w; cbn [each after app].
  - by rewrite app_nil_r.
  - by rewrite IH, app_assoc.
Qed.

(** *** Steps of the pipeline *)

Lemma executeScripts_body_error c sdir rdir script w e :
  val (executeScripts_body c sdir rdir script w) = Some e → script_error sdir script e.
Proof.
  unfold executeScripts_body, bind, call. cbn zeta. cbn [val post evs].
  destruct (sys_stat _ w).1.
  2: { cbn. intros [= <-]. by left. }
  all: destruct (val (ssh.CopyFile _ _ _ _)) as [err|];
    [cbn; intros [= <-]; right; left; by eexists|];
    destruct (val (ssh.ExecuteScript _ _ _)) as [err|];
    [cbn; intros [= <-]; right; right; by eexists | done].
Qed.

Lemma deployFiles_body_error c fdir d w e :
  val (deployFiles_body c fdir d w) = Some e → deploy_error fdir d e.
Proof.
  unfold deployFiles_body, bind, call. cbn zeta. cbn [val post evs].
  destruct (sys_stat _ w).1.
  2: { cbn. intros [= <-]. by left. }
  all: destruct (val (ssh.ExecuteCommand _ _ _)) as [err|];
    [cbn; intros [= <-]; right; left; by eexists|];
    destruct (val (ssh.CopyFile _ _ _ _)) as [err|];
    [cbn; intros [= <-]; right; right; left; by eexists|];
    destruct (val (ssh.ExecuteCommand _ _ _)) as [err|];
    [cbn; intros [= <-]; right; right; right; by eexists | done].
Qed.

Lemma executeScripts_body_missing c sdir rdir script w e0 :
  (sys_stat (pathJoin sdir script) w).1 = StatNotExist e0 →
  executeScripts_body c sdir rdir script w
  = mkOut (Some ("local script not found: " +:+ pathJoin sdir script))
          (sys_stat (pathJoin sdir script) w).2
          [EvStat (pathJoin sdir script) (StatNotExist e0)].
Proof.
  intros Hst. unfold executeScripts_body, bind, call. cbn zeta. cbn [val post evs].
  rewrite Hst. done.
Qed.

Lemma deployFiles_body_missing c fdir d w e0 :
  (sys_stat (pathJoin fdir (LocalPath d)) w).1 = StatNotExist e0 →
  deployFiles_body c fdir d w
  = mkOut (Some ("local file not found: " +:+ pathJoin fdir (LocalPath d)))
          (sys_stat (pathJoin fdir (LocalPath d)) w).2
          [EvStat (pathJoin fdir (LocalPath d)) (StatNotExist e0)].
Proof.
  intros Hst. unfold deployFiles_body, bind, call. cbn zeta. cbn [val post evs].
  rewrite Hst. done.
Qed.


Lemma executeScripts_unfold c scripts sdir rdir w :
  let m := ssh.ExecuteCommand c ("mkdir -p " +:+ rdir) w in
  val m = None →
  let l := for_range (executeScripts_body c sdir rdir) scripts (post m) in
  executeScripts c scripts sdir rdir w = mkOut (val l) (post l) (evs m ++ evs l).
Proof.
  intros m Hm l. unfold executeScripts, bind. cbn zeta. fold m. rewrite Hm. done.
Qed.

Lemma executeScripts_body_cause c sdir rdir script w e :
  let st := sys_stat (pathJoin sdir script) w in
  let cp := ssh.CopyFile c (pathJoin sdir script) (pathJoin rdir script) st.2 in
  let ex := ssh.ExecuteScript c (pathJoin rdir script) (post cp) in
  val (executeScripts_body c sdir rdir script w) = Some e →
  ((∃ x, st.1 = StatNotExist x) ∧ e = "local script not found: " +:+ pathJoin sdir script)
  ∨ ((∀ x, st.1 ≠ StatNotExist x)
     ∧ ∃ cause, val cp = Some cause
                ∧ e = "failed to copy script " +:+ script +:+ ": " +:+ cause)
  ∨ ((∀ x, st.1 ≠ StatNotExist x) ∧ val cp = None
     ∧ ∃ cause, val ex = Some cause
                ∧ e = "failed to execute script " +:+ script +:+ ": " +:+ cause).
Proof.
  cbn zeta. unfold executeScripts_body, bind, call. cbn zeta. cbn [val post evs].
  destruct (sys_stat (pathJoin sdir script) w) as [st w1]. cbn [fst snd].
  destruct st as [|x|x].
  2: { cbn. intros [= <-]. left. split; [by eexists | done]. }
  all: destruct (val (ssh.CopyFile _ _ _ w1)) as [err|];
    [cbn; intros [= <-]; right; left; split; [done | by eexists]|];
    destruct (val (ssh.ExecuteScript _ _ _)) as [err|];
    [cbn; intros [= <-]; right; right; split; [done|]; split; [done | by eexists]
    | done].
Qed.

Lemma deployFiles_body_cause c fdir d w e :
  let st := sys_stat (pathJoin fdir (LocalPath d)) w in
  let mk := ssh.ExecuteCommand c ("sudo mkdir -p " +:+ pathDir (RemotePath d)) st.2 in
  let cp := ssh.CopyFile c (pathJoin fdir (LocalPath d))
              ("/tmp/" +:+ pathBase (LocalPath d)) (post mk) in
  let mv := ssh.ExecuteCommand c
              ("sudo mv " +:+ ("/tmp/" +:+ pathBase (LocalPath d)) +:+ " " +:+ RemotePath d)
              (post cp) in
  val (deployFiles_body c fdir d w) = Some e →
  ((∃ x, st.1 = StatNotExist x)
   ∧ e = "local file not found: " +:+ pathJoin fdir (LocalPath d))
  ∨ ((∀ x, st.1 ≠ StatNotExist x)
     ∧ ∃ cause, val mk = Some cause
                ∧ e = "failed to create remote directory " +:+ pathDir (RemotePath d)
                      +:+ ": " +:+ cause)
  ∨ ((∀ x, st.1 ≠ StatNotExist x) ∧ val mk = None
     ∧ ∃ cause, val cp = Some cause
                ∧ e = "failed to copy file " +:+ LocalPath d +:+ ": " +:+ cause)
  ∨ ((∀ x, st.1 ≠ StatNotExist x) ∧ val mk = None ∧ val cp = None
     ∧ ∃ cause, val mv = Some cause
                ∧ e = "failed to move file to " +:+ RemotePath d +:+ ": " +:+ cause).
Proof.
  cbn zeta. unfold deployFiles_body, bind, call. cbn zeta. cbn [val post evs].
  destruct (sys_stat (pathJoin fdir (LocalPath d)) w) as [st w1]. cbn [fst snd].
  destruct st as [|x|x].
  2: { cbn. intros [= <-]. left. split; [by eexists | done]. }
  all: destruct (val (ssh.ExecuteCommand _ _ w1)) as [err|];
    [cbn; intros [= <-]; right; left; split; [done | by eexists]|];
    destruct (val (ssh.CopyFile _ _ _ _)) as [err|];
    [cbn; intros [= <-]; right; right; left; split; [done|]; split; [done | by eexists]|];
    destruct (val (ssh.ExecuteCommand _ _ _)) as [err|];
    [cbn; intros [= <-]; right; right; right; split; [done|]; split; [done|];
     split; [done | by eexists]
    | done].
Qed.

(** C4 (as amended).  The pipeline applies its steps in the declared order
    and stops at the first that fails.  For scripts and for file
    deployments alike: when the step of index [k] is the first to return an
    error [e], the loop returns [e], its call log is that of the steps of
    index 0 to [k] in order and nothing of a later step, and [e] carries
    the script's name or local path, or the deployment's local path or
    destination; when the creation of a deployment's destination directory
    fails, [e] carries the directory of the destination only.  In the whole
    pipeline, scripts come first: when a script fails no deployment is
    started and the error is that of the script; when the scripts succeed
    and a deployment fails, the error is that of the deployment.  Which
    text a failing step returns is fixed by the first of its calls that
    fails: the stat of the local source, the upload, the execution; for a
    deployment the stat, the directory creation, the upload, the move. *)
Theorem C4_halts_at_first_failing_step :
  (∀ c scripts sdir rdir w k e,
     let m := ssh.ExecuteCommand c ("mkdir -p " +:+ rdir) w in
     let body := executeScripts_body c sdir rdir in
     let o := executeScripts c scripts sdir rdir w in
     val m = None →
     outcomes body scripts (post m) !! k = Some (Some e) →
     Forall (eq None) (take k (outcomes body scripts (post m))) →
     val o = Some e
     ∧ evs o = evs m ++ each body (take (S k) scripts) (post m)
     ∧ ∃ script, scripts !! k = Some script ∧ script_error sdir script e)
  ∧ (∀ c deployments fdir w k e,
     let body := deployFiles_body c fdir in
     let o := deployFiles c deployments fdir w in
     outcomes body deployments w !! k = Some (Some e) →
     Forall (eq None) (take k (outcomes body deployments w)) →
     val o = Some e
     ∧ evs o = each body (take (S k) deployments) w
     ∧ ∃ d, deployments !! k = Some d ∧ deploy_error fdir d e)
  ∧ (∀ scripts deployments vmIP privateKeyPath w c0,
     let n := ssh.New privateKeyPath "ubuntu" w in
     let cn := ssh.Connect c0 vmIP (post n) in
     let c := (val cn).1 in
     let s := executeScripts c scripts scriptDir remoteScriptDir (post cn) in
     let d := deployFiles c deployments filesDir (post s) in
     let o := executeProvisioningScripts_with scripts deployments vmIP privateKeyPath w in
     val n = inr c0 → (val cn).2 = None →
     (∀ e, val s = Some e →
        val o = Some ("failed to execute scripts: " +:+ e)
        ∧ evs o = evs n ++ evs cn ++ evs s ++ evs (ssh.Close c (post s)))
     ∧ (∀ e, val s = None → val d = Some e →
        val o = Some ("failed to deploy files: " +:+ e)
        ∧ evs o = evs n ++ evs cn ++ evs s ++ evs d ++ evs (ssh.Close c (post d))))
  ∧ (∀ c sdir rdir script w e,
     let st := sys_stat (pathJoin sdir script) w in
     let cp := ssh.CopyFile c (pathJoin sdir script) (pathJoin rdir script) st.2 in
     let ex := ssh.ExecuteScript c (pathJoin rdir script) (post cp) in
     val (executeScripts_body c sdir rdir script w) = Some e →
     ((∃ x, st.1 = StatNotExist x)
      ∧ e = "local script not found: " +:+ pathJoin sdir script)
     ∨ ((∀ x, st.1 ≠ StatNotExist x)
        ∧ ∃ cause, val cp = Some cause
                   ∧ e = "failed to copy script " +:+ script +:+ ": " +:+ cause)
     ∨ ((∀ x, st.1 ≠ StatNotExist x) ∧ val cp = None
        ∧ ∃ cause, val ex = Some cause
                   ∧ e = "failed to execute script " +:+ script +:+ ": " +:+ cause))
  ∧ (∀ c fdir d w e,
     let st := sys_stat (pathJoin fdir (LocalPath d)) w in
     let mk := ssh.ExecuteCommand c ("sudo mkdir -p " +:+ pathDir (RemotePath d)) st.2 in
     let cp := ssh.CopyFile c (pathJoin fdir (LocalPath d))
                 ("/tmp/" +:+ pathBase (LocalPath d)) (post mk) in
     let mv := ssh.ExecuteCommand c
                 ("sudo mv " +:+ ("/tmp/" +:+ pathBase (LocalPath d)) +:+ " "
                  +:+ RemotePath d) (post cp) in
     val (deployFiles_body c fdir d w) = Some e →
     ((∃ x, st.1 = StatNotExist x)
      ∧ e = "local file not found: " +:+ pathJoin fdir (LocalPath d))
     ∨ ((∀ x, st.1 ≠ StatNotExist x)
        ∧ ∃ cause, val mk = Some cause
                   ∧ e = "failed to create remote directory " +:+ pathDir (RemotePath d)
                         +:+ ": " +:+ cause)
     ∨ ((∀ x, st.1 ≠ StatNotExist x) ∧ val mk = None
        ∧ ∃ cause, val cp = Some cause
                   ∧ e = "failed to copy file " +:+ LocalPath d +:+ ": " +:+ cause)
     ∨ ((∀ x, st.1 ≠ StatNotExist x) ∧ val mk = None ∧ val cp = None
        ∧ ∃ cause, val mv = Some cause
                   ∧ e = "failed to move file to " +:+ RemotePath d +:+ ": " +:+ cause)).
Proof.
  split; [|split; [|split; [|split]]].
  4: { intros c sdir rdir script w e. apply executeScripts_body_cause. }
  4: { intros c fdir d w e. apply deployFiles_body_cause. }
  - intros c scripts sdir rdir w k e m body o Hm Hk Hall. subst o.
    rewrite executeScripts_unfold by done. cbn zeta. cbn [val evs]. fold m body.
    destruct (for_range_first body scripts (post m) k e Hk Hall) as (-> & -> & _).
    split; [done|]. split; [done|].
    destruct (outcomes_lookup_lt _ _ _ _ _ Hk) as [script Hs]. exists script.
    split; [done|]. rewrite (outcomes_lookup _ _ _ _ _ Hs) in Hk. apply (inj Some) in Hk.
    by eapply executeScripts_body_error.
  - intros c deployments fdir w k e body o Hk Hall. subst o. unfold deployFiles. fold body.
    destruct (for_range_first body deployments w k e Hk Hall) as (-> & -> & _).
    split; [done|]. split; [done|].
    destruct (outcomes_lookup_lt _ _ _ _ _ Hk) as [d Hd]. exists d.
    split; [done|]. rewrite (outcomes_lookup _ _ _ _ _ Hd) in Hk. apply (inj Some) in Hk.
    by eapply deployFiles_body_error.
  - intros scripts deployments vmIP key w c0 n cn c s d o Hn Hcn. subst o d s c cn n.
    unfold executeProvisioningScripts_with.
    rewrite !val_bind, !evs_bind.
    destruct (ssh.New key "ubuntu" w) as [vn pn en]. cbn [val post evs] in *. subst vn.
    rewrite !val_bind, !evs_bind.
    destruct (ssh.Connect c0 vmIP pn) as [[c' ce] pc ec]. cbn [val post evs fst snd] in *.
    subst ce. rewrite !val_bind, !evs_bind.
    destruct (executeScripts c' scripts scriptDir remoteScriptDir pc) as [vs ps es].
    cbn [val post evs]. split.
    + intros e ->. rewrite !val_bind, !evs_bind. cbn [ret val evs]. by rewrite app_nil_r.
    + intros e -> Hd. rewrite !val_bind, !evs_bind.
      destruct (deployFiles c' deployments filesDir ps) as [vd pd ed].
      cbn [val post evs] in *. subst vd.
      rewrite !val_bind, !evs_bind. cbn [ret val evs]. by rewrite app_nil_r.
Qed.

(** C5.  When the stat of a step's local source reports that it does not
    exist, the step returns the error "local script not found" or "local
    file not found" followed by the missing path, and the only call it made
    is that stat: no network call, and in particular no upload and no
    remote command.  Inside the loops: when that step is reached, the log
    holds the calls of the earlier steps, then the stat, and nothing more. *)
Theorem C5_missing_source_detected_before_network (c : ssh.Client) :
  (∀ sdir rdir script w e0,
     let o := executeScripts_body c sdir rdir script w in
     (sys_stat (pathJoin sdir script) w).1 = StatNotExist e0 →
     val o = Some ("local script not found: " +:+ pathJoin sdir script)
     ∧ evs o = [EvStat (pathJoin sdir script) (StatNotExist e0)]
     ∧ Forall (λ e, is_remote e = false) (evs o))
  ∧ (∀ fdir d w e0,
     let o := deployFiles_body c fdir d w in
     (sys_stat (pathJoin fdir (LocalPath d)) w).1 = StatNotExist e0 →
     val o = Some ("local file not found: " +:+ pathJoin fdir (LocalPath d))
     ∧ evs o = [EvStat (pathJoin fdir (LocalPath d)) (StatNotExist e0)]
     ∧ Forall (λ e, is_remote e = false) (evs o))
  ∧ (∀ scripts sdir rdir w k script e0,
     let m := ssh.ExecuteCommand c ("mkdir -p " +:+ rdir) w in
     let body := executeScripts_body c sdir rdir in
     let o := executeScripts c scripts sdir rdir w in
     val m = None →
     scripts !! k = Some script →
     Forall (eq None) (take k (outcomes body scripts (post m))) →
     (sys_stat (pathJoin sdir script) (after body (take k scripts) (post m))).1
       = StatNotExist e0 →
     val o = Some ("local script not found: " +:+ pathJoin sdir script)
     ∧ evs o = evs m ++ each body (take k scripts) (post m)
               ++ [EvStat (pathJoin sdir script) (StatNotExist e0)])
  ∧ (∀ deployments fdir w k d e0,
     let body := deployFiles_body c fdir in
     let o := deployFiles c deployments fdir w in
     deployments !! k = Some d →
     Forall (eq None) (take k (outcomes body deployments w)) →
     (sys_stat (pathJoin fdir (LocalPath d)) (after body (take k deployments) w)).1
       = StatNotExist e0 →
     val o = Some ("local file not found: " +:+ pathJoin fdir (LocalPath d))
     ∧ evs o = each body (take k deployments) w
               ++ [EvStat (pathJoin fdir (LocalPath d)) (StatNotExist e0)]).
Proof.
  split; [|split; [|split]].
  - intros sdir rdir script w e0 o Hst. subst o.
    rewrite (executeScripts_body_missing _ _ _ _ _ _ Hst). cbn [val evs].
    repeat split. by apply Forall_singleton.
  - intros fdir d w e0 o Hst. subst o.
    rewrite (deployFiles_body_missing _ _ _ _ _ Hst). cbn [val evs].
    repeat split. by apply Forall_singleton.
  - intros scripts sdir rdir w k script e0 m body o Hm Hs Hall Hst. subst o.
    rewrite executeScripts_unfold by done. cbn zeta. cbn [val evs]. fold m body.
    pose proof (outcomes_lookup body _ (post m) _ _ Hs) as Hk.
    unfold body in Hk at 2. rewrite (executeScripts_body_missing _ _ _ _ _ _ Hst) in Hk.
    cbn [val] in Hk.
    destruct (for_range_first body scripts (post m) k _ Hk Hall) as (-> & -> & _).
    split; [done|]. f_equal. rewrite (take_S_r _ _ _ Hs), each_snoc. f_equal.
    unfold body at 1. by rewrite (executeScripts_body_missing _ _ _ _ _ _ Hst).
  - intros deployments fdir w k d e0 body o Hd Hall Hst. subst o. unfold deployFiles.
    fold body.
    pose proof (outcomes_lookup body _ w _ _ Hd) as Hk.
    unfold body in Hk at 2. rewrite (deployFiles_body_missing _ _ _ _ _ Hst) in Hk.
    cbn [val] in Hk.
    destruct (for_range_first body deployments w k _ Hk Hall) as (-> & -> & _).
    split; [done|]. rewrite (take_S_r _ _ _ Hd), each_snoc. f_equal.
    unfold body at 1. by rewrite (deployFiles_body_missing _ _ _ _ _ Hst).
Qed.


(** *** Sessions that never connected *)

Lemma New_client_nil privateKeyPath username w c :
  val (ssh.New privateKeyPath username w) = inr c → ssh.client c = None.
Proof.
  unfold ssh.New, bind, call. cbn zeta. cbn [val post evs].
  destruct (String.prefix "~" privateKeyPath); cbn [val post evs];
    repeat case_match; cbn; try done; by intros [= <-].
Qed.

Lemma Connect_loop_gave_up n c host last w c' err :
  ssh.client c = None →
  val (ssh.Connect_loop n c host last w) = (c', Some err) →
  ssh.client c' = None.
Proof.
  revert c last w. induction n as [|n IH]; intros c last w Hc.
  - cbn. by intros [= <- _].
  - cbn [ssh.Connect_loop]. unfold bind, call, ssh.sleep. cbn zeta. cbn [val post evs].
    destruct (sys_dial _ _ w).1 as [e|conn]; cbn [val post evs]; [|done].
    by apply IH.
Qed.

Lemma never_established_nil c : never_established c → ssh.client c = None.
Proof.
  induction 1 as [key user w c Hnew | c host w c' err _ IH Hconn].
  - by eapply New_client_nil.
  - by eapply Connect_loop_gave_up.
Qed.

(** C9.  On a client whose connection was never established (fresh from
    [New], or left by a [Connect] that gave up): [Close] returns no error,
    [ExecuteCommand] and [CopyFile] return "SSH connection not established";
    none of the three makes any call or changes the world. *)
Theorem C9_never_established_is_safe (c : ssh.Client) :
  never_established c →
  (∀ w, ssh.Close c w = mkOut None w [])
  ∧ (∀ command w,
       ssh.ExecuteCommand c command w = mkOut (Some "SSH connection not established") w [])
  ∧ (∀ localPath remotePath w,
       ssh.CopyFile c localPath remotePath w
       = mkOut (Some "SSH connection not established") w []).
Proof.
  intros Hc. apply never_established_nil in Hc.
  unfold ssh.Close, ssh.ExecuteCommand, ssh.CopyFile. rewrite Hc. done.
Qed.

(** *** The pre-check and what follows it *)

Lemma CopyFile_opens c conn localPath remotePath w :
  ssh.client c = Some conn →
  ∃ r tail, evs (ssh.CopyFile c localPath remotePath w) = EvOpen localPath r :: tail.
Proof.
  intros Hc. unfold ssh.CopyFile. rewrite Hc. unfold bind, call. cbn. by eexists _, _.
Qed.

Lemma ExecuteCommand_no_open c command w localPath r :
  EvOpen localPath r ∉ evs (ssh.ExecuteCommand c command w).
Proof.
  unfold ssh.ExecuteCommand. destruct (ssh.client c); [|cbn; apply not_elem_of_nil].
  unfold bind, call. cbn zeta. cbn [val post evs].
  destruct (sys_newSession _ w).1; cbn [val post evs].
  - rewrite app_nil_r. by intros ?%list_elem_of_singleton.
  - destruct (sys_run _ _ _).1; cbn [val post evs]; rewrite app_nil_r;
      intros [?|?%list_elem_of_singleton]%elem_of_cons; done.
Qed.

(** C10 (as amended).  On a connected client, a step fails its pre-check
    with "not found" exactly when the stat reports that the path does not
    exist.  For any other result of the stat the check passes.  A script
    step then starts the upload at once, and an upload error is returned as
    "failed to copy script".  A file deployment first runs the remote
    "sudo mkdir -p"; if that fails the step ends with "failed to create
    remote directory" and no upload is attempted; if it succeeds the upload
    is started, and an upload error is returned as "failed to copy file". *)
Theorem C10_precheck_catches_only_not_exist (c : ssh.Client) (conn : Conn) :
  ssh.client c = Some conn →
  (∀ sdir rdir script w,
     let p := pathJoin sdir script in
     let st := sys_stat p w in
     let cp := ssh.CopyFile c p (pathJoin rdir script) st.2 in
     let o := executeScripts_body c sdir rdir script w in
     (val o = Some ("local script not found: " +:+ p) ↔ ∃ e0, st.1 = StatNotExist e0)
     ∧ ((∀ e0, st.1 ≠ StatNotExist e0) →
        upload_attempted p (evs o)
        ∧ (∃ tail, evs o = EvStat p st.1 :: evs cp ++ tail)
        ∧ (∀ err, val cp = Some err →
             val o = Some ("failed to copy script " +:+ script +:+ ": " +:+ err)
             ∧ evs o = EvStat p st.1 :: evs cp)))
  ∧ (∀ fdir d w,
     let p := pathJoin fdir (LocalPath d) in
     let st := sys_stat p w in
     let mk := ssh.ExecuteCommand c ("sudo mkdir -p " +:+ pathDir (RemotePath d)) st.2 in
     let cp := ssh.CopyFile c p ("/tmp/" +:+ pathBase (LocalPath d)) (post mk) in
     let o := deployFiles_body c fdir d w in
     (val o = Some ("local file not found: " +:+ p) ↔ ∃ e0, st.1 = StatNotExist e0)
     ∧ ((∀ e0, st.1 ≠ StatNotExist e0) →
        (∃ tail, evs o = EvStat p st.1 :: evs mk ++ tail)
        ∧ (∀ err, val mk = Some err →
             val o = Some ("failed to create remote directory "
                           +:+ pathDir (RemotePath d) +:+ ": " +:+ err)
             ∧ evs o = EvStat p st.1 :: evs mk
             ∧ ¬ upload_attempted p (evs o))
        ∧ (val mk = None →
             upload_attempted p (evs o)
             ∧ (∃ tail, evs o = EvStat p st.1 :: evs mk ++ evs cp ++ tail)
             ∧ (∀ err, val cp = Some err →
                  val o = Some ("failed to copy file " +:+ LocalPath d +:+ ": " +:+ err)
                  ∧ evs o = EvStat p st.1 :: evs mk ++ evs cp)))).
Proof.
  intros Hc. split.
  - intros sdir rdir script w p st cp o.
    destruct (CopyFile_opens c conn p (pathJoin rdir script) st.2 Hc) as (r & tl & Hopen).
    fold cp in Hopen.
    assert (o = match st.1 with
                | StatNotExist _ => mkOut (Some ("local script not found: " +:+ p)) st.2
                                          [EvStat p st.1]
                | _ =>
                  match val cp with
                  | Some err =>
                    mkOut (Some ("failed to copy script " +:+ script +:+ ": " +:+ err))
                          (post cp) (EvStat p st.1 :: evs cp)
                  | None =>
                    let x := ssh.ExecuteScript c (pathJoin rdir script) (post cp) in
                    mkOut (match val x with
                           | Some err => Some ("failed to execute script " +:+ script
                                               +:+ ": " +:+ err)
                           | None => None
                           end) (post x) (EvStat p st.1 :: evs cp ++ evs x)
                  end
                end) as Ho.
    { subst o. unfold executeScripts_body, bind, call. cbn zeta. cbn [val post evs].
      fold p. fold st. destruct st.1; fold cp; cbn [app];
        try (destruct (val cp); cbn [val post evs]; rewrite ?app_nil_r; [done|];
             destruct (val (ssh.ExecuteScript _ _ _)); cbn [val post evs];
             by rewrite ?app_nil_r).
      done. }
    rewrite Ho. clear Ho. split.
    + split.
      * destruct st.1 as [|e0|e0]; [| by eexists |];
          (destruct (val cp); cbn [val]; [done|];
           destruct (val (ssh.ExecuteScript _ _ _)); cbn [val]; done).
      * intros [e0 ->]. done.
    + intros Hne. destruct st.1 as [|e0|e0] eqn:Hst; [| by destruct (Hne e0) |].
      all: split; [exists r; destruct (val cp); cbn [evs]; rewrite Hopen; set_solver|].
      all: split; [destruct (val cp); cbn [evs]; [exists []; by rewrite app_nil_r
                                                 | by eexists]|].
      all: intros err Herr; rewrite Herr; done.
  - intros fdir d w p st mk cp o.
    destruct (CopyFile_opens c conn p ("/tmp/" +:+ pathBase (LocalPath d)) (post mk) Hc)
      as (r & tl & Hopen).
    fold cp in Hopen.
    assert (o = match st.1 with
                | StatNotExist _ => mkOut (Some ("local file not found: " +:+ p)) st.2
                                          [EvStat p st.1]
                | _ =>
                  match val mk with
                  | Some err =>
                    mkOut (Some ("failed to create remote directory "
                                 +:+ pathDir (RemotePath d) +:+ ": " +:+ err))
                          (post mk) (EvStat p st.1 :: evs mk)
                  | None =>
                    match val cp with
                    | Some err =>
                      mkOut (Some ("failed to copy file " +:+ LocalPath d +:+ ": " +:+ err))
                            (post cp) (EvStat p st.1 :: evs mk ++ evs cp)
                    | None =>
                      let x := ssh.ExecuteCommand c
                                 ("sudo mv " +:+ ("/tmp/" +:+ pathBase (LocalPath d))
                                  +:+ " " +:+ RemotePath d) (post cp) in
                      mkOut (match val x with
                             | Some err => Some ("failed to move file to " +:+ RemotePath d
                                                 +:+ ": " +:+ err)
                             | None => None
                             end) (post x) (EvStat p st.1 :: evs mk ++ evs cp ++ evs x)
                    end
                  end
                end) as Ho.
    { subst o. unfold deployFiles_body, bind, call. cbn zeta. cbn [val post evs].
      fold p. fold st. destruct st.1; fold mk; cbn [app];
        try (destruct (val mk); cbn [val post evs]; rewrite ?app_nil_r; [done|];
             fold cp; destruct (val cp); cbn [val post evs]; rewrite ?app_nil_r; [done|];
             destruct (val (ssh.ExecuteCommand _ _ (post cp))); cbn [val post evs];
             by rewrite ?app_nil_r).
      done. }
    rewrite Ho. clear Ho. split.
    + split.
      * destruct st.1 as [|e0|e0]; [| by eexists |];
          (destruct (val mk); cbn [val]; [done|];
           destruct (val cp); cbn [val]; [done|];
           destruct (val (ssh.ExecuteCommand _ _ (post cp))); cbn [val]; done).
      * intros [e0 ->]. done.
    + intros Hne. destruct st.1 as [|e0|e0] eqn:Hst; [| by destruct (Hne e0) |].
      all: split; [destruct (val mk); [exists []; by rewrite app_nil_r|];
                   destruct (val cp); cbn [evs]; by eexists|].
      all: split.
      all: try (intros err Herr; rewrite Herr; cbn [val evs]; split; [done|];
                split; [done|]; intros [r' [?|Hin]%elem_of_cons]; [done|];
                by apply ExecuteCommand_no_open in Hin).
      all: intros Hmk; rewrite Hmk.
      all: split; [exists r; destruct (val cp); cbn [evs]; rewrite Hopen; set_solver|].
      all: split; [destruct (val cp); cbn [evs]; [exists []; by rewrite app_nil_r
                                                 | by eexists]|].
      all: intros err Herr; rewrite Herr; done.
Qed.


(** *** Call logs without clock reads and without mutating requests *)

Lemma Quiet_ret {A} (a : A) : Quiet (W:=W) (ret a).
Proof. intros w. apply Forall_nil_2. Qed.

Lemma Quiet_bind {A B} (m : M W A) (k : A → M W B) :
  Quiet m → (∀ a, Quiet (k a)) → Quiet (bind m k).
Proof. intros Hm Hk w. rewrite evs_bind. apply Forall_app. split; [apply Hm | apply Hk]. Qed.

Lemma Quiet_call {A} (f : W → A * W) (ev : A → Event) :
  (∀ a, quiet (ev a)) → Quiet (call f ev).
Proof. intros Hev w. by apply Forall_singleton. Qed.

Lemma Quiet_emit e : quiet e → Quiet (W:=W) (emit e).
Proof. intros He w. by apply Forall_singleton. Qed.

Ltac quiet_step :=
  lazymatch goal with
  | |- Quiet (ret _) => apply Quiet_ret
  | |- Quiet (call _ _) => apply Quiet_call; intros; exact I
  | |- Quiet (emit _) => apply Quiet_emit; exact I
  | |- Quiet (bind _ _) => apply Quiet_bind; [|intros ?]
  | |- Quiet (let _ := _ in _) => cbv zeta
  | |- Quiet (match ?x with _ => _ end) => destruct x
  end.

Lemma Quiet_makeRequest_GET c endpoint : Quiet (client.makeRequest c "GET" endpoint None).
Proof. apply Quiet_call. intros a. by split. Qed.

Lemma Quiet_WaitForVMReady_loop n c vmID : Quiet (client.WaitForVMReady_loop n c vmID).
Proof.
  induction n as [|n IH]; cbn [client.WaitForVMReady_loop]; [apply Quiet_ret|].
  apply Quiet_bind; [apply Quiet_makeRequest_GET|]. intros r.
  repeat first [exact IH | quiet_step].
Qed.

Lemma Quiet_WaitForSnapshotReady_loop n c snapshotID :
  Quiet (client.WaitForSnapshotReady_loop n c snapshotID).
Proof.
  induction n as [|n IH]; cbn [client.WaitForSnapshotReady_loop]; [apply Quiet_ret|].
  apply Quiet_bind; [apply Quiet_makeRequest_GET|]. intros r.
  repeat first [exact IH | quiet_step].
Qed.

Lemma Quiet_GetVMDetails c vmID : Quiet (client.GetVMDetails c vmID).
Proof.
  unfold client.GetVMDetails. apply Quiet_bind; [apply Quiet_makeRequest_GET|].
  intros r. repeat quiet_step.
Qed.

Lemma Quiet_New privateKeyPath username : Quiet (ssh.New privateKeyPath username).
Proof. unfold ssh.New. repeat quiet_step. Qed.

Lemma Quiet_Connect_loop n c host last : Quiet (ssh.Connect_loop n c host last).
Proof.
  revert c last. induction n as [|n IH]; intros c last; cbn [ssh.Connect_loop];
    [apply Quiet_ret|].
  unfold ssh.sleep. repeat first [apply IH | quiet_step].
Qed.

Lemma Quiet_Close c : Quiet (ssh.Close c).
Proof. unfold ssh.Close. repeat quiet_step. Qed.

Lemma Quiet_CopyFile c localPath remotePath : Quiet (ssh.CopyFile c localPath remotePath).
Proof. unfold ssh.CopyFile. repeat quiet_step. Qed.

Lemma Quiet_ExecuteCommand c command : Quiet (ssh.ExecuteCommand c command).
Proof. unfold ssh.ExecuteCommand. repeat quiet_step. Qed.

Ltac quiet_ssh :=
  lazymatch goal with
  | |- Quiet (ssh.ExecuteCommand _ _) => apply Quiet_ExecuteCommand
  | |- Quiet (ssh.CopyFile _ _ _) => apply Quiet_CopyFile
  | |- Quiet (ssh.Close _) => apply Quiet_Close
  | |- Quiet (ssh.New _ _) => apply Quiet_New
  | |- Quiet (ssh.Connect_loop _ _ _ _) => apply Quiet_Connect_loop
  | _ => quiet_step
  end.

Lemma Quiet_ExecuteScript c scriptPath : Quiet (ssh.ExecuteScript c scriptPath).
Proof. unfold ssh.ExecuteScript. repeat quiet_ssh. Qed.

Lemma Quiet_for_range {A} (body : A → M W (option Err)) xs :
  (∀ x, Quiet (body x)) → Quiet (for_range body xs).
Proof.
  intros Hb. induction xs as [|x xs IH]; cbn [for_range]; [apply Quiet_ret|].
  apply Quiet_bind; [apply Hb|]. intros [e|]; [apply Quiet_ret | exact IH].
Qed.

Lemma Quiet_executeScripts c scripts sdir rdir : Quiet (executeScripts c scripts sdir rdir).
Proof.
  unfold executeScripts. apply Quiet_bind; [apply Quiet_ExecuteCommand|].
  intros [e|]; [apply Quiet_ret|]. apply Quiet_for_range. intros script.
  unfold executeScripts_body.
  repeat first [apply Quiet_ExecuteScript | quiet_ssh].
Qed.

Lemma Quiet_deployFiles c deployments fdir : Quiet (deployFiles c deployments fdir).
Proof.
  unfold deployFiles. apply Quiet_for_range. intros d.
  unfold deployFiles_body. repeat quiet_ssh.
Qed.

Lemma Quiet_executeProvisioningScripts vmIP privateKeyPath :
  Quiet (executeProvisioningScripts vmIP privateKeyPath).
Proof.
  unfold executeProvisioningScripts, executeProvisioningScripts_with, ssh.Connect.
  repeat first
    [ apply Quiet_executeScripts | apply Quiet_deployFiles | quiet_ssh ].
Qed.

(** *** The mutating calls, by the answer they get *)

Lemma CreateVM_out apiKey cfg t0 w :
  let req := create_request apiKey cfg t0 in
  let r := sys_http req w in
  let o := client.CreateVM (client.New apiKey)
             (with_VMName (VMName cfg +:+ "-" +:+ pretty t0) cfg) w in
  evs o = [EvHttp req r.1] ∧ post o = r.2
  ∧ match val o with
    | inl _ => created r.1 = None
    | inr vmResp => created r.1 = head (Instances vmResp)
    end.
Proof.
  cbn zeta. unfold client.CreateVM, client.makeRequest, bind, call, created.
  cbn [val post evs client.APIKey client.New].
  fold (create_request apiKey cfg t0).
  destruct (sys_http _ w).1 as [err|resp]; cbn [val post evs app]; [done|].
  destruct (client.parseAPIResponse _ resp); cbn [val post evs app]; done.
Qed.

Lemma CreateSnapshot_out apiKey cfg vmID t1 w :
  let req := snapshot_request apiKey cfg vmID t1 in
  let r := sys_http req w in
  let o := client.CreateSnapshot (client.New apiKey) vmID
             (VMName cfg +:+ "-snapshot-" +:+ pretty t1) w in
  evs o = [EvHttp req r.1] ∧ post o = r.2
  ∧ match val o with
    | inl _ => snapshotted r.1 = None
    | inr snapshot => snapshotted r.1 = Some snapshot
    end.
Proof.
  cbn zeta. unfold client.CreateSnapshot, client.makeRequest, bind, call, snapshotted.
  cbn [val post evs client.APIKey client.New].
  fold (snapshot_request apiKey cfg vmID t1).
  destruct (sys_http _ w).1 as [err|resp]; cbn [val post evs app]; [done|].
  destruct (_ && _); cbn [val post evs app]; [done|].
  destruct (decodeSnapshotCreateResponse resp); cbn [val post evs app]; done.
Qed.

Lemma CreateImageFromSnapshot_out apiKey cfg snapshotID w :
  let req := image_request apiKey cfg snapshotID in
  let r := sys_http req w in
  let o := client.CreateImageFromSnapshot (client.New apiKey) snapshotID
             (ImageName cfg +:+ "_" +:+ ImageVersion cfg)
             (([] ++ Tags cfg) ++ platformLabels) w in
  evs o = [EvHttp req r.1] ∧ post o = r.2
  ∧ match val o with
    | inl _ => imaged r.1 = None
    | inr image => imaged r.1 = Some image
    end.
Proof.
  cbn zeta. unfold client.CreateImageFromSnapshot, client.makeRequest, bind, call, imaged.
  cbn [val post evs client.APIKey client.New].
  change (([] ++ Tags cfg) ++ platformLabels) with (Tags cfg ++ platformLabels).
  fold (image_request apiKey cfg snapshotID).
  destruct (sys_http _ w).1 as [err|resp]; cbn [val post evs app]; [done|].
  destruct (client.parseAPIResponse _ resp); cbn [val post evs app]; done.
Qed.

Lemma DeleteVM_out apiKey vmID w :
  let req := delete_request apiKey vmID in
  let r := sys_http req w in
  let o := client.DeleteVM (client.New apiKey) vmID w in
  evs o = [EvHttp req r.1] ∧ post o = r.2 ∧ val o = delete_error r.1.
Proof.
  cbn zeta. unfold client.DeleteVM, client.makeRequest, bind, call, delete_error.
  cbn [val post evs client.APIKey client.New].
  fold (delete_request apiKey vmID).
  destruct (sys_http _ w).1 as [err|resp]; cbn [val post evs app]; [done|].
  destruct (_ && _); cbn [val post evs app]; done.
Qed.

(** Every build's call log has one of the shapes of [MainTrace]. *)
Lemma main_trace apiKey cfg w :
  MainTrace apiKey cfg (val (main apiKey cfg w)) (evs (main apiKey cfg w)).
Proof.
  unfold main. rewrite !val_bind, !evs_bind.
  set (t0 := val (call sys_now EvNow w)).
  set (w0 := post (call sys_now EvNow w)).
  change (evs (call sys_now EvNow w)) with [EvNow t0].
  destruct (CreateVM_out apiKey cfg t0 w0) as (Hev & _ & Hval).
  rewrite Hev. clear Hev. cbn zeta in Hval.
  set (r0 := (sys_http (create_request apiKey cfg t0) w0).1) in *.
  set (w1 := post (client.CreateVM _ _ w0)).
  destruct (val (client.CreateVM _ _ w0)) as [err|vmResp].
  { apply (MT_before_snapshot _ _ t0 r0 []). apply Forall_nil_2. }
  destruct (Instances vmResp) as [|vm vms].
  { apply (MT_before_snapshot _ _ t0 r0 []). apply Forall_nil_2. }
  cbn [head] in Hval.
  rewrite !val_bind, !evs_bind.
  pose proof (Quiet_WaitForVMReady_loop 60 (client.New apiKey) (vm_ID vm) w1) as Hq1.
  fold (client.WaitForVMReady (client.New apiKey) (vm_ID vm)) in Hq1.
  set (o1 := client.WaitForVMReady (client.New apiKey) (vm_ID vm) w1) in *.
  destruct (val o1) as [err|vmIP].
  { apply (MT_before_snapshot _ _ t0 r0 (evs o1 ++ [])). by rewrite app_nil_r. }
  rewrite !val_bind, !evs_bind.
  pose proof (Quiet_GetVMDetails (client.New apiKey) (vm_ID vm) (post o1)) as Hq2.
  set (o2 := client.GetVMDetails (client.New apiKey) (vm_ID vm) (post o1)) in *.
  destruct (val o2) as [err|vmDetails].
  { apply (MT_before_snapshot _ _ t0 r0 (evs o1 ++ evs o2 ++ [])).
    rewrite app_nil_r. by apply Forall_app. }
  rewrite !val_bind, !evs_bind.
  pose proof (Quiet_executeProvisioningScripts vmIP
                (PrivateKeyPath (with_VMName (VMName cfg)
                   (with_VMName (VMName cfg +:+ "-" +:+ pretty t0) cfg))) (post o2)) as Hq3.
  set (o3 := executeProvisioningScripts vmIP _ (post o2)) in *.
  assert (Forall quiet (evs o1 ++ evs o2 ++ evs o3)) as Hq.
  { apply Forall_app. split; [done|]. apply Forall_app. by split. }
  destruct (val o3) as [err|].
  { apply (MT_before_snapshot _ _ t0 r0 (evs o1 ++ evs o2 ++ evs o3 ++ [])).
    by rewrite app_nil_r. }
  rewrite !val_bind, !evs_bind.
  set (t1 := val (call sys_now EvNow (post o3))).
  set (w3 := post (call sys_now EvNow (post o3))).
  change (evs (call sys_now EvNow (post o3))) with [EvNow t1].
  change (VMName (with_VMName (VMName cfg) _)) with (VMName cfg).
  change (ImageName (with_VMName (VMName cfg) _)) with (ImageName cfg).
  change (ImageVersion (with_VMName (VMName cfg) _)) with (ImageVersion cfg).
  change (Tags (with_VMName (VMName cfg) _)) with (Tags cfg).
  destruct (CreateSnapshot_out apiKey cfg (vm_ID vm) t1 w3) as (Hev & _ & Hval1).
  rewrite Hev. clear Hev. cbn zeta in Hval1.
  set (r1 := (sys_http (snapshot_request apiKey cfg (vm_ID vm) t1) w3).1) in *.
  set (w4 := post (client.CreateSnapshot _ _ _ w3)).
  assert (∀ tail,
    [EvNow t0] ++ [EvHttp (create_request apiKey cfg t0) r0] ++ evs o1 ++ evs o2 ++ evs o3
      ++ [EvNow t1] ++ [EvHttp (snapshot_request apiKey cfg (vm_ID vm) t1) r1] ++ tail
    = EvNow t0 :: EvHttp (create_request apiKey cfg t0) r0 :: (evs o1 ++ evs o2 ++ evs o3)
      ++ EvNow t1 :: EvHttp (snapshot_request apiKey cfg (vm_ID vm) t1) r1 :: tail) as Hshape.
  { intros tail. cbn [app]. by rewrite <- !app_assoc. }
  destruct (val (client.CreateSnapshot _ _ _ w3)) as [err|snapshot].
  { rewrite Hshape. by eapply (MT_snapshot _ _ t0 r0 vm _ t1 r1 []). }
  rewrite !val_bind, !evs_bind.
  pose proof (Quiet_WaitForSnapshotReady_loop 120 (client.New apiKey) (snap_ID snapshot) w4)
    as Hq4.
  fold (client.WaitForSnapshotReady (client.New apiKey) (snap_ID snapshot)) in Hq4.
  set (o4 := client.WaitForSnapshotReady (client.New apiKey) (snap_ID snapshot) w4) in *.
  destruct (val o4) as [err|].
  { rewrite Hshape. rewrite app_nil_r. by eapply (MT_snapshot _ _ t0 r0 vm _ t1 r1 (evs o4)). }
  rewrite !val_bind, !evs_bind.
  destruct (CreateImageFromSnapshot_out apiKey cfg (snap_ID snapshot) (post o4))
    as (Hev & _ & Hval2).
  rewrite Hev. clear Hev. cbn zeta in Hval2.
  set (r2 := (sys_http (image_request apiKey cfg (snap_ID snapshot)) (post o4)).1) in *.
  set (w5 := post (client.CreateImageFromSnapshot _ _ _ _ (post o4))).
  destruct (val (client.CreateImageFromSnapshot _ _ _ _ (post o4))) as [err|image].
  { rewrite Hshape. rewrite app_nil_r.
    by eapply (MT_image _ _ t0 r0 vm _ t1 r1 snapshot (evs o4) r2). }
  rewrite !val_bind, !evs_bind.
  destruct (DeleteVM_out apiKey (vm_ID vm) w5) as (Hev & _ & Hval3).
  rewrite Hev. clear Hev. cbn zeta in Hval3.
  set (r3 := (sys_http (delete_request apiKey (vm_ID vm)) w5).1) in *.
  rewrite Hshape.
  assert (evs (match val (client.DeleteVM (client.New apiKey) (vm_ID vm) w5) with
               | Some err => emit (EvWarn ("Warning: Failed to delete VM: " +:+ err))
               | None => ret ()
               end (post (client.DeleteVM (client.New apiKey) (vm_ID vm) w5)))
          = delete_warning r3) as ->.
  { unfold delete_warning. rewrite Hval3. by destruct (delete_error r3). }
  cbn [ret val evs]. rewrite app_nil_r.
  by eapply (MT_done _ _ t0 r0 vm _ t1 r1 snapshot (evs o4) r2 image r3).
Qed.


(** *** Consequences of the shapes *)

Lemma delete_count_app l1 l2 : delete_count (l1 ++ l2) = delete_count l1 + delete_count l2.
Proof. unfold delete_count. by rewrite filter_app, length_app. Qed.

Lemma delete_count_cons e l :
  delete_count (e :: l) = (if is_delete e then 1 else 0) + delete_count l.
Proof.
  unfold delete_count. destruct (is_delete e) eqn:He.
  - by rewrite filter_cons_True.
  - rewrite filter_cons_False; [done|]. by rewrite He.
Qed.

Lemma quiet_request q req r :
  Forall quiet q → EvHttp req r ∈ q → req_method req = "GET" ∧ req_body req = None.
Proof. intros Hq Hin. rewrite Forall_forall in Hq. apply (Hq _ Hin). Qed.

Lemma delete_count_quiet q : Forall quiet q → delete_count q = 0.
Proof.
  induction 1 as [|e q He _ IH]; [done|]. rewrite delete_count_cons, IH.
  destruct e; try done. cbn. destruct He as [-> _]. done.
Qed.

Lemma delete_count_warning r : delete_count (delete_warning r) = 0.
Proof. unfold delete_warning. by destruct (delete_error r). Qed.

Lemma request_not_warning req r r3 : EvHttp req r ∉ delete_warning r3.
Proof.
  unfold delete_warning. destruct (delete_error r3).
  - by intros ?%list_elem_of_singleton.
  - apply not_elem_of_nil.
Qed.

(** A build succeeds exactly when its image request was answered with
    an image. *)
Lemma main_succeeds_iff_image apiKey cfg w :
  val (main apiKey cfg w) = ExitOK ↔
  ∃ snapshotID r image,
    EvHttp (image_request apiKey cfg snapshotID) r ∈ evs (main apiKey cfg w)
    ∧ imaged r = Some image.
Proof.
  pose proof (main_trace apiKey cfg w) as Hmt. revert Hmt.
  generalize (val (main apiKey cfg w)) (evs (main apiKey cfg w)). intros v l Hmt.
  destruct Hmt as [t0 r0 q msg Hq
                  | t0 r0 vm q1 t1 r1 q2 msg Hvm Hq1 Hq2
                  | t0 r0 vm q1 t1 r1 snapshot q2 r2 msg Hvm Hq1 Hq2 Hs Hi
                  | t0 r0 vm q1 t1 r1 snapshot q2 r2 image r3 Hvm Hq1 Hq2 Hs Hi].
  4: { split; [intros _|done]. exists (snap_ID snapshot), r2, image. split; [|done].
       do 2 apply list_elem_of_further. apply elem_of_app. right.
       do 2 apply list_elem_of_further. apply elem_of_app. right.
       apply list_elem_of_here. }
  all: split; [done|]; intros (sid & r & image & Hin & Himg); exfalso.
  all: apply elem_of_cons in Hin as [?|Hin]; [done|].
  all: apply elem_of_cons in Hin as [Heq|Hin]; [unfold image_request in Heq; done|].
  { by destruct (quiet_request _ _ _ Hq Hin). }
  all: apply elem_of_app in Hin as [Hin|Hin]; [by destruct (quiet_request _ _ _ Hq1 Hin)|].
  all: apply elem_of_cons in Hin as [?|Hin]; [done|].
  all: apply elem_of_cons in Hin as [Heq|Hin]; [unfold image_request in Heq; done|].
  { by destruct (quiet_request _ _ _ Hq2 Hin). }
  apply elem_of_app in Hin as [Hin|Hin]; [by destruct (quiet_request _ _ _ Hq2 Hin)|].
  apply list_elem_of_singleton in Hin. injection Hin as _ <-. congruence.
Qed.

(** C1 (as amended).  In every build, deletion of the instance is requested
    exactly once when the build succeeds, that is when provisioning, the
    snapshot, its readiness and the image all succeeded, and not at all when
    the build ends with a fatal error.  Whenever deletion is requested the
    verdict is success whatever the answer to the request: the request is
    the last call of the build, followed at most by the warning that reports
    its failure. *)
Theorem C1_deletion_once_after_image (apiKey : string) (cfg : Config) (w : W) :
  let o := main apiKey cfg w in
  (val o = ExitOK ↔
     ∃ snapshotID r image,
       EvHttp (image_request apiKey cfg snapshotID) r ∈ evs o ∧ imaged r = Some image)
  ∧ (val o = ExitOK → delete_count (evs o) = 1)
  ∧ (∀ msg, val o = ExitFatal msg → delete_count (evs o) = 0)
  ∧ (∀ req r, EvHttp req r ∈ evs o → req_method req = "DELETE" →
       val o = ExitOK ∧ ∃ pre, evs o = pre ++ EvHttp req r :: delete_warning r).
Proof.
  cbn zeta. split; [apply main_succeeds_iff_image|].
  pose proof (main_trace apiKey cfg w) as Hmt. revert Hmt.
  generalize (val (main apiKey cfg w)) (evs (main apiKey cfg w)). intros v l Hmt.
  destruct Hmt as [t0 r0 q msg Hq
                  | t0 r0 vm q1 t1 r1 q2 msg Hvm Hq1 Hq2
                  | t0 r0 vm q1 t1 r1 snapshot q2 r2 msg Hvm Hq1 Hq2 Hs Hi
                  | t0 r0 vm q1 t1 r1 snapshot q2 r2 image r3 Hvm Hq1 Hq2 Hs Hi].
  - split; [done|]. split.
    + intros _ _. rewrite !delete_count_cons, (delete_count_quiet _ Hq). done.
    + intros req r Hin Hdel. exfalso.
      apply elem_of_cons in Hin as [?|Hin]; [done|].
      apply elem_of_cons in Hin as [[= -> _]|Hin]; [done|].
      destruct (quiet_request _ _ _ Hq Hin) as [Hget _]. by rewrite Hget in Hdel.
  - split; [done|]. split.
    + intros _ _. rewrite !delete_count_cons, delete_count_app, !delete_count_cons,
        (delete_count_quiet _ Hq1), (delete_count_quiet _ Hq2). done.
    + intros req r Hin Hdel. exfalso.
      apply elem_of_cons in Hin as [?|Hin]; [done|].
      apply elem_of_cons in Hin as [[= -> _]|Hin]; [done|].
      apply elem_of_app in Hin as [Hin|Hin].
      { destruct (quiet_request _ _ _ Hq1 Hin) as [Hget _]. by rewrite Hget in Hdel. }
      apply elem_of_cons in Hin as [?|Hin]; [done|].
      apply elem_of_cons in Hin as [[= -> _]|Hin]; [done|].
      destruct (quiet_request _ _ _ Hq2 Hin) as [Hget _]. by rewrite Hget in Hdel.
  - split; [done|]. split.
    + intros _ _. rewrite !delete_count_cons, delete_count_app, !delete_count_cons,
        delete_count_app, (delete_count_quiet _ Hq1), (delete_count_quiet _ Hq2). done.
    + intros req r Hin Hdel. exfalso.
      apply elem_of_cons in Hin as [?|Hin]; [done|].
      apply elem_of_cons in Hin as [[= -> _]|Hin]; [done|].
      apply elem_of_app in Hin as [Hin|Hin].
      { destruct (quiet_request _ _ _ Hq1 Hin) as [Hget _]. by rewrite Hget in Hdel. }
      apply elem_of_cons in Hin as [?|Hin]; [done|].
      apply elem_of_cons in Hin as [[= -> _]|Hin]; [done|].
      apply elem_of_app in Hin as [Hin|Hin].
      { destruct (quiet_request _ _ _ Hq2 Hin) as [Hget _]. by rewrite Hget in Hdel. }
      apply list_elem_of_singleton in Hin as [= -> _]. done.
  - split; [|split; [done|]].
    + intros _. rewrite !delete_count_cons, delete_count_app, !delete_count_cons,
        delete_count_app, !delete_count_cons, (delete_count_quiet _ Hq1),
        (delete_count_quiet _ Hq2), delete_count_warning. done.
    + intros req r Hin Hdel. split; [done|].
      apply elem_of_cons in Hin as [?|Hin]; [done|].
      apply elem_of_cons in Hin as [[= -> _]|Hin]; [done|].
      apply elem_of_app in Hin as [Hin|Hin].
      { destruct (quiet_request _ _ _ Hq1 Hin) as [Hget _]. by rewrite Hget in Hdel. }
      apply elem_of_cons in Hin as [?|Hin]; [done|].
      apply elem_of_cons in Hin as [[= -> _]|Hin]; [done|].
      apply elem_of_app in Hin as [Hin|Hin].
      { destruct (quiet_request _ _ _ Hq2 Hin) as [Hget _]. by rewrite Hget in Hdel. }
      apply elem_of_cons in Hin as [[= -> _]|Hin]; [done|].
      apply elem_of_cons in Hin as [[= -> ->]|Hin]; [|by apply request_not_warning in Hin].
      eexists (_ :: _ :: _ ++ _ :: _ :: _ ++ [_]).
      cbn [app]. do 2 f_equal. rewrite <- app_assoc. cbn [app]. do 3 f_equal.
      rewrite <- app_assoc. done.
Qed.


(** Every request of a build is a body-less [GET], or one of the four
    mutating requests; the two creation requests that carry a time stamp
    directly follow the clock read that stamps them. *)
Lemma main_requests apiKey cfg w req r :
  let l := evs (main apiKey cfg w) in
  EvHttp req r ∈ l →
  (req_method req = "GET" ∧ req_body req = None)
  ∨ (∃ t0 rest, l = EvNow t0 :: EvHttp req r :: rest ∧ req = create_request apiKey cfg t0)
  ∨ (∃ pre vmID t1 rest,
       l = pre ++ EvNow t1 :: EvHttp req r :: rest
       ∧ req = snapshot_request apiKey cfg vmID t1)
  ∨ (∃ snapshotID, req = image_request apiKey cfg snapshotID)
  ∨ (∃ vmID, req = delete_request apiKey vmID).
Proof.
  cbn zeta. pose proof (main_trace apiKey cfg w) as Hmt. revert Hmt.
  generalize (val (main apiKey cfg w)) (evs (main apiKey cfg w)). intros v l Hmt Hin.
  destruct Hmt as [t0 r0 q msg Hq
                  | t0 r0 vm q1 t1 r1 q2 msg Hvm Hq1 Hq2
                  | t0 r0 vm q1 t1 r1 snapshot q2 r2 msg Hvm Hq1 Hq2 Hs Hi
                  | t0 r0 vm q1 t1 r1 snapshot q2 r2 image r3 Hvm Hq1 Hq2 Hs Hi].
  all: apply elem_of_cons in Hin as [?|Hin]; [done|].
  all: apply elem_of_cons in Hin as [[= -> ->]|Hin];
    [right; left; by eexists _, _|].
  { left. (eapply quiet_request; [|exact Hin]; done). }
  all: apply elem_of_app in Hin as [Hin|Hin]; [left; (eapply quiet_request; [|exact Hin]; done)|].
  all: apply elem_of_cons in Hin as [?|Hin]; [done|].
  all: apply elem_of_cons in Hin as [[= -> ->]|Hin];
    [right; right; left; by eexists (_ :: _ :: _), _, _, _|].
  { left. (eapply quiet_request; [|exact Hin]; done). }
  all: apply elem_of_app in Hin as [Hin|Hin]; [left; (eapply quiet_request; [|exact Hin]; done)|].
  { apply list_elem_of_singleton in Hin as [= -> ->]. right; right; right; left.
    by eexists. }
  apply elem_of_cons in Hin as [[= -> ->]|Hin];
    [right; right; right; left; by eexists|].
  apply elem_of_cons in Hin as [[= -> ->]|Hin];
    [right; right; right; right; by eexists|].
  by apply request_not_warning in Hin.
Qed.



(** Labels of the image request, at the level of values. *)
Lemma main_image_labels apiKey cfg w req r b :
  EvHttp req r ∈ evs (main apiKey cfg w) → req_body req = Some (BodyImageCreate b) →
  imgreq_Labels b = Tags cfg ++ platformLabels.
Proof.
  intros Hin Hb.
  destruct (main_requests _ _ _ _ _ Hin)
    as [[_ Hn]|[(t0 & rest & Hl & ->)|[(pre & vmID & t1 & rest & Hl & ->)
       |[[sid ->]|[vmID ->]]]]]; try (cbn in Hb; congruence).
  by injection Hb as <-.
Qed.

(** C6.  Over the sequence of states that successive status reads observe:
    when the predicate holds on none of the first 60 reads of the instance
    (120 reads of the snapshot), the loop returns its timeout error after
    exactly 60 (120) requests; when the read of index [k] within the cap is
    the first on which the predicate holds, the loop returns success there,
    after exactly [k + 1] requests. *)
Theorem C6_poll_caps (c : client.HyperstackClient) (vmID snapshotID : Z) (w : W) :
  let vm_reads := vm_polls 60 c vmID w in
  let vm_run := client.WaitForVMReady c vmID w in
  let snapshot_reads := snapshot_polls 120 c snapshotID w in
  let snapshot_run := client.WaitForSnapshotReady c snapshotID w in
  (Forall (pending client.vm_ready) vm_reads →
     val vm_run = inl "VM did not become ready with floating IP within timeout"
     ∧ http_count (evs vm_run) = 60)
  ∧ (∀ k vm,
       vm_reads !! k = Some (inr vm) → client.vm_ready vm = true →
       Forall (pending client.vm_ready) (take k vm_reads) →
       val vm_run = inr (vm_FloatingIP vm) ∧ http_count (evs vm_run) = S k)
  ∧ (Forall (pending client.snapshot_ready) snapshot_reads →
     val snapshot_run = Some "snapshot did not become ready within timeout"
     ∧ http_count (evs snapshot_run) = 120)
  ∧ (∀ k s,
       snapshot_reads !! k = Some (inr s) → client.snapshot_ready s = true →
       Forall (pending client.snapshot_ready) (take k snapshot_reads) →
       val snapshot_run = None ∧ http_count (evs snapshot_run) = S k).
Proof.
  cbn zeta. unfold client.WaitForVMReady, client.WaitForSnapshotReady.
  split; [|split; [|split]].
  - apply WaitForVMReady_loop_exhausted.
  - intros k vm. apply WaitForVMReady_loop_first.
  - apply WaitForSnapshotReady_loop_exhausted.
  - intros k s. apply WaitForSnapshotReady_loop_first.
Qed.

(** *** The response envelope *)

(** [parseAPIResponse] rejects a false flag under status 200 or 201 ... *)
Lemma parseAPIResponse_false_flag {T} (unmarshal : string → Err + T) resp wrapper :
  StatusCode resp = 200%Z ∨ StatusCode resp = 201%Z →
  BodyReadErr resp = None →
  unmarshalWrapper (Body resp) = inr wrapper →
  api_Status wrapper = false →
  client.parseAPIResponse unmarshal resp
  = inl ("API returned error: " +:+ api_Message wrapper).
Proof.
  intros Hcode Hread Hw Hflag. unfold client.parseAPIResponse.
  rewrite Hread, Hw, Hflag.
  destruct Hcode as [-> | ->]; done.
Qed.

(** ... and any other status, with the body in the error. *)
Lemma parseAPIResponse_failure_status {T} (unmarshal : string → Err + T) resp :
  StatusCode resp ≠ 200%Z → StatusCode resp ≠ 201%Z →
  client.parseAPIResponse unmarshal resp
  = inl ("API request failed: status " +:+ pretty (StatusCode resp)
         +:+ ", body: " +:+ Body resp).
Proof.
  intros H200 H201. unfold client.parseAPIResponse.
  by rewrite !bool_decide_eq_true_2.
Qed.

(** [CreateSnapshot] returns the decoded snapshot whatever the flag says. *)
Lemma CreateSnapshot_ignores_flag c vmID name w resp sr :
  (sys_http (mkRequest "POST"
               (client.HyperstackAPIBase +:+ client.vm_endpoint vmID +:+ "/snapshots")
               (client.APIKey c)
               (Some (BodySnapshotCreate (client.snapReq vmID name)))) w).1 = inr resp →
  StatusCode resp = 200%Z ∨ StatusCode resp = 201%Z →
  decodeSnapshotCreateResponse resp = inr sr →
  val (client.CreateSnapshot c vmID name w) = inr (screate_Snapshot sr).
Proof.
  intros Hhttp Hcode Hdec. unfold client.CreateSnapshot, client.makeRequest, bind, call.
  cbn zeta. cbn [val post evs]. rewrite Hhttp.
  destruct Hcode as [Hc | Hc]; rewrite Hc; cbn; by rewrite Hdec.
Qed.

(** [WaitForSnapshotReady] never looks at the status code: an answer
    that decodes to a snapshot that is not ready makes the loop sleep and
    read again, whatever its status. *)
Lemma WaitForSnapshotReady_ignores_status n c snapshotID w resp sr :
  (sys_http (mkRequest "GET"
               (client.HyperstackAPIBase +:+ client.snapshot_endpoint snapshotID)
               (client.APIKey c) None) w).1 = inr resp →
  decodeSnapshotDetailResponse resp = inr sr →
  client.snapshot_ready (sdetail_Snapshot sr) = false →
  val (client.WaitForSnapshotReady_loop (S n) c snapshotID w)
  = val (client.WaitForSnapshotReady_loop n c snapshotID
           (sys_sleep 10 (post (poll_snapshot c snapshotID w)))).
Proof.
  intros Hhttp Hdec Hready. rewrite WaitForSnapshotReady_loop_S. cbn zeta.
  assert (val (poll_snapshot c snapshotID w) = inr (sdetail_Snapshot sr)) as ->.
  { unfold poll_snapshot, client.makeRequest, bind, call. cbn zeta. cbn [val post evs ret].
    by rewrite Hhttp, Hdec. }
  by rewrite Hready.
Qed.

(** [DeleteVM] reports success on status 200 or 204 whatever the body. *)
Lemma DeleteVM_ignores_flag c vmID w resp :
  (sys_http (mkRequest "DELETE" (client.HyperstackAPIBase +:+ client.vm_endpoint vmID)
               (client.APIKey c) None) w).1 = inr resp →
  StatusCode resp = 200%Z ∨ StatusCode resp = 204%Z →
  val (client.DeleteVM c vmID w) = None.
Proof.
  intros Hhttp Hcode. unfold client.DeleteVM, client.makeRequest, bind, call.
  cbn zeta. cbn [val post evs]. rewrite Hhttp.
  by destruct Hcode as [-> | ->].
Qed.

End Facts.

Section Slices.
Import goslice.
Implicit Types (h : Heap) (s : Slice) (xs : list string).

Lemma read_length h s : valid h s → length (read h s) = len s.
Proof.
  intros [Hle [Hz | (arr & Harr & Hin)]]; unfold read.
  - assert (len s = 0) as -> by lia. done.
  - rewrite Harr. cbn. rewrite length_take, length_drop. lia.
Qed.

(** Reading back what [append] returns gives the old elements followed
    by the new ones. *)
Lemma append_read grow h s xs :
  valid h s →
  read (append grow h s xs).1 (append grow h s xs).2 = read h s ++ xs.
Proof.
  intros Hv. pose proof (read_length h s Hv) as Hlen. unfold append. cbn zeta.
  case_decide as Hfit; cbn [fst snd].
  - destruct Hv as [Hle [Hz | (arr & Harr & Hin)]].
    + assert (len s = 0) as Hl by lia. assert (xs = []) as ->.
      { apply nil_length_inv. lia. }
      unfold read. cbn [len]. rewrite Hl. done.
    + unfold read in *. cbn [ptr off len]. rewrite lookup_alter_eq, Harr in *.
      cbn [fmap option_fmap option_map default from_option id] in *.
      apply list_eq. intros i.
      destruct (decide (i < len s)) as [Hi|Hi].
      * rewrite lookup_take_lt by lia. rewrite lookup_drop.
        rewrite list_lookup_inserts_lt by lia.
        rewrite lookup_app_l by lia. rewrite lookup_take_lt by lia.
        by rewrite lookup_drop.
      * destruct (decide (i < len s + length xs)) as [Hi2|Hi2].
        -- rewrite lookup_take_lt by lia. rewrite lookup_drop.
           rewrite list_lookup_inserts by lia.
           rewrite lookup_app_r by lia. f_equal. lia.
        -- rewrite lookup_take_ge by lia. symmetry. apply lookup_ge_None.
           rewrite length_app. lia.
  - unfold read at 1. cbn [ptr off len]. rewrite lookup_insert_eq. cbn [default drop].
    rewrite app_assoc. apply take_app_length'. rewrite length_app. lia.
Qed.

Lemma append_valid grow h s xs :
  valid h s → valid (append grow h s xs).1 (append grow h s xs).2.
Proof.
  intros Hv. pose proof (read_length h s Hv) as Hlen. unfold append. cbn zeta.
  case_decide as Hfit; cbn [fst snd].
  - destruct Hv as [Hle [Hz | (arr & Harr & Hin)]]; (split; [cbn; lia|]).
    + by left.
    + right. cbn [ptr off cap]. rewrite lookup_alter_eq, Harr. eexists. split; [done|].
      by rewrite length_inserts.
  - split; [cbn; lia|]. right. cbn [ptr off cap]. rewrite lookup_insert_eq.
    eexists. split; [done|]. rewrite !length_app, length_replicate. lia.
Qed.

(** [append] leaves an array of the store as it was, unless it is the
    array of the slice it was given and the new elements fit behind it. *)
Lemma append_frame grow h s xs q :
  q ∈ dom h →
  (append grow h s xs).1 !! q = h !! q
  ∨ (q = ptr s ∧ len s + length xs ≤ cap s ∧ xs ≠ []).
Proof.
  intros Hq. unfold append. cbn zeta. case_decide as Hfit; cbn [fst snd].
  - destruct (decide (q = ptr s)) as [->|Hne]; [|left; by rewrite lookup_alter_ne].
    destruct xs as [|x xs]; [left|right; by split].
    rewrite lookup_alter_eq. by destruct (h !! ptr s).
  - left. apply lookup_insert_ne. intros <-. by apply is_fresh in Hq.
Qed.

Lemma append_ptr grow h s xs :
  (append grow h s xs).2 = mkSlice (ptr s) (off s) (len s + length xs) (cap s)
  ∨ ptr (append grow h s xs).2 ∉ dom h.
Proof.
  unfold append. cbn zeta. case_decide; cbn [fst snd]; [by left|right]. apply is_fresh.
Qed.

Lemma append_dom grow h s xs : dom h ⊆ dom (append grow h s xs).1.
Proof.
  unfold append. cbn zeta. case_decide; cbn [fst snd].
  - intros q Hq. apply elem_of_dom. apply elem_of_dom in Hq as [arr Hq].
    destruct (decide (q = ptr s)) as [->|Hne].
    + rewrite lookup_alter_eq, Hq. by eexists.
    + rewrite lookup_alter_ne by done. by eexists.
  - rewrite dom_insert_L. set_solver.
Qed.

Lemma build_imageLabels_read grow h tags :
  valid h tags →
  read (build_imageLabels grow h tags).1 (build_imageLabels grow h tags).2
  = read h tags ++ platformLabels.
Proof.
  intros Hv. unfold build_imageLabels. cbn zeta.
  assert (valid h empty_literal) as He by (split; [done | by left]).
  rewrite append_read by by apply append_valid.
  by rewrite append_read.
Qed.

Lemma build_imageLabels_frame grow h tags q :
  q ∈ dom h → (build_imageLabels grow h tags).1 !! q = h !! q.
Proof.
  intros Hq. unfold build_imageLabels. cbn zeta.
  set (xs := read h tags). set (r := append grow h empty_literal xs).
  assert (r.1 !! q = h !! q) as H1.
  { destruct (append_frame grow h empty_literal xs q Hq) as [H1 | (_ & Hfit & Hxs)];
      [done|]. destruct xs; [done | cbn in Hfit; lia]. }
  assert (q ∈ dom r.1) as Hq1 by by apply append_dom.
  destruct (append_frame grow r.1 r.2 platformLabels q Hq1) as [H2 | (Hptr & Hfit & _)];
    [by rewrite H2|].
  exfalso. destruct (append_ptr grow h empty_literal xs) as [Hs | Hfresh];
    [fold r in Hs | fold r in Hfresh].
  - rewrite Hs in Hfit. cbn in Hfit. lia.
  - by rewrite <- Hptr in Hfresh.
Qed.

Lemma build_imageLabels_tags grow h tags :
  valid h tags → read (build_imageLabels grow h tags).1 tags = read h tags.
Proof.
  intros [Hle [Hz | (arr & Harr & Hin)]]; unfold read.
  - assert (len tags = 0) as -> by lia. done.
  - rewrite build_imageLabels_frame; [done|]. apply elem_of_dom. by eexists.
Qed.
End Slices.

(** C8.  The labels of every image request are the configured tags followed
    by the six platform labels, and a build that succeeds has sent such a
    request: its log holds the image-creation request, whose label list is
    the tags followed by the six labels.  On Go's slices: given the tag
    slice of the configuration in a store of arrays, building the label
    slice with the two [append] calls yields a slice that reads as the tags
    followed by the six labels, the tag slice reads as before, and every
    array that existed before is untouched. *)
Theorem C8_image_labels {W : Type} `{Sys W} (apiKey : string) (cfg : Config) (w : W)
    (grow : nat → nat → nat) (h : goslice.Heap) (tags : goslice.Slice) :
  goslice.valid h tags →
  goslice.read h tags = Tags cfg →
  let r := goslice.build_imageLabels grow h tags in
  (∀ req res b,
     EvHttp req res ∈ evs (main apiKey cfg w) → req_body req = Some (BodyImageCreate b) →
     imgreq_Labels b = Tags cfg ++ platformLabels)
  ∧ (val (main apiKey cfg w) = ExitOK →
     ∃ req res b,
       EvHttp req res ∈ evs (main apiKey cfg w)
       ∧ req_method req = "POST"
       ∧ req_body req = Some (BodyImageCreate b)
       ∧ imgreq_Name b = ImageName cfg +:+ "_" +:+ ImageVersion cfg
       ∧ imgreq_Labels b = Tags cfg ++ platformLabels)
  ∧ platformLabels = [ "kubernetes.io/os=linux"; "kubernetes.io/arch=amd64";
                       "nvidia.com/gpu=true"; "nvidia.com/cuda=true";
                       "container.runtime=docker"; "image.type=kubernetes-node" ]
  ∧ goslice.read r.1 r.2 = Tags cfg ++ platformLabels
  ∧ goslice.read r.1 tags = Tags cfg
  ∧ (∀ q, q ∈ dom h → r.1 !! q = h !! q).
Proof.
  intros Hv Htags r. subst r. split; [|split; [|split; [|split; [|split]]]].
  - intros req res b. apply main_image_labels.
  - intros Hok. apply main_succeeds_iff_image in Hok as (sid & res & image & Hin & _).
    exists (image_request apiKey cfg sid), res,
      (client.imgReq (ImageName cfg +:+ "_" +:+ ImageVersion cfg)
         (Tags cfg ++ platformLabels)).
    split; [exact Hin|]. repeat split.
  - reflexivity.
  - by rewrite build_imageLabels_read, Htags.
  - by rewrite build_imageLabels_tags.
  - intros q. apply build_imageLabels_frame.
Qed.

(** ** The definitions on explicit inputs *)

Section Runs.
Import scenario.

Example good_build_succeeds : val (main "key" cfg0 w_good) = ExitOK.
Proof. vm_compute. reflexivity. Qed.

Example good_build_deletes_once : delete_count (evs (main "key" cfg0 w_good)) = 1.
Proof. vm_compute. reflexivity. Qed.

Example failed_delete_still_succeeds :
  val (main "key" cfg0 w_delete_fails) = ExitOK
  ∧ last (evs (main "key" cfg0 w_delete_fails))
    = Some (EvWarn "Warning: Failed to delete VM: failed to delete VM: status 500, body: {'message': 'internal error'}").
Proof. vm_compute. split; reflexivity. Qed.

Example failed_script_is_fatal :
  val (main "key" cfg0 w_script_fails)
  = ExitFatal "Provisioning failed: failed to execute scripts: failed to execute script install-drivers.sh: failed to execute script: command failed: Process exited with status 1".
Proof. vm_compute. reflexivity. Qed.
End Runs.

Section Witnesses.
Import scenario.

Local Abbreviation key := (client.New "key").

(** C1: on [w_script_fails] an instance exists and provisioning fails;
    no deletion is requested. *)
Lemma C1_counterexample : ¬ deletes_once_after_creation "key" cfg0 w_script_fails.
Proof.
  intros Hclaim.
  assert (instance_created (evs (main "key" cfg0 w_script_fails))) as Hcreated.
  { eexists (create_request "key" cfg0 1700000000), _, (ok body_created), _.
    split; [|split; reflexivity].
    apply (list_elem_of_lookup_2 _ 1). vm_compute. reflexivity. }
  specialize (Hclaim Hcreated). vm_compute in Hclaim. discriminate.
Qed.

Lemma C1_witness :
  val (main "key" cfg0 w_delete_fails) = ExitOK
  ∧ delete_count (evs (main "key" cfg0 w_delete_fails)) = 1
  ∧ ∃ pre, evs (main "key" cfg0 w_delete_fails)
           = pre ++ EvHttp (delete_request "key" 7)
                      (inr (mkResponse 500 body_server_error None))
                 :: delete_warning (inr (mkResponse 500 body_server_error None)).
Proof.
  assert (val (main "key" cfg0 w_delete_fails) = ExitOK) as Hok by (vm_compute; reflexivity).
  pose proof (C1_deletion_once_after_image "key" cfg0 w_delete_fails) as (_ & H1 & _ & H3).
  split; [exact Hok|]. split; [exact (H1 Hok)|].
  eapply H3; [|reflexivity].
  apply (list_elem_of_lookup_2 _ 58). vm_compute. reflexivity.
Defined.

(** C2.  What the code does where the claim fails.  [parseAPIResponse]
    turns a false flag under status 200, and a status 500, into errors (the
    second with the body).  [CreateSnapshot] given the same 200 answer with
    a false flag returns a snapshot and no error; [WaitForSnapshotReady]
    given status 500 on every read raises no error for any of them and
    reads 120 times until its own timeout; [DeleteVM] given status 200 with
    a false flag reports success. *)
Theorem C2_snapshot_calls_skip_the_envelope :
  client.parseAPIResponse unmarshalVMDetailData (mkResponse 200 body_refused None)
    = inl "API returned error: quota exceeded"
  ∧ val (client.CreateSnapshot key 7 "vm1-snapshot-1700000020" w_refused)
    = inr (mkSnapshot 0 "" "" 0 0 "" false 0 false "" "")
  ∧ client.parseAPIResponse unmarshalVMDetailData (mkResponse 500 body_server_error None)
    = inl "API request failed: status 500, body: {'message': 'internal error'}"
  ∧ val (client.WaitForSnapshotReady key 9 w_server_error)
    = Some "snapshot did not become ready within timeout"
  ∧ http_count (evs (client.WaitForSnapshotReady key 9 w_server_error)) = 120
  ∧ val (client.DeleteVM key 7 w_refused) = None.
Proof. vm_compute. repeat split; reflexivity. Qed.

Lemma C3_witness :
  val (poll_vm key 7 w_active) = inr (vm0 "ACTIVE" "203.0.113.9" "ATTACHED")
  ∧ val (client.WaitForVMReady_loop 60 key 7 w_active) = inr "203.0.113.9"
  ∧ evs (client.WaitForVMReady_loop 60 key 7 w_active) = evs (poll_vm key 7 w_active)
  ∧ post (client.WaitForVMReady_loop 60 key 7 w_active) = post (poll_vm key 7 w_active).
Proof.
  assert (val (poll_vm key 7 w_active) = inr (vm0 "ACTIVE" "203.0.113.9" "ATTACHED"))
    as Hpoll by reflexivity.
  split; [exact Hpoll|].
  apply (proj1 (C3_instance_ready_iff 59 key 7 w_active _ Hpoll)).
  repeat split; done.
Defined.

(** C4: two deployments into /etc/containerd.  On
    [w_first_mkdir_refused] the first is the first to fail, on
    [w_second_mkdir_refused] the second, and the error returned is the
    same text. *)
Lemma C4_counterexample :
  ¬ error_identifies_deployment (H:=counting_sys) connected filesDir
      [runsc; containerd_config] w_first_mkdir_refused w_second_mkdir_refused.
Proof.
  intros Hclaim.
  specialize (Hclaim 0 1
    "failed to create remote directory /etc/containerd: command failed: Process exited with status 1").
  assert ([runsc; containerd_config] !! 0 = [runsc; containerd_config] !! 1) as Heq.
  { apply Hclaim; (split; [vm_compute; reflexivity | vm_compute; repeat constructor]). }
  discriminate Heq.
Qed.

Lemma C4_witness :
  let e := "failed to execute script install-drivers.sh: failed to execute script: command failed: Process exited with status 1" in
  let body := executeScripts_body connected scriptDir remoteScriptDir in
  let m := ssh.ExecuteCommand connected ("mkdir -p " +:+ remoteScriptDir) w_script_fails in
  let files := [runsc; other_conf] in
  val m = None
  ∧ outcomes body provisioningScripts (post m) !! 1 = Some (Some e)
  ∧ Forall (eq None) (take 1 (outcomes body provisioningScripts (post m)))
  ∧ val (executeScripts connected provisioningScripts scriptDir remoteScriptDir
           w_script_fails) = Some e
  ∧ evs (executeScripts connected provisioningScripts scriptDir remoteScriptDir
           w_script_fails)
    = evs m ++ each body (take 2 provisioningScripts) (post m)
  ∧ val (executeProvisioningScripts_with provisioningScripts fileDeployments
           "203.0.113.9" "~/.ssh/id_rsa" w_script_fails)
    = Some ("failed to execute scripts: " +:+ e)
  ∧ val (deployFiles connected fileDeployments filesDir w_file_missing)
    = Some "local file not found: ../../files/runsc.toml"
  ∧ val (deployFiles connected files filesDir w_move_refused)
    = Some "failed to move file to /etc/other/other.conf: command failed: Process exited with status 1"
  ∧ evs (deployFiles connected files filesDir w_move_refused)
    = [ EvStat "../../files/runsc.toml" StatOK;
        EvNewSession 1 (inr 0); EvRun 0 "sudo mkdir -p /etc/containerd" None;
        EvOpen "../../files/runsc.toml" None;
        EvFileStat "../../files/runsc.toml" (inr 1024%Z);
        EvNewSession 1 (inr 0); EvRun 0 "scp -t /tmp/runsc.toml" None;
        EvNewSession 1 (inr 0);
        EvRun 0 "sudo mv /tmp/runsc.toml /etc/containerd/runsc.toml" None;
        EvStat "../../files/other.conf" StatOK;
        EvNewSession 1 (inr 0); EvRun 0 "sudo mkdir -p /etc/other" None;
        EvOpen "../../files/other.conf" None;
        EvFileStat "../../files/other.conf" (inr 1024%Z);
        EvNewSession 1 (inr 0); EvRun 0 "scp -t /tmp/other.conf" None;
        EvNewSession 1 (inr 0);
        EvRun 0 "sudo mv /tmp/other.conf /etc/other/other.conf"
          (Some "Process exited with status 1") ]
  ∧ val (deployFiles connected (files ++ [containerd_config]) filesDir w_other_dir_refused)
    = Some "failed to create remote directory /etc/other: command failed: Process exited with status 1"
  ∧ evs (deployFiles connected (files ++ [containerd_config]) filesDir w_other_dir_refused)
    = [ EvStat "../../files/runsc.toml" StatOK;
        EvNewSession 1 (inr 0); EvRun 0 "sudo mkdir -p /etc/containerd" None;
        EvOpen "../../files/runsc.toml" None;
        EvFileStat "../../files/runsc.toml" (inr 1024%Z);
        EvNewSession 1 (inr 0); EvRun 0 "scp -t /tmp/runsc.toml" None;
        EvNewSession 1 (inr 0);
        EvRun 0 "sudo mv /tmp/runsc.toml /etc/containerd/runsc.toml" None;
        EvStat "../../files/other.conf" StatOK;
        EvNewSession 1 (inr 0);
        EvRun 0 "sudo mkdir -p /etc/other" (Some "Process exited with status 1") ]
  ∧ val (executeProvisioningScripts_with provisioningScripts files
           "203.0.113.9" "~/.ssh/id_rsa" w_move_refused)
    = Some "failed to deploy files: failed to move file to /etc/other/other.conf: command failed: Process exited with status 1".
Proof.
  intros e body m files.
  destruct (@C4_halts_at_first_failing_step World world_sys)
    as (Hscripts & Hfiles & Hboth & _ & Hcause).
  assert (val m = None) as Hm by reflexivity.
  assert (outcomes body provisioningScripts (post m) !! 1 = Some (Some e)) as Hk
    by (vm_compute; reflexivity).
  assert (Forall (eq None) (take 1 (outcomes body provisioningScripts (post m)))) as Hall
    by (vm_compute; repeat constructor).
  split; [exact Hm|]. split; [exact Hk|]. split; [exact Hall|].
  destruct (Hscripts connected provisioningScripts scriptDir remoteScriptDir
              w_script_fails 1 e Hm Hk Hall) as (Hval & Hevs & _).
  split; [exact Hval|]. split; [exact Hevs|]. split.
  { refine (proj1 (proj1 (Hboth provisioningScripts fileDeployments "203.0.113.9"
                            "~/.ssh/id_rsa" w_script_fails unconnected _ _) e _)).
    - vm_compute. reflexivity.
    - vm_compute. reflexivity.
    - vm_compute. reflexivity. }
  split.
  { refine (proj1 (Hfiles connected fileDeployments filesDir w_file_missing 0 _ _ _)).
    - vm_compute. reflexivity.
    - vm_compute. constructor. }
  destruct (Hfiles connected files filesDir w_move_refused 1
              "failed to move file to /etc/other/other.conf: command failed: Process exited with status 1")
    as (Hv1 & He1 & _); [vm_compute; reflexivity | vm_compute; repeat constructor |].
  split; [exact Hv1|]. split; [rewrite He1; vm_compute; reflexivity|].
  destruct (Hfiles connected (files ++ [containerd_config]) filesDir w_other_dir_refused 1
              "failed to create remote directory /etc/other: command failed: Process exited with status 1")
    as (Hv2 & He2 & _); [vm_compute; reflexivity | vm_compute; repeat constructor |].
  split; [exact Hv2|]. split; [rewrite He2; vm_compute; reflexivity|].
  refine (proj1 (proj2 (Hboth provisioningScripts files "203.0.113.9"
                          "~/.ssh/id_rsa" w_move_refused unconnected _ _) _ _ _)).
  - vm_compute. reflexivity.
  - vm_compute. reflexivity.
  - vm_compute. reflexivity.
  - vm_compute. reflexivity.
Defined.

Lemma C5_witness :
  (sys_stat (pathJoin scriptDir "install-drivers.sh") w_script_missing).1
    = StatNotExist "no such file or directory"
  ∧ val (executeScripts_body connected scriptDir remoteScriptDir "install-drivers.sh"
           w_script_missing)
    = Some "local script not found: ../../scripts/install-drivers.sh"
  ∧ evs (executeScripts_body connected scriptDir remoteScriptDir "install-drivers.sh"
           w_script_missing)
    = [EvStat "../../scripts/install-drivers.sh" (StatNotExist "no such file or directory")]
  ∧ val (deployFiles_body connected filesDir runsc w_file_missing)
    = Some "local file not found: ../../files/runsc.toml"
  ∧ val (executeScripts connected provisioningScripts scriptDir remoteScriptDir
           w_script_missing)
    = Some "local script not found: ../../scripts/install-drivers.sh"
  ∧ val (deployFiles connected fileDeployments filesDir w_file_missing)
    = Some "local file not found: ../../files/runsc.toml".
Proof.
  destruct (@C5_missing_source_detected_before_network World world_sys connected)
    as (Hscript & Hfile & Hscripts & Hfiles).
  assert ((sys_stat (pathJoin scriptDir "install-drivers.sh") w_script_missing).1
          = StatNotExist "no such file or directory") as Hst by reflexivity.
  split; [exact Hst|].
  destruct (Hscript scriptDir remoteScriptDir "install-drivers.sh" w_script_missing _ Hst)
    as (Hv & He & _).
  split; [exact Hv|]. split; [exact He|]. split; [|split].
  - refine (proj1 (Hfile filesDir runsc w_file_missing
                     "no such file or directory" _)). reflexivity.
  - refine (proj1 (Hscripts provisioningScripts scriptDir remoteScriptDir w_script_missing
                     1 "install-drivers.sh" "no such file or directory" _ _ _ _)).
    + reflexivity.
    + reflexivity.
    + vm_compute. repeat constructor.
    + reflexivity.
  - refine (proj1 (Hfiles fileDeployments filesDir w_file_missing 0 runsc
                     "no such file or directory" _ _ _)).
    + reflexivity.
    + vm_compute. constructor.
    + reflexivity.
Defined.

Lemma C6_witness :
  (val (client.WaitForVMReady key 7 w_never_ready)
     = inl "VM did not become ready with floating IP within timeout"
   ∧ http_count (evs (client.WaitForVMReady key 7 w_never_ready)) = 60)
  ∧ (val (client.WaitForVMReady key 7 w_ready_third) = inr "203.0.113.9"
     ∧ http_count (evs (client.WaitForVMReady key 7 w_ready_third)) = 3)
  ∧ (val (client.WaitForSnapshotReady key 9 w_snapshot_never_ready)
       = Some "snapshot did not become ready within timeout"
     ∧ http_count (evs (client.WaitForSnapshotReady key 9 w_snapshot_never_ready)) = 120)
  ∧ (val (client.WaitForSnapshotReady key 9 w_snapshot_second) = None
     ∧ http_count (evs (client.WaitForSnapshotReady key 9 w_snapshot_second)) = 2).
Proof.
  split; [|split; [|split]].
  - apply (proj1 (C6_poll_caps key 7 9 w_never_ready)).
    vm_compute. repeat (constructor; [eexists; split; reflexivity|]). constructor.
  - apply (proj1 (proj2 (C6_poll_caps key 7 9 w_ready_third)) 2
             (vm0 "ACTIVE" "203.0.113.9" "ATTACHED")).
    + vm_compute. reflexivity.
    + reflexivity.
    + vm_compute. repeat (constructor; [eexists; split; reflexivity|]). constructor.
  - apply (proj1 (proj2 (proj2 (C6_poll_caps key 7 9 w_snapshot_never_ready)))).
    vm_compute. repeat (constructor; [eexists; split; reflexivity|]). constructor.
  - apply (proj2 (proj2 (proj2 (C6_poll_caps key 7 9 w_snapshot_second))) 1
             (snap0 "SUCCESS")).
    + vm_compute. reflexivity.
    + reflexivity.
    + vm_compute. repeat (constructor; [eexists; split; reflexivity|]). constructor.
Defined.


Lemma C8_witness :
  let r := goslice.build_imageLabels (λ old needed, 2 * old) heap0 tags0 in
  let labels := [ "k8s"; "gpu"; "kubernetes.io/os=linux"; "kubernetes.io/arch=amd64";
                  "nvidia.com/gpu=true"; "nvidia.com/cuda=true";
                  "container.runtime=docker"; "image.type=kubernetes-node" ] in
  goslice.valid heap0 tags0
  ∧ goslice.read heap0 tags0 = Tags cfg_two_tags
  ∧ goslice.read r.1 r.2 = ["k8s"; "gpu"] ++ platformLabels
  ∧ goslice.read r.1 tags0 = ["k8s"; "gpu"]
  ∧ r.1 !! 1 = Some ["k8s"; "gpu"; ""]
  ∧ val (main "key" cfg_two_tags w_good) = ExitOK
  ∧ (∃ req res b,
       EvHttp req res ∈ evs (main "key" cfg_two_tags w_good)
       ∧ req_body req = Some (BodyImageCreate b) ∧ imgreq_Labels b = labels)
  ∧ evs (main "key" cfg_two_tags w_good) !! 57
    = Some (EvHttp
              (mkRequest "POST"
                 (client.HyperstackAPIBase +:+ "/core/snapshots/9/image") "key"
                 (Some (BodyImageCreate
                          {| imgreq_Name := "kubernetes_gpu_cuda_1.0";
                             imgreq_Labels := labels |})))
              (ok body_image)).
Proof.
  intros r labels.
  assert (goslice.valid heap0 tags0) as Hv.
  { split; [cbn; lia|]. right. exists ["k8s"; "gpu"; ""]. split; [reflexivity | cbn; lia]. }
  assert (goslice.read heap0 tags0 = Tags cfg_two_tags) as Ht by reflexivity.
  destruct (C8_image_labels "key" cfg_two_tags w_good (λ old needed, 2 * old)
              heap0 tags0 Hv Ht) as (Hall & Hsent & _ & Hl & Htags & Hframe).
  split; [exact Hv|]. split; [exact Ht|]. split; [exact Hl|]. split; [exact Htags|].
  split.
  { fold r in Hframe. rewrite (Hframe 1); [reflexivity|].
    apply elem_of_dom. by eexists. }
  assert (val (main "key" cfg_two_tags w_good) = ExitOK) as Hok by (vm_compute; reflexivity).
  split; [exact Hok|]. split.
  - destruct (Hsent Hok) as (req & res & b & Hin & _ & Hb & _ & Hlabels).
    exists req, res, b. split; [exact Hin|]. split; [exact Hb | exact Hlabels].
  - vm_compute. reflexivity.
Defined.

Lemma C9_witness :
  never_established unconnected
  ∧ ssh.Close unconnected w_good = mkOut None w_good []
  ∧ ssh.ExecuteCommand unconnected "uname -a" w_good
    = mkOut (Some "SSH connection not established") w_good []
  ∧ ssh.CopyFile unconnected "runsc.toml" "/tmp/runsc.toml" w_good
    = mkOut (Some "SSH connection not established") w_good [].
Proof.
  assert (never_established unconnected) as Hne.
  { apply (ne_new "/home/builder/.ssh/id_rsa" "ubuntu" w_good). reflexivity. }
  destruct (C9_never_established_is_safe unconnected Hne) as (Hclose & Hrun & Hcopy).
  split; [exact Hne|]. split; [apply Hclose|]. split; [apply Hrun | apply Hcopy].
Defined.

(** C10: on [w_denied_mkdir_fails] the stat of the local file fails with
    "permission denied", the check passes, the remote directory
    creation fails and the step ends there: no upload is attempted. *)
Lemma C10_counterexample :
  ¬ other_stat_failure_reaches_upload connected filesDir runsc w_denied_mkdir_fails.
Proof.
  intros Hclaim. destruct Hclaim as [r Hin]; [by eexists|].
  vm_compute in Hin.
  repeat (apply elem_of_cons in Hin as [Hin|Hin]; [discriminate|]).
  by apply elem_of_nil in Hin.
Qed.

Lemma C10_witness :
  ssh.client connected = Some 1
  ∧ val (executeScripts_body connected scriptDir remoteScriptDir "install-drivers.sh"
           w_denied)
    = Some "failed to copy script install-drivers.sh: failed to open local file: permission denied"
  ∧ val (deployFiles_body connected filesDir runsc w_denied)
    = Some "failed to copy file runsc.toml: failed to open local file: permission denied"
  ∧ val (deployFiles_body connected filesDir runsc w_denied_mkdir_fails)
    = Some "failed to create remote directory /etc/containerd: command failed: Process exited with status 1".
Proof.
  assert (ssh.client connected = Some 1) as Hc by reflexivity.
  destruct (@C10_precheck_catches_only_not_exist World world_sys connected 1 Hc)
    as (Hscript & Hfile).
  split; [exact Hc|]. split; [|split].
  - destruct (Hscript scriptDir remoteScriptDir "install-drivers.sh" w_denied)
      as (_ & Hgo).
    refine (proj1 (proj2 (proj2 (Hgo _)) _ _)); [intros e0; discriminate | reflexivity].
  - destruct (Hfile filesDir runsc w_denied) as (_ & Hgo).
    refine (proj1 (proj2 (proj2 (proj2 (proj2 (Hgo _)) _)) _ _));
      [intros e0; discriminate | reflexivity | reflexivity].
  - destruct (Hfile filesDir runsc w_denied_mkdir_fails) as (_ & Hgo).
    refine (proj1 (proj1 (proj2 (Hgo _)) _ _)); [intros e0; discriminate | reflexivity].
Defined.

End Witnesses.

(** * Further properties of the code *)

Section MoreFacts.
Context {W : Type} `{Sys W}.

Lemma count_app f l1 l2 : count f (l1 ++ l2) = count f l1 + count f l2.
Proof. unfold count. by rewrite filter_app, length_app. Qed.

Lemma count_cons f e l : count f (e :: l) = (if f e then 1 else 0) + count f l.
Proof.
  unfold count. destruct (f e) eqn:He.
  - by rewrite filter_cons_True.
  - rewrite filter_cons_False; [done|]. by rewrite He.
Qed.

(** One attempt of [Connect], by what the dial gets. *)
Lemma Connect_loop_S n c host last w :
  let r := sys_dial (host +:+ ":22") (ssh.config c) w in
  ssh.Connect_loop (S n) c host last w =
  match r.1 with
  | inr conn =>
    mkOut (ssh.mkClient (ssh.config c) (Some conn), None) r.2
          [EvDial (host +:+ ":22") (inr conn)]
  | inl e =>
    let o := ssh.Connect_loop n (ssh.mkClient (ssh.config c) None) host (Some e)
               (sys_sleep 10 r.2) in
    mkOut (val o) (post o) (EvDial (host +:+ ":22") (inl e) :: EvSleep 10 :: evs o)
  end.
Proof.
  cbn. unfold bind, call, ssh.sleep, ret. cbn.
  destruct (sys_dial _ _ w) as [[e|conn] w1]; cbn; done.
Qed.


Lemma Connect_loop_exhausted n c host prev w e :
  Forall refused (dials (S n) (ssh.config c) host w) →
  dials (S n) (ssh.config c) host w !! n = Some (inl e) →
  let o := ssh.Connect_loop (S n) c host prev w in
  val o = (ssh.mkClient (ssh.config c) None,
           Some ("failed to connect after 30 attempts: " +:+ e))
  ∧ count is_dial (evs o) = S n ∧ count is_sleep (evs o) = S n.
Proof.
  revert c prev w. induction n as [|n IH]; intros c prev w Hall Hlast o; subst o.
  - rewrite Connect_loop_S. cbn zeta. cbn [dials] in Hlast. injection Hlast as Hlast.
    rewrite Hlast. done.
  - rewrite Connect_loop_S. cbn zeta.
    remember (S n) as m eqn:Hm. cbn [dials] in Hall, Hlast.
    apply Forall_cons in Hall as [[e1 He1] Hall]. rewrite He1. cbn [val evs].
    rewrite Hm in Hlast. cbn [lookup list_lookup] in Hlast. rewrite <- Hm in Hlast.
    subst m.
    destruct (IH (ssh.mkClient (ssh.config c) None) (Some e1) _ Hall Hlast)
      as (Hv & Hd & Hs).
    cbn [ssh.config] in *. rewrite Hv. split; [done|].
    rewrite !count_cons, Hd, Hs. done.
Qed.

Lemma Connect_loop_first n c host prev w k conn :
  dials n (ssh.config c) host w !! k = Some (inr conn) →
  Forall refused (take k (dials n (ssh.config c) host w)) →
  let o := ssh.Connect_loop n c host prev w in
  val o = (ssh.mkClient (ssh.config c) (Some conn), None)
  ∧ count is_dial (evs o) = S k ∧ count is_sleep (evs o) = k.
Proof.
  revert n c prev w. induction k as [|k IH]; intros [|n] c prev w Hk Hall o; subst o;
    try done.
  - rewrite Connect_loop_S. cbn zeta. cbn [dials] in Hk. injection Hk as Hk.
    rewrite Hk. done.
  - rewrite Connect_loop_S. cbn zeta. cbn [dials] in Hk, Hall. cbn [take] in Hall.
    apply Forall_cons in Hall as [[e1 He1] Hall]. rewrite He1. cbn [val evs].
    cbn [lookup list_lookup] in Hk.
    destruct (IH n (ssh.mkClient (ssh.config c) None) (Some e1) _ Hk Hall)
      as (Hv & Hd & Hs).
    cbn [ssh.config] in *. rewrite Hv. split; [done|].
    rewrite !count_cons, Hd, Hs. done.
Qed.

(** X1.  [Connect] dials at most 30 times, ten seconds apart.  When the dial
    of index [k] is the first to be accepted, [Connect] returns no error and
    a client holding that connection, after [k + 1] dials and [k] sleeps.
    When all 30 dials are refused it returns "failed to connect after 30
    attempts" with the error of the last dial, after 30 dials and 30 sleeps
    (the last sleep is not skipped), and the client it leaves holds no
    connection, whatever it held before. *)
Theorem X1_Connect_retries (c : ssh.Client) (host : string) (w : W) :
  let attempts := dials 30 (ssh.config c) host w in
  let o := ssh.Connect c host w in
  (∀ k conn,
     attempts !! k = Some (inr conn) → Forall refused (take k attempts) →
     val o = (ssh.mkClient (ssh.config c) (Some conn), None)
     ∧ count is_dial (evs o) = S k ∧ count is_sleep (evs o) = k)
  ∧ (∀ e,
     Forall refused attempts → attempts !! 29 = Some (inl e) →
     val o = (ssh.mkClient (ssh.config c) None,
              Some ("failed to connect after 30 attempts: " +:+ e))
     ∧ count is_dial (evs o) = 30 ∧ count is_sleep (evs o) = 30).
Proof.
  cbn zeta. unfold ssh.Connect. split.
  - intros k conn. apply Connect_loop_first.
  - intros e. apply Connect_loop_exhausted.
Qed.

(** *** Remote commands of the pipeline *)

Lemma runs_app l1 l2 : runs (l1 ++ l2) = runs l1 ++ runs l2.
Proof. unfold runs. apply omap_app. Qed.

Lemma RunsInOrder_ret_error (e : Err) cmds : RunsInOrder (W:=W) (ret (Some e)) cmds.
Proof. intros w. split; [apply prefix_nil | done]. Qed.

Lemma RunsInOrder_ret_ok : RunsInOrder (W:=W) (ret None) [].
Proof. intros w. by split. Qed.

(** Sequencing: [k] goes on only after [m] returned no error. *)
Lemma RunsInOrder_seq (m : M W (option Err)) (k : option Err → M W (option Err)) A B :
  RunsInOrder m A →
  (∀ e, RunsInOrder (k (Some e)) []) →
  (∀ e w, val (k (Some e) w) ≠ None) →
  RunsInOrder (k None) B →
  RunsInOrder (bind m k) (A ++ B).
Proof.
  intros Hm Herr Hne Hk w. rewrite evs_bind, val_bind, runs_app.
  destruct (Hm w) as [Hpre Hall]. destruct (val (m w)) as [e|].
  - destruct (Herr e (post (m w))) as [Hnil _]. apply prefix_nil_inv in Hnil.
    rewrite Hnil, app_nil_r. split; [by apply prefix_app_r|].
    intros Hv. by destruct (Hne e (post (m w))).
  - rewrite (Hall eq_refl). destruct (Hk (post (m w))) as [Hpre' Hall'].
    split; [by apply prefix_app|]. intros Hv. by rewrite (Hall' Hv).
Qed.

Lemma RunsInOrder_ExecuteCommand c command : RunsInOrder (ssh.ExecuteCommand c command) [command].
Proof.
  intros w. unfold ssh.ExecuteCommand. destruct (ssh.client c) as [conn|].
  2: { split; [apply prefix_nil | done]. }
  unfold bind, call. cbn zeta. cbn [val post evs].
  destruct (sys_newSession conn w).1 as [e|s]; cbn [val post evs app].
  { split; [apply prefix_nil | done]. }
  destruct (sys_run s command _).1; cbn; done.
Qed.

Lemma RunsInOrder_CopyFile c localPath remotePath :
  RunsInOrder (ssh.CopyFile c localPath remotePath) ["scp -t " +:+ remotePath].
Proof.
  intros w. unfold ssh.CopyFile. destruct (ssh.client c) as [conn|].
  2: { split; [apply prefix_nil | done]. }
  unfold bind, call. cbn zeta. cbn [val post evs].
  destruct (sys_open localPath w).1; cbn [val post evs app].
  { split; [apply prefix_nil | done]. }
  destruct (sys_fstat localPath _).1; cbn [val post evs app].
  { split; [apply prefix_nil | done]. }
  destruct (sys_newSession conn _).1 as [e|s]; cbn [val post evs app].
  { split; [apply prefix_nil | done]. }
  destruct (sys_run s _ _).1; cbn; done.
Qed.

Lemma RunsInOrder_ExecuteScript c scriptPath :
  RunsInOrder (ssh.ExecuteScript c scriptPath) ["chmod +x " +:+ scriptPath; scriptPath].
Proof.
  unfold ssh.ExecuteScript.
  apply (RunsInOrder_seq _ _ [_] [_]); [apply RunsInOrder_ExecuteCommand| | |].
  - intros e. apply RunsInOrder_ret_error.
  - done.
  - rewrite <- (app_nil_r [scriptPath]).
    apply (RunsInOrder_seq _ _ [_] []); [apply RunsInOrder_ExecuteCommand| | |].
    + intros e. apply RunsInOrder_ret_error.
    + done.
    + apply RunsInOrder_ret_ok.
Qed.

Lemma RunsInOrder_for_range {A} (body : A → M W (option Err)) (cmds : A → list string) xs :
  (∀ x, RunsInOrder (body x) (cmds x)) →
  RunsInOrder (for_range body xs) (flat_map cmds xs).
Proof.
  intros Hb. induction xs as [|x xs IH]; cbn [for_range flat_map].
  - apply RunsInOrder_ret_ok.
  - apply RunsInOrder_seq; [apply Hb| | |exact IH].
    + intros e. apply RunsInOrder_ret_error.
    + done.
Qed.

Lemma RunsInOrder_executeScripts_body c sdir rdir script :
  RunsInOrder (executeScripts_body c sdir rdir script) (script_commands rdir script).
Proof.
  intros w. unfold executeScripts_body. rewrite evs_bind, val_bind, runs_app.
  change (runs (evs (call _ _ w))) with (@nil string). cbn [app].
  set (w1 := post (call _ _ w)).
  assert (RunsInOrder
            (r <- ssh.CopyFile c (pathJoin sdir script) (pathJoin rdir script) ;;
             match r with
             | Some err => ret (Some ("failed to copy script " +:+ script +:+ ": " +:+ err))
             | None =>
               r0 <- ssh.ExecuteScript c (pathJoin rdir script) ;;
               match r0 with
               | Some err =>
                 ret (Some ("failed to execute script " +:+ script +:+ ": " +:+ err))
               | None => ret None
               end
             end) (script_commands rdir script)) as Hrest.
  { apply (RunsInOrder_seq _ _ [_] [_; _]); [apply RunsInOrder_CopyFile| | |].
    - intros e. apply RunsInOrder_ret_error.
    - done.
    - rewrite <- (app_nil_r [_; _]).
      apply (RunsInOrder_seq _ _ [_; _] []); [apply RunsInOrder_ExecuteScript| | |].
      + intros e. apply RunsInOrder_ret_error.
      + done.
      + apply RunsInOrder_ret_ok. }
  destruct (val (call _ _ w)); try apply Hrest.
  split; [apply prefix_nil | done].
Qed.

Lemma RunsInOrder_deployFiles_body c fdir d :
  RunsInOrder (deployFiles_body c fdir d) (deploy_commands d).
Proof.
  intros w. unfold deployFiles_body. rewrite evs_bind, val_bind, runs_app.
  change (runs (evs (call _ _ w))) with (@nil string). cbn [app].
  set (w1 := post (call _ _ w)).
  assert (RunsInOrder
            (r <- ssh.ExecuteCommand c ("sudo mkdir -p " +:+ pathDir (RemotePath d)) ;;
             match r with
             | Some err =>
               ret (Some ("failed to create remote directory " +:+ pathDir (RemotePath d)
                          +:+ ": " +:+ err))
             | None =>
               r0 <- ssh.CopyFile c (pathJoin fdir (LocalPath d))
                       ("/tmp/" +:+ pathBase (LocalPath d)) ;;
               match r0 with
               | Some err =>
                 ret (Some ("failed to copy file " +:+ LocalPath d +:+ ": " +:+ err))
               | None =>
                 r1 <- ssh.ExecuteCommand c
                         ("sudo mv " +:+ ("/tmp/" +:+ pathBase (LocalPath d)) +:+ " "
                          +:+ RemotePath d) ;;
                 match r1 with
                 | Some err =>
                   ret (Some ("failed to move file to " +:+ RemotePath d +:+ ": " +:+ err))
                 | None => ret None
                 end
               end
             end) (deploy_commands d)) as Hrest.
  { apply (RunsInOrder_seq _ _ [_] [_; _]); [apply RunsInOrder_ExecuteCommand| | |].
    - intros e. apply RunsInOrder_ret_error.
    - done.
    - apply (RunsInOrder_seq _ _ [_] [_]); [apply RunsInOrder_CopyFile| | |].
      + intros e. apply RunsInOrder_ret_error.
      + done.
      + rewrite <- (app_nil_r [_]).
        apply (RunsInOrder_seq _ _ [_] []); [apply RunsInOrder_ExecuteCommand| | |].
        * intros e. apply RunsInOrder_ret_error.
        * done.
        * apply RunsInOrder_ret_ok. }
  destruct (val (call _ _ w)); try apply Hrest.
  split; [apply prefix_nil | done].
Qed.

(** *** Stopping at the first failed call *)

Lemma stops_prepend e0 v l :
  failed e0 = false → stops_at_failure v l → stops_at_failure v (e0 :: l).
Proof.
  intros He. destruct v as [err|]; cbn.
  - intros (good & e & -> & Hg & Hf). exists (e0 :: good), e.
    split; [done|]. split; [by constructor | done].
  - by constructor.
Qed.

Lemma Stops_ret_ok : StopsAtFailure (W:=W) (ret None).
Proof. intros w. constructor. Qed.

(** Sequencing: [k] only wraps the error of [m], and goes on after its
    success. *)
Lemma Stops_seq (m : M W (option Err)) (k : option Err → M W (option Err)) :
  StopsAtFailure m →
  (∀ e w, evs (k (Some e) w) = [] ∧ val (k (Some e) w) ≠ None) →
  StopsAtFailure (k None) →
  StopsAtFailure (bind m k).
Proof.
  intros Hm Herr Hk w. rewrite evs_bind, val_bind. specialize (Hm w).
  destruct (val (m w)) as [e|].
  - destruct (Herr e (post (m w))) as [Hnil Hne]. rewrite Hnil, app_nil_r.
    destruct (val (k (Some e) (post (m w)))) as [err|]; [exact Hm | done].
  - specialize (Hk (post (m w))). cbn in Hm.
    destruct (val (k None (post (m w)))) as [err|]; cbn in Hk |- *.
    + destruct Hk as (good & ev & Hl & Hg & Hf). exists (evs (m w) ++ good), ev.
      rewrite Hl, app_assoc. split; [done|]. split; [by apply Forall_app | done].
    + by apply Forall_app.
Qed.

Lemma Stops_ExecuteCommand c conn command :
  ssh.client c = Some conn → StopsAtFailure (ssh.ExecuteCommand c command).
Proof.
  intros Hc w. unfold ssh.ExecuteCommand. rewrite Hc.
  unfold bind, call. cbn zeta. cbn [val post evs].
  destruct (sys_newSession conn w).1 as [e|s]; cbn [val post evs app].
  { by exists [], (EvNewSession conn (inl e)). }
  destruct (sys_run s command _).1 as [e|]; cbn [val post evs app].
  - exists [EvNewSession conn (inr s)], (EvRun s command (Some e)).
    split; [done|]. split; [by repeat constructor | done].
  - by repeat constructor.
Qed.

Lemma Stops_CopyFile c conn localPath remotePath :
  ssh.client c = Some conn → StopsAtFailure (ssh.CopyFile c localPath remotePath).
Proof.
  intros Hc w. unfold ssh.CopyFile. rewrite Hc.
  unfold bind, call. cbn zeta. cbn [val post evs].
  destruct (sys_open localPath w).1 as [e|]; cbn [val post evs app].
  { by exists [], (EvOpen localPath (Some e)). }
  destruct (sys_fstat localPath _).1 as [e|sz]; cbn [val post evs app].
  { exists [EvOpen localPath None], (EvFileStat localPath (inl e)).
    split; [done|]. split; [by repeat constructor | done]. }
  destruct (sys_newSession conn _).1 as [e|s]; cbn [val post evs app].
  { exists [EvOpen localPath None; EvFileStat localPath (inr sz)],
      (EvNewSession conn (inl e)).
    split; [done|]. split; [by repeat constructor | done]. }
  destruct (sys_run s _ _).1 as [e|]; cbn [val post evs app].
  - exists [EvOpen localPath None; EvFileStat localPath (inr sz);
            EvNewSession conn (inr s)],
      (EvRun s ("scp -t " +:+ remotePath) (Some e)).
    split; [done|]. split; [by repeat constructor | done].
  - by repeat constructor.
Qed.

Lemma Stops_ExecuteScript c conn scriptPath :
  ssh.client c = Some conn → StopsAtFailure (ssh.ExecuteScript c scriptPath).
Proof.
  intros Hc. unfold ssh.ExecuteScript.
  apply Stops_seq; [by eapply Stops_ExecuteCommand | done |].
  apply Stops_seq; [by eapply Stops_ExecuteCommand | done | apply Stops_ret_ok].
Qed.

Lemma Stops_for_range {A} (body : A → M W (option Err)) xs :
  (∀ x, StopsAtFailure (body x)) → StopsAtFailure (for_range body xs).
Proof.
  intros Hb. induction xs as [|x xs IH]; cbn [for_range].
  - apply Stops_ret_ok.
  - apply Stops_seq; [apply Hb | done | exact IH].
Qed.

Lemma Stops_executeScripts_body c conn sdir rdir script :
  ssh.client c = Some conn → StopsAtFailure (executeScripts_body c sdir rdir script).
Proof.
  intros Hc w. unfold executeScripts_body. rewrite evs_bind, val_bind.
  assert (StopsAtFailure
            (r <- ssh.CopyFile c (pathJoin sdir script) (pathJoin rdir script) ;;
             match r with
             | Some err => ret (Some ("failed to copy script " +:+ script +:+ ": " +:+ err))
             | None =>
               r0 <- ssh.ExecuteScript c (pathJoin rdir script) ;;
               match r0 with
               | Some err =>
                 ret (Some ("failed to execute script " +:+ script +:+ ": " +:+ err))
               | None => ret None
               end
             end)) as Hrest.
  { apply Stops_seq; [by eapply Stops_CopyFile | done |].
    apply Stops_seq; [by eapply Stops_ExecuteScript | done | apply Stops_ret_ok]. }
  unfold call. cbn [val post evs app].
  destruct (sys_stat (pathJoin sdir script) w).1 as [|e|e];
    try (apply stops_prepend; [done | apply Hrest]).
  by exists [], (EvStat (pathJoin sdir script) (StatNotExist e)).
Qed.

Lemma Stops_deployFiles_body c conn fdir d :
  ssh.client c = Some conn → StopsAtFailure (deployFiles_body c fdir d).
Proof.
  intros Hc w. unfold deployFiles_body. rewrite evs_bind, val_bind.
  assert (StopsAtFailure
            (r <- ssh.ExecuteCommand c ("sudo mkdir -p " +:+ pathDir (RemotePath d)) ;;
             match r with
             | Some err =>
               ret (Some ("failed to create remote directory " +:+ pathDir (RemotePath d)
                          +:+ ": " +:+ err))
             | None =>
               r0 <- ssh.CopyFile c (pathJoin fdir (LocalPath d))
                       ("/tmp/" +:+ pathBase (LocalPath d)) ;;
               match r0 with
               | Some err =>
                 ret (Some ("failed to copy file " +:+ LocalPath d +:+ ": " +:+ err))
               | None =>
                 r1 <- ssh.ExecuteCommand c
                         ("sudo mv " +:+ ("/tmp/" +:+ pathBase (LocalPath d)) +:+ " "
                          +:+ RemotePath d) ;;
                 match r1 with
                 | Some err =>
                   ret (Some ("failed to move file to " +:+ RemotePath d +:+ ": " +:+ err))
                 | None => ret None
                 end
               end
             end)) as Hrest.
  { apply Stops_seq; [by eapply Stops_ExecuteCommand | done |].
    apply Stops_seq; [by eapply Stops_CopyFile | done |].
    apply Stops_seq; [by eapply Stops_ExecuteCommand | done | apply Stops_ret_ok]. }
  unfold call. cbn [val post evs app].
  destruct (sys_stat (pathJoin fdir (LocalPath d)) w).1 as [|e|e];
    try (apply stops_prepend; [done | apply Hrest]).
  by exists [], (EvStat (pathJoin fdir (LocalPath d)) (StatNotExist e)).
Qed.

(** X2.  [executeScripts] runs on the host, in this order and stopping at
    the first failure: "mkdir -p" of the scratch directory, then for each
    script in list order its upload ("scp -t"), "chmod +x" and the script
    itself.  Whatever happens the commands it ran are the first of that
    list, and when it returns no error it ran them all.  On a connected
    client it returns no error exactly when none of its calls failed, and
    when it returns an error the failed call is the last of its log: no
    command is run after a failed one, and none of the calls before it
    failed. *)
Theorem X2_executeScripts_commands (c : ssh.Client) (scripts : list string)
    (sdir rdir : string) (w : W) :
  let o := executeScripts c scripts sdir rdir w in
  let cmds := ("mkdir -p " +:+ rdir)
              :: flat_map (λ script,
                   [ "scp -t " +:+ pathJoin rdir script;
                     "chmod +x " +:+ pathJoin rdir script;
                     pathJoin rdir script ]) scripts in
  runs (evs o) `prefix_of` cmds
  ∧ (val o = None → runs (evs o) = cmds)
  ∧ (∀ conn, ssh.client c = Some conn →
       match val o with
       | None => Forall (λ e, failed e = false) (evs o)
       | Some _ =>
         ∃ good e, evs o = good ++ [e]
                   ∧ Forall (λ e, failed e = false) good ∧ failed e = true
       end).
Proof.
  cbn zeta.
  assert (RunsInOrder (executeScripts c scripts sdir rdir)
            (["mkdir -p " +:+ rdir] ++ flat_map (script_commands rdir) scripts)) as Hr.
  { unfold executeScripts.
    apply RunsInOrder_seq; [apply RunsInOrder_ExecuteCommand| | |].
    - intros e. apply RunsInOrder_ret_error.
    - done.
    - apply RunsInOrder_for_range. intros script. apply RunsInOrder_executeScripts_body. }
  destruct (Hr w) as [Hp Hall]. split; [exact Hp|]. split; [exact Hall|].
  intros conn Hc.
  assert (StopsAtFailure (executeScripts c scripts sdir rdir)) as Hs.
  { unfold executeScripts.
    apply Stops_seq; [by eapply Stops_ExecuteCommand | done |].
    apply Stops_for_range. intros script. by eapply Stops_executeScripts_body. }
  exact (Hs w).
Qed.

(** X3.  [deployFiles] never uploads to a destination directly.  For each
    deployment in list order it runs "sudo mkdir -p" of the destination's
    directory, uploads to "/tmp/" followed by the base name of the local
    path, and moves that file to the destination with "sudo mv"; it stops
    at the first failure.  The commands it ran are always the first of that
    list, and all of it when it returns no error.  On a connected client it
    returns no error exactly when none of its calls failed, and when it
    returns an error the failed call is the last of its log: no command is
    run after a failed one, and none of the calls before it failed. *)
Theorem X3_deployFiles_commands (c : ssh.Client) (deployments : list FileDeployment)
    (fdir : string) (w : W) :
  let o := deployFiles c deployments fdir w in
  let cmds := flat_map (λ d,
                [ "sudo mkdir -p " +:+ pathDir (RemotePath d);
                  "scp -t " +:+ "/tmp/" +:+ pathBase (LocalPath d);
                  "sudo mv " +:+ ("/tmp/" +:+ pathBase (LocalPath d)) +:+ " "
                  +:+ RemotePath d ]) deployments in
  runs (evs o) `prefix_of` cmds
  ∧ (val o = None → runs (evs o) = cmds)
  ∧ (∀ conn, ssh.client c = Some conn →
       match val o with
       | None => Forall (λ e, failed e = false) (evs o)
       | Some _ =>
         ∃ good e, evs o = good ++ [e]
                   ∧ Forall (λ e, failed e = false) good ∧ failed e = true
       end).
Proof.
  cbn zeta.
  assert (RunsInOrder (deployFiles c deployments fdir)
            (flat_map deploy_commands deployments)) as Hr.
  { unfold deployFiles. apply RunsInOrder_for_range. intros d.
    apply RunsInOrder_deployFiles_body. }
  destruct (Hr w) as [Hp Hall]. split; [exact Hp|]. split; [exact Hall|].
  intros conn Hc.
  assert (StopsAtFailure (deployFiles c deployments fdir)) as Hs.
  { unfold deployFiles. apply Stops_for_range. intros d.
    by eapply Stops_deployFiles_body. }
  exact (Hs w).
Qed.

(** *** Calls that all satisfy a predicate *)

Lemma Always_ret {A} P (a : A) : Always (W:=W) P (ret a).
Proof. intros w. apply Forall_nil_2. Qed.

Lemma Always_bind {A B} P (m : M W A) (k : A → M W B) :
  Always P m → (∀ a, Always P (k a)) → Always P (bind m k).
Proof. intros Hm Hk w. rewrite evs_bind. apply Forall_app. split; [apply Hm | apply Hk]. Qed.

Lemma Always_call {A} P (f : W → A * W) (ev : A → Event) :
  (∀ a, P (ev a)) → Always P (call f ev).
Proof. intros Hev w. by apply Forall_singleton. Qed.

Lemma Always_emit P e : P e → Always (W:=W) P (emit e).
Proof. intros He w. by apply Forall_singleton. Qed.

Lemma Always_for_range {A} P (body : A → M W (option Err)) xs :
  (∀ x, Always P (body x)) → Always P (for_range body xs).
Proof.
  intros Hb. induction xs as [|x xs IH]; cbn [for_range]; [apply Always_ret|].
  apply Always_bind; [apply Hb|]. intros [e|]; [apply Always_ret | exact IH].
Qed.

Lemma count_Always_0 f l : Forall (λ e, f e = false) l → count f l = 0.
Proof.
  induction 1 as [|e l He _ IH]; [done|]. by rewrite count_cons, He, IH.
Qed.

Ltac always_step :=
  lazymatch goal with
  | |- Always _ (ret _) => apply Always_ret
  | |- Always _ (call _ _) => apply Always_call; intros; reflexivity
  | |- Always _ (emit _) => apply Always_emit; reflexivity
  | |- Always _ (bind _ _) => apply Always_bind; [|intros ?]
  | |- Always _ (for_range _ _) => apply Always_for_range; intros ?
  | |- Always _ (let _ := _ in _) => cbv zeta
  | |- Always _ (match ?x with _ => _ end) => destruct x
  end.

Lemma open_Connect_loop n c host prev : Always (λ e, is_close e = false)
                                          (ssh.Connect_loop n c host prev).
Proof.
  revert c prev. induction n as [|n IH]; intros c prev; cbn [ssh.Connect_loop];
    [apply Always_ret|].
  unfold ssh.sleep. repeat first [apply IH | always_step].
Qed.

Lemma open_executeScripts c scripts sdir rdir :
  Always (λ e, is_close e = false) (executeScripts c scripts sdir rdir).
Proof.
  unfold executeScripts, executeScripts_body, ssh.ExecuteScript, ssh.ExecuteCommand,
    ssh.CopyFile.
  repeat always_step.
Qed.

Lemma open_deployFiles c deployments fdir :
  Always (λ e, is_close e = false) (deployFiles c deployments fdir).
Proof.
  unfold deployFiles, deployFiles_body, ssh.ExecuteCommand, ssh.CopyFile.
  repeat always_step.
Qed.

Lemma open_ExecuteCommand c command :
  Always (λ e, is_close e = false) (ssh.ExecuteCommand c command).
Proof. unfold ssh.ExecuteCommand. repeat always_step. Qed.

Lemma open_New privateKeyPath username :
  Always (λ e, is_close e = false) (ssh.New privateKeyPath username).
Proof. unfold ssh.New. repeat always_step. Qed.

Lemma Connect_loop_ok n c host prev w c' :
  val (ssh.Connect_loop n c host prev w) = (c', None) → ∃ conn, ssh.client c' = Some conn.
Proof.
  revert c prev w. induction n as [|n IH]; intros c prev w; [done|].
  rewrite Connect_loop_S. cbn zeta.
  destruct (sys_dial _ _ w).1 as [e|conn]; cbn [val].
  - apply IH.
  - intros [= <-]. by eexists.
Qed.

(** X4.  [executeProvisioningScripts] closes the connection exactly once on
    every return that follows a successful [Connect], as its last call and
    on the connection [Connect] obtained; when [New] fails it makes no
    network call at all, and when [Connect] fails it closes nothing. *)
Theorem X4_connection_closed_once (scripts : list string)
    (deployments : list FileDeployment) (vmIP privateKeyPath : string) (w : W) :
  let o := executeProvisioningScripts_with scripts deployments vmIP privateKeyPath w in
  let n := ssh.New privateKeyPath "ubuntu" w in
  (∀ e, val n = inl e →
     val o = Some ("failed to create SSH client: " +:+ e)
     ∧ evs o = evs n ∧ Forall (λ e, is_remote e = false) (evs o))
  ∧ (∀ c0, val n = inr c0 →
     let cn := ssh.Connect c0 vmIP (post n) in
     (∀ e, (val cn).2 = Some e →
        val o = Some ("failed to connect to VM: " +:+ e)
        ∧ evs o = evs n ++ evs cn ∧ count is_close (evs o) = 0)
     ∧ ((val cn).2 = None →
        count is_close (evs o) = 1
        ∧ ∃ conn r pre, ssh.client (val cn).1 = Some conn
                        ∧ evs o = pre ++ [EvConnClose conn r])).
Proof.
  cbn zeta. unfold executeProvisioningScripts_with.
  pose proof (open_New privateKeyPath "ubuntu" w) as Hn.
  assert (Forall (λ e, is_remote e = false) (evs (ssh.New privateKeyPath "ubuntu" w)))
    as Hlocal.
  { clear Hn. revert w.
    change (Always (λ e, is_remote e = false) (ssh.New privateKeyPath "ubuntu")).
    unfold ssh.New. repeat always_step. }
  rewrite !val_bind, !evs_bind.
  destruct (ssh.New privateKeyPath "ubuntu" w) as [vn pn en]. cbn [val post evs] in *.
  split.
  { intros e ->. cbn [ret val evs]. rewrite app_nil_r. done. }
  intros c0 ->. rewrite !val_bind, !evs_bind.
  pose proof (open_Connect_loop 30 c0 vmIP None pn) as Hcn.
  pose proof (Connect_loop_ok 30 c0 vmIP None pn) as Hok.
  fold (ssh.Connect c0 vmIP) in Hcn, Hok.
  destruct (ssh.Connect c0 vmIP pn) as [[c' ce] pc ec]. cbn [val post evs fst snd] in *.
  split.
  { intros e ->. cbn [ret val evs]. rewrite app_nil_r. split; [done|]. split; [done|].
    rewrite count_app, !count_Always_0 by done. done. }
  intros ->. destruct (Hok c' eq_refl) as [conn Hconn].
  rewrite ?val_bind, ?evs_bind.
  pose proof (open_executeScripts c' scripts scriptDir remoteScriptDir pc) as Hs.
  destruct (executeScripts c' scripts scriptDir remoteScriptDir pc) as [vs ps es].
  cbn [val post evs] in *.
  assert (∀ w', evs (ssh.Close c' w') = [EvConnClose conn (sys_connClose conn w').1]) as Hclose.
  { intros w'. unfold ssh.Close. rewrite Hconn. done. }
  destruct vs as [e|].
  { rewrite !evs_bind. cbn [ret evs]. rewrite app_nil_r, Hclose. split.
    - rewrite !count_app, !count_Always_0 by done. done.
    - exists conn, (sys_connClose conn ps).1, (en ++ ec ++ es). split; [done|].
      by rewrite <- !app_assoc. }
  rewrite ?val_bind, ?evs_bind.
  pose proof (open_deployFiles c' deployments filesDir ps) as Hd.
  destruct (deployFiles c' deployments filesDir ps) as [vd pd ed].
  cbn [val post evs] in *.
  destruct vd as [e|].
  { rewrite !evs_bind. cbn [ret evs]. rewrite app_nil_r, Hclose. split.
    - rewrite !count_app, !count_Always_0 by done. done.
    - exists conn, (sys_connClose conn pd).1, (en ++ ec ++ es ++ ed). split; [done|].
      by rewrite <- !app_assoc. }
  rewrite !evs_bind. cbn [ret evs]. rewrite app_nil_r, Hclose.
  pose proof (open_ExecuteCommand c' ("rm -rf " +:+ remoteScriptDir) pd) as Hrm.
  set (rm := ssh.ExecuteCommand c' ("rm -rf " +:+ remoteScriptDir) pd) in *.
  assert (Forall (λ e, is_close e = false)
            (evs (match val rm with
                  | Some err =>
                    emit (EvWarn ("Warning: failed to clean up remote scripts: " +:+ err))
                  | None => ret ()
                  end (post rm)))) as Hwarn.
  { destruct (val rm); [by apply Forall_singleton | apply Forall_nil_2]. }
  set (wn := evs (match val rm with
                  | Some err =>
                    emit (EvWarn ("Warning: failed to clean up remote scripts: " +:+ err))
                  | None => ret ()
                  end (post rm))) in *.
  set (wr := post (match val rm with
                   | Some err =>
                     emit (EvWarn ("Warning: failed to clean up remote scripts: " +:+ err))
                   | None => ret ()
                   end (post rm))).
  split.
  - rewrite !count_app, !count_Always_0 by done. done.
  - exists conn, (sys_connClose conn wr).1, (en ++ ec ++ es ++ ed ++ evs rm ++ wn).
    split; [done|]. by rewrite <- !app_assoc.
Qed.

Lemma runs_no_run l : Forall (λ e, is_run e = false) l → runs l = [].
Proof.
  induction 1 as [|e l He _ IH]; [done|].
  change (e :: l) with ([e] ++ l). rewrite runs_app, IH. by destruct e.
Qed.

Lemma no_run_New privateKeyPath username :
  Always (λ e, is_run e = false) (ssh.New privateKeyPath username).
Proof. unfold ssh.New. repeat always_step. Qed.

Lemma no_run_Connect_loop n c host prev :
  Always (λ e, is_run e = false) (ssh.Connect_loop n c host prev).
Proof.
  revert c prev. induction n as [|n IH]; intros c prev; cbn [ssh.Connect_loop];
    [apply Always_ret|].
  unfold ssh.sleep. repeat first [apply IH | always_step].
Qed.

Lemma no_run_Close c : Always (λ e, is_run e = false) (ssh.Close c).
Proof. unfold ssh.Close. repeat always_step. Qed.

(** X5.  After a successful [Connect], [executeProvisioningScripts] returns
    no error exactly when the scripts and the deployments all succeeded.
    Only then does it remove the scratch directory, and a failure of that
    removal is logged as a warning without changing the result.  When the
    scripts fail, its log is that of [New], [Connect], the scripts and
    [Close], and the commands it ran are those of the scripts; when the
    deployments fail, its log is that of [New], [Connect], the scripts,
    the deployments and [Close], and the commands it ran are those of the
    scripts and the deployments: no removal in either.  When both succeed
    the removal, its warning if it failed, and [Close] follow. *)
Theorem X5_scratch_cleanup_is_best_effort (scripts : list string)
    (deployments : list FileDeployment) (vmIP privateKeyPath : string) (w : W)
    (c0 : ssh.Client) :
  let n := ssh.New privateKeyPath "ubuntu" w in
  let cn := ssh.Connect c0 vmIP (post n) in
  let c := (val cn).1 in
  let s := executeScripts c scripts scriptDir remoteScriptDir (post cn) in
  let d := deployFiles c deployments filesDir (post s) in
  let rm := ssh.ExecuteCommand c ("rm -rf " +:+ remoteScriptDir) (post d) in
  let o := executeProvisioningScripts_with scripts deployments vmIP privateKeyPath w in
  val n = inr c0 → (val cn).2 = None →
  (val o = None ↔ val s = None ∧ val d = None)
  ∧ (val s = None → val d = None →
     evs o = evs n ++ evs cn ++ evs s ++ evs d ++ evs rm
             ++ match val rm with
                | Some err => [EvWarn ("Warning: failed to clean up remote scripts: " +:+ err)]
                | None => []
                end
             ++ evs (ssh.Close c (post rm)))
  ∧ (∀ e, val s = Some e →
     val o = Some ("failed to execute scripts: " +:+ e)
     ∧ evs o = evs n ++ evs cn ++ evs s ++ evs (ssh.Close c (post s))
     ∧ runs (evs o) = runs (evs s))
  ∧ (∀ e, val s = None → val d = Some e →
     val o = Some ("failed to deploy files: " +:+ e)
     ∧ evs o = evs n ++ evs cn ++ evs s ++ evs d ++ evs (ssh.Close c (post d))
     ∧ runs (evs o) = runs (evs s) ++ runs (evs d)).
Proof.
  intros n cn c s d rm o Hn Hcn. subst o rm d s c cn n.
  unfold executeProvisioningScripts_with.
  rewrite !val_bind, !evs_bind.
  pose proof (runs_no_run _ (no_run_New privateKeyPath "ubuntu" w)) as Hrn.
  destruct (ssh.New privateKeyPath "ubuntu" w) as [vn pn en]. cbn [val post evs] in *.
  subst vn. rewrite !val_bind, !evs_bind.
  pose proof (runs_no_run _ (no_run_Connect_loop 30 c0 vmIP None pn)) as Hrc.
  fold (ssh.Connect c0 vmIP) in Hrc.
  destruct (ssh.Connect c0 vmIP pn) as [[c' ce] pc ec]. cbn [val post evs fst snd] in *.
  subst ce. rewrite !val_bind, !evs_bind.
  pose proof (λ w', runs_no_run _ (no_run_Close c' w')) as Hcl.
  destruct (executeScripts c' scripts scriptDir remoteScriptDir pc) as [vs ps es].
  cbn [val post evs]. destruct vs as [e|].
  { rewrite !val_bind, !evs_bind. cbn [ret val evs]. rewrite app_nil_r.
    split; [split; [done | by intros [? _]]|]. split; [done|].
    split; [|done]. intros e' [= <-]. split; [done|]. split; [done|].
    by rewrite !runs_app, Hrn, Hrc, Hcl, app_nil_r. }
  rewrite !val_bind, !evs_bind.
  destruct (deployFiles c' deployments filesDir ps) as [vd pd ed].
  cbn [val post evs]. destruct vd as [e|].
  { rewrite !val_bind, !evs_bind. cbn [ret val evs]. rewrite app_nil_r.
    split; [split; [done | by intros [_ ?]]|]. split; [done|].
    split; [done|]. intros e' _ [= <-]. split; [done|]. split; [done|].
    by rewrite !runs_app, Hrn, Hrc, Hcl, app_nil_r. }
  rewrite !val_bind, !evs_bind. cbn [ret val evs]. split; [done|].
  split; [|done]. intros _ _.
  rewrite app_nil_r.
  destruct (ssh.ExecuteCommand c' ("rm -rf " +:+ remoteScriptDir) pd) as [vr pr er].
  cbn [val post evs]. by destruct vr.
Qed.

(** *** [New] and [CopyFile] *)

Lemma substring_0_length s : String.substring 0 (String.length s) s = s.
Proof. induction s as [|a s IH]; [done|]. cbn. by rewrite IH. Qed.

Lemma tilde_rest rest :
  String.prefix "~" ("~" +:+ rest) = true
  ∧ String.substring 1 (String.length ("~" +:+ rest) - 1) ("~" +:+ rest) = rest.
Proof.
  assert ("~" +:+ rest = String (Ascii.ascii_of_nat 126) rest) as -> by reflexivity.
  split; [by destruct rest|].
  replace (String.length (String (Ascii.ascii_of_nat 126) rest) - 1)
    with (String.length rest) by (cbn [String.length]; lia).
  change (String.substring 0 (String.length rest) rest = rest).
  apply substring_0_length.
Qed.

(** X6.  [New] works on the local machine only.  A path that does not start
    with "~" is read as given and the home directory is not asked for; a
    path "~" followed by [rest] (a user name included, as in "~alice/key")
    is read from the current user's home directory joined with [rest].
    The client it returns holds no connection, logs in as the given user
    and dials with a 30 second timeout. *)
Theorem X6_New_reads_the_key_locally (privateKeyPath username : string) (w : W) :
  let o := ssh.New privateKeyPath username w in
  Forall (λ e, is_remote e = false) (evs o)
  ∧ (String.prefix "~" privateKeyPath = false →
     evs o = [EvReadFile privateKeyPath (sys_readFile privateKeyPath w).1])
  ∧ (∀ rest home,
       privateKeyPath = "~" +:+ rest → (sys_homeDir w).1 = inr home →
       evs o = [EvHomeDir (inr home);
                EvReadFile (pathJoin home rest)
                  (sys_readFile (pathJoin home rest) (sys_homeDir w).2).1])
  ∧ (∀ e, String.prefix "~" privateKeyPath = true → (sys_homeDir w).1 = inl e →
       val o = inl ("failed to get home directory: " +:+ e) ∧ evs o = [EvHomeDir (inl e)])
  ∧ (∀ c, val o = inr c →
       ssh.client c = None ∧ User (ssh.config c) = username
       ∧ Timeout (ssh.config c) = 30%Z).
Proof.
  cbn zeta. split; [|split; [|split; [|split]]].
  - revert w. change (Always (λ e, is_remote e = false) (ssh.New privateKeyPath username)).
    unfold ssh.New. repeat always_step.
  - intros Hp. unfold ssh.New. rewrite Hp. unfold bind, call, ret. cbn zeta.
    cbn [val post evs app].
    destruct (sys_readFile privateKeyPath w).1; cbn [val post evs app]; [done|].
    by destruct (parsePrivateKey _).
  - intros rest home -> Hhome. destruct (tilde_rest rest) as [Hp Hsub].
    unfold ssh.New. rewrite Hp, Hsub. unfold bind, call, ret. cbn zeta.
    cbn [val post evs app]. rewrite Hhome. cbn [val post evs app].
    destruct (sys_readFile _ _).1; cbn [val post evs app]; [done|].
    by destruct (parsePrivateKey _).
  - intros e Hp Hhome. unfold ssh.New. rewrite Hp. unfold bind, call, ret. cbn zeta.
    cbn [val post evs app]. rewrite Hhome. done.
  - intros c. unfold ssh.New, bind, call. cbn zeta. cbn [val post evs].
    destruct (String.prefix "~" privateKeyPath); cbn [val post evs];
      repeat case_match; cbn; try done; by intros [= <-].
Qed.

(** X7.  [CopyFile] touches the network only after the local file was
    opened and examined: if any of its calls is remote, both local calls
    succeeded.  A failure to open the file is returned after that single
    call. *)
Theorem X7_CopyFile_checks_the_local_file_first (c : ssh.Client)
    (localPath remotePath : string) (w : W) :
  let o := ssh.CopyFile c localPath remotePath w in
  (Exists (λ e, is_remote e = true) (evs o) →
     (sys_open localPath w).1 = None
     ∧ ∃ size, (sys_fstat localPath (sys_open localPath w).2).1 = inr size)
  ∧ (∀ conn e, ssh.client c = Some conn → (sys_open localPath w).1 = Some e →
       val o = Some ("failed to open local file: " +:+ e)
       ∧ evs o = [EvOpen localPath (Some e)]).
Proof.
  cbn zeta. unfold ssh.CopyFile. destruct (ssh.client c) as [conn|].
  2: { split; [|done]. cbn. by intros ?%Exists_nil. }
  unfold bind, call, ret. cbn zeta. cbn [val post evs app]. split.
  - destruct (sys_open localPath w).1 as [e|]; cbn [val post evs app].
    { intros [?|?%Exists_nil]%Exists_cons; done. }
    destruct (sys_fstat localPath _).1 as [e|size]; cbn [val post evs app].
    { intros [?|[?|?%Exists_nil]%Exists_cons]%Exists_cons; done. }
    intros _. split; [done | by eexists].
  - intros conn' e _ ->. done.
Qed.

(** *** Failing reads in the readiness loops *)

Local Opaque poll_vm poll_snapshot.

(** A status read that failed. *)
Lemma WaitForVMReady_loop_error n c vmID w k e :
  vm_polls n c vmID w !! k = Some (inl e) →
  Forall (pending client.vm_ready) (take k (vm_polls n c vmID w)) →
  let o := client.WaitForVMReady_loop n c vmID w in
  val o = inl e ∧ http_count (evs o) = S k ∧ count is_sleep (evs o) = k.
Proof.
  revert n w. induction k as [|k IH]; intros [|n] w Hk Hall o; subst o; try done.
  - rewrite WaitForVMReady_loop_S. cbn zeta. cbn [vm_polls] in Hk.
    injection Hk as Hk. rewrite Hk. done.
  - cbn [vm_polls] in Hk, Hall. cbn [take] in Hall.
    apply Forall_cons in Hall as [(vm' & Hv & Hr') Hall].
    rewrite WaitForVMReady_loop_S. cbn zeta. rewrite Hv, Hr'. cbn [val evs].
    cbn [lookup list_lookup] in Hk.
    destruct (IH _ _ Hk Hall) as (-> & Hc & Hs). split; [done|].
    rewrite http_count_app, count_app, poll_vm_http_count.
    change (EvSleep 10 :: ?l) with ([EvSleep 10] ++ l).
    rewrite http_count_app, count_app, Hc, Hs. done.
Qed.

Lemma WaitForSnapshotReady_loop_error n c snapshotID w k e :
  snapshot_polls n c snapshotID w !! k = Some (inl e) →
  Forall (pending client.snapshot_ready) (take k (snapshot_polls n c snapshotID w)) →
  let o := client.WaitForSnapshotReady_loop n c snapshotID w in
  val o = Some e ∧ http_count (evs o) = S k ∧ count is_sleep (evs o) = k.
Proof.
  revert n w. induction k as [|k IH]; intros [|n] w Hk Hall o; subst o; try done.
  - rewrite WaitForSnapshotReady_loop_S. cbn zeta. cbn [snapshot_polls] in Hk.
    injection Hk as Hk. rewrite Hk. done.
  - cbn [snapshot_polls] in Hk, Hall. cbn [take] in Hall.
    apply Forall_cons in Hall as [(s' & Hv & Hr') Hall].
    rewrite WaitForSnapshotReady_loop_S. cbn zeta. rewrite Hv, Hr'. cbn [val evs].
    cbn [lookup list_lookup] in Hk.
    destruct (IH _ _ Hk Hall) as (-> & Hc & Hs). split; [done|].
    rewrite http_count_app, count_app, poll_snapshot_http_count.
    change (EvSleep 10 :: ?l) with ([EvSleep 10] ++ l).
    rewrite http_count_app, count_app, Hc, Hs. done.
Qed.

Local Transparent poll_vm poll_snapshot.

(** X8.  The readiness loops do not retry a failed read.  When the read of
    index [k] within the cap is the first that fails (transport error, or
    an answer that [parseAPIResponse] or the decoder rejects) and the
    earlier ones returned states that were not ready, the loop returns
    that read's error unchanged, after [k + 1] requests and [k] sleeps. *)
Theorem X8_failed_read_ends_the_wait (c : client.HyperstackClient)
    (vmID snapshotID : Z) (w : W) :
  (∀ k e,
     vm_polls 60 c vmID w !! k = Some (inl e) →
     Forall (pending client.vm_ready) (take k (vm_polls 60 c vmID w)) →
     let o := client.WaitForVMReady c vmID w in
     val o = inl e ∧ http_count (evs o) = S k ∧ count is_sleep (evs o) = k)
  ∧ (∀ k e,
     snapshot_polls 120 c snapshotID w !! k = Some (inl e) →
     Forall (pending client.snapshot_ready) (take k (snapshot_polls 120 c snapshotID w)) →
     let o := client.WaitForSnapshotReady c snapshotID w in
     val o = Some e ∧ http_count (evs o) = S k ∧ count is_sleep (evs o) = k).
Proof.
  split; intros k e.
  - apply WaitForVMReady_loop_error.
  - apply WaitForSnapshotReady_loop_error.
Qed.

End MoreFacts.

Section MoreWitnesses.
Import scenario scenario_more.

Local Abbreviation key := (client.New "key").

Lemma X1_witness :
  val (ssh.Connect unconnected "203.0.113.9" w_good) = (connected, None)
  ∧ count is_dial (evs (ssh.Connect unconnected "203.0.113.9" w_good)) = 1
  ∧ val (ssh.Connect connected "203.0.113.9" w_unreachable)
    = (unconnected,
       Some "failed to connect after 30 attempts: dial tcp: connection refused")
  ∧ count is_sleep (evs (ssh.Connect connected "203.0.113.9" w_unreachable)) = 30.
Proof.
  destruct (X1_Connect_retries unconnected "203.0.113.9" w_good) as [Hfirst _].
  destruct (X1_Connect_retries connected "203.0.113.9" w_unreachable) as [_ Hall].
  destruct (Hfirst 0 1) as (H1 & H2 & _); [reflexivity | constructor |].
  destruct (Hall "dial tcp: connection refused") as (H3 & _ & H4).
  - vm_compute. repeat (constructor; [by eexists|]). constructor.
  - reflexivity.
  - split; [exact H1|]. split; [exact H2|]. split; [exact H3 | exact H4].
Defined.

Lemma X2_witness :
  runs (evs (executeScripts connected provisioningScripts scriptDir remoteScriptDir w_good))
  = [ "mkdir -p /tmp/provisioning-scripts";
      "scp -t /tmp/provisioning-scripts/cleanup-nvidia-cuda.sh";
      "chmod +x /tmp/provisioning-scripts/cleanup-nvidia-cuda.sh";
      "/tmp/provisioning-scripts/cleanup-nvidia-cuda.sh";
      "scp -t /tmp/provisioning-scripts/install-drivers.sh";
      "chmod +x /tmp/provisioning-scripts/install-drivers.sh";
      "/tmp/provisioning-scripts/install-drivers.sh";
      "scp -t /tmp/provisioning-scripts/install-nvidia-container-toolkit.sh";
      "chmod +x /tmp/provisioning-scripts/install-nvidia-container-toolkit.sh";
      "/tmp/provisioning-scripts/install-nvidia-container-toolkit.sh" ]
  ∧ val (executeScripts connected provisioningScripts scriptDir remoteScriptDir
           w_script_fails)
    = Some "failed to execute script install-drivers.sh: failed to execute script: command failed: Process exited with status 1"
  ∧ runs (evs (executeScripts connected provisioningScripts scriptDir remoteScriptDir
                 w_script_fails))
    = [ "mkdir -p /tmp/provisioning-scripts";
        "scp -t /tmp/provisioning-scripts/cleanup-nvidia-cuda.sh";
        "chmod +x /tmp/provisioning-scripts/cleanup-nvidia-cuda.sh";
        "/tmp/provisioning-scripts/cleanup-nvidia-cuda.sh";
        "scp -t /tmp/provisioning-scripts/install-drivers.sh";
        "chmod +x /tmp/provisioning-scripts/install-drivers.sh";
        "/tmp/provisioning-scripts/install-drivers.sh" ]
  ∧ ∃ before,
      evs (executeScripts connected provisioningScripts scriptDir remoteScriptDir
             w_script_fails)
      = before ++ [EvRun 0 "/tmp/provisioning-scripts/install-drivers.sh"
                     (Some "Process exited with status 1")]
      ∧ Forall (λ e, failed e = false) before.
Proof.
  destruct (X2_executeScripts_commands connected provisioningScripts scriptDir
              remoteScriptDir w_good) as (_ & Hall & _).
  destruct (X2_executeScripts_commands connected provisioningScripts scriptDir
              remoteScriptDir w_script_fails) as (_ & _ & Hstop).
  split; [exact (Hall eq_refl)|].
  split; [vm_compute; reflexivity|]. split; [vm_compute; reflexivity|].
  destruct (Hstop 1 eq_refl) as (before & e & Hl & Hclean & _).
  exists before. split; [|exact Hclean]. rewrite Hl. f_equal. f_equal.
  assert (last (evs (executeScripts connected provisioningScripts scriptDir
                       remoteScriptDir w_script_fails)) = Some e) as Hlast
    by (rewrite Hl; apply last_snoc).
  vm_compute in Hlast. by injection Hlast as <-.
Defined.

Lemma X3_witness :
  val (deployFiles connected [runsc; other_conf] filesDir w_other_dir_refused)
  = Some "failed to create remote directory /etc/other: command failed: Process exited with status 1"
  ∧ runs (evs (deployFiles connected [runsc; other_conf] filesDir w_other_dir_refused))
    = [ "sudo mkdir -p /etc/containerd"; "scp -t /tmp/runsc.toml";
        "sudo mv /tmp/runsc.toml /etc/containerd/runsc.toml";
        "sudo mkdir -p /etc/other" ]
  ∧ (∃ before,
      evs (deployFiles connected [runsc; other_conf] filesDir w_other_dir_refused)
      = before ++ [EvRun 0 "sudo mkdir -p /etc/other" (Some "Process exited with status 1")]
      ∧ Forall (λ e, failed e = false) before)
  ∧ runs (evs (deployFiles connected [runsc; other_conf] filesDir w_good))
    = [ "sudo mkdir -p /etc/containerd"; "scp -t /tmp/runsc.toml";
        "sudo mv /tmp/runsc.toml /etc/containerd/runsc.toml";
        "sudo mkdir -p /etc/other"; "scp -t /tmp/other.conf";
        "sudo mv /tmp/other.conf /etc/other/other.conf" ].
Proof.
  destruct (X3_deployFiles_commands connected [runsc; other_conf] filesDir
              w_other_dir_refused) as (_ & _ & Hstop).
  destruct (X3_deployFiles_commands connected [runsc; other_conf] filesDir w_good)
    as (_ & Hall & _).
  split; [vm_compute; reflexivity|]. split; [vm_compute; reflexivity|].
  split; [|exact (Hall eq_refl)].
  destruct (Hstop 1 eq_refl) as (before & e & Hl & Hclean & _).
  exists before. split; [|exact Hclean]. rewrite Hl. f_equal. f_equal.
  assert (last (evs (deployFiles connected [runsc; other_conf] filesDir
                       w_other_dir_refused)) = Some e) as Hlast
    by (rewrite Hl; apply last_snoc).
  vm_compute in Hlast. by injection Hlast as <-.
Defined.

Lemma X4_witness :
  val (ssh.New "~/.ssh/id_rsa" "ubuntu" w_script_fails) = inr unconnected
  ∧ (val (ssh.Connect unconnected "203.0.113.9"
            (post (ssh.New "~/.ssh/id_rsa" "ubuntu" w_script_fails)))).2 = None
  ∧ count is_close
      (evs (executeProvisioningScripts_with provisioningScripts fileDeployments
              "203.0.113.9" "~/.ssh/id_rsa" w_script_fails)) = 1.
Proof.
  assert (val (ssh.New "~/.ssh/id_rsa" "ubuntu" w_script_fails) = inr unconnected) as Hn
    by reflexivity.
  assert ((val (ssh.Connect unconnected "203.0.113.9"
                  (post (ssh.New "~/.ssh/id_rsa" "ubuntu" w_script_fails)))).2 = None)
    as Hc by reflexivity.
  split; [exact Hn|]. split; [exact Hc|].
  destruct (X4_connection_closed_once provisioningScripts fileDeployments
              "203.0.113.9" "~/.ssh/id_rsa" w_script_fails) as [_ Hconn].
  destruct (Hconn unconnected Hn) as [_ Hok]. exact (proj1 (Hok Hc)).
Defined.

Lemma X5_witness :
  val (ssh.New "~/.ssh/id_rsa" "ubuntu" w_cleanup_fails) = inr unconnected
  ∧ (val (ssh.Connect unconnected "203.0.113.9"
            (post (ssh.New "~/.ssh/id_rsa" "ubuntu" w_cleanup_fails)))).2 = None
  ∧ val (executeProvisioningScripts_with provisioningScripts fileDeployments
           "203.0.113.9" "~/.ssh/id_rsa" w_cleanup_fails) = None
  ∧ EvWarn "Warning: failed to clean up remote scripts: command failed: Process exited with status 1"
    ∈ evs (executeProvisioningScripts_with provisioningScripts fileDeployments
             "203.0.113.9" "~/.ssh/id_rsa" w_cleanup_fails)
  ∧ val (executeProvisioningScripts_with provisioningScripts fileDeployments
           "203.0.113.9" "~/.ssh/id_rsa" w_script_fails)
    = Some "failed to execute scripts: failed to execute script install-drivers.sh: failed to execute script: command failed: Process exited with status 1"
  ∧ runs (evs (executeProvisioningScripts_with provisioningScripts fileDeployments
                 "203.0.113.9" "~/.ssh/id_rsa" w_script_fails))
    = [ "mkdir -p /tmp/provisioning-scripts";
        "scp -t /tmp/provisioning-scripts/cleanup-nvidia-cuda.sh";
        "chmod +x /tmp/provisioning-scripts/cleanup-nvidia-cuda.sh";
        "/tmp/provisioning-scripts/cleanup-nvidia-cuda.sh";
        "scp -t /tmp/provisioning-scripts/install-drivers.sh";
        "chmod +x /tmp/provisioning-scripts/install-drivers.sh";
        "/tmp/provisioning-scripts/install-drivers.sh" ]
  ∧ val (executeProvisioningScripts_with provisioningScripts [runsc; other_conf]
           "203.0.113.9" "~/.ssh/id_rsa" w_move_refused)
    = Some "failed to deploy files: failed to move file to /etc/other/other.conf: command failed: Process exited with status 1"
  ∧ last (runs (evs (executeProvisioningScripts_with provisioningScripts [runsc; other_conf]
                       "203.0.113.9" "~/.ssh/id_rsa" w_move_refused)))
    = Some "sudo mv /tmp/other.conf /etc/other/other.conf".
Proof.
  assert (val (ssh.New "~/.ssh/id_rsa" "ubuntu" w_cleanup_fails) = inr unconnected) as Hn
    by reflexivity.
  assert ((val (ssh.Connect unconnected "203.0.113.9"
                  (post (ssh.New "~/.ssh/id_rsa" "ubuntu" w_cleanup_fails)))).2 = None)
    as Hc by reflexivity.
  split; [exact Hn|]. split; [exact Hc|].
  destruct (X5_scratch_cleanup_is_best_effort provisioningScripts fileDeployments
              "203.0.113.9" "~/.ssh/id_rsa" w_cleanup_fails unconnected Hn Hc)
    as (Hiff & Hlog & _ & _).
  assert (val (ssh.New "~/.ssh/id_rsa" "ubuntu" w_script_fails) = inr unconnected) as Hn1
    by reflexivity.
  assert ((val (ssh.Connect unconnected "203.0.113.9"
                  (post (ssh.New "~/.ssh/id_rsa" "ubuntu" w_script_fails)))).2 = None)
    as Hc1 by reflexivity.
  assert (val (ssh.New "~/.ssh/id_rsa" "ubuntu" w_move_refused) = inr unconnected) as Hn2
    by reflexivity.
  assert ((val (ssh.Connect unconnected "203.0.113.9"
                  (post (ssh.New "~/.ssh/id_rsa" "ubuntu" w_move_refused)))).2 = None)
    as Hc2 by reflexivity.
  destruct (X5_scratch_cleanup_is_best_effort provisioningScripts fileDeployments
              "203.0.113.9" "~/.ssh/id_rsa" w_script_fails unconnected Hn1 Hc1)
    as (_ & _ & Hscripts & _).
  destruct (X5_scratch_cleanup_is_best_effort provisioningScripts [runsc; other_conf]
              "203.0.113.9" "~/.ssh/id_rsa" w_move_refused unconnected Hn2 Hc2)
    as (_ & _ & _ & Hfiles).
  split; [apply (proj2 Hiff); split; vm_compute; reflexivity|].
  split.
  { rewrite Hlog by (vm_compute; reflexivity).
    rewrite !elem_of_app. right. right. right. right. right. left.
    vm_compute. apply list_elem_of_here. }
  destruct (Hscripts "failed to execute script install-drivers.sh: failed to execute script: command failed: Process exited with status 1")
    as (Hv & _ & Hr); [vm_compute; reflexivity|].
  split; [exact Hv|]. split; [rewrite Hr; vm_compute; reflexivity|].
  destruct (Hfiles "failed to move file to /etc/other/other.conf: command failed: Process exited with status 1")
    as (Hv' & _ & Hr'); [vm_compute; reflexivity | vm_compute; reflexivity |].
  split; [exact Hv'|]. rewrite Hr'. vm_compute. reflexivity.
Defined.

Lemma X6_witness :
  evs (ssh.New "~alice/id_rsa" "ubuntu" w_good)
  = [EvHomeDir (inr "/home/builder");
     EvReadFile "/home/builder/alice/id_rsa" (inr "PRIVATE KEY")].
Proof.
  destruct (X6_New_reads_the_key_locally "~alice/id_rsa" "ubuntu" w_good)
    as (_ & _ & Htilde & _).
  apply (Htilde "alice/id_rsa" "/home/builder"); reflexivity.
Defined.

Lemma X7_witness :
  val (ssh.CopyFile connected "runsc.toml" "/tmp/runsc.toml" w_unreadable)
  = Some "failed to open local file: permission denied"
  ∧ evs (ssh.CopyFile connected "runsc.toml" "/tmp/runsc.toml" w_unreadable)
    = [EvOpen "runsc.toml" (Some "permission denied")].
Proof.
  destruct (X7_CopyFile_checks_the_local_file_first connected "runsc.toml"
              "/tmp/runsc.toml" w_unreadable) as [_ Hopen].
  apply (Hopen 1 "permission denied"); reflexivity.
Defined.

Lemma X8_witness :
  val (client.WaitForVMReady key 7 w_refused) = inl "API returned error: quota exceeded"
  ∧ http_count (evs (client.WaitForVMReady key 7 w_refused)) = 1
  ∧ val (client.WaitForSnapshotReady key 9 w_refused) = Some "invalid character".
Proof.
  destruct (X8_failed_read_ends_the_wait key 7 9 w_refused) as [Hvm Hsnap].
  destruct (Hvm 0 "API returned error: quota exceeded") as (H1 & H2 & _);
    [vm_compute; reflexivity | constructor |].
  destruct (Hsnap 0 "invalid character") as (H3 & _);
    [vm_compute; reflexivity | constructor |].
  split; [exact H1|]. split; [exact H2 | exact H3].
Defined.

End MoreWitnesses.
